(** * liferaft: the Raft node of [index.js], embedded and verified

    The JavaScript [Node] is embedded as a record that is threaded through a
    small monad carrying the mutable object, the exception a call may raise and
    the events the node emits.  Every definition below follows one function of
    [index.js]; the timer registry [Tick] is an external package and is
    modelled from the interface the specification gives for it. *)

From Stdlib Require Import ZArith QArith Qround Qabs List String Ascii Bool Lia.
Import ListNotations.
Close Scope Q_scope.
Open Scope string_scope.
Open Scope list_scope.
Open Scope Z_scope.

Set Implicit Arguments.

(* ================================================================== *)
(** ** Values                                                          *)
(* ================================================================== *)

(** [Node.LEADER = 1], [Node.CANDIDATE = 2], [Node.FOLLOWER = 3],
    [Node.STOPPED = 4]. *)
Inductive role := LEADER | CANDIDATE | FOLLOWER | STOPPED.

Definition role_code (r : role) : Z :=
  match r with LEADER => 1 | CANDIDATE => 2 | FOLLOWER => 3 | STOPPED => 4 end.

Definition role_eqb (a b : role) : bool := role_code a =? role_code b.

(** [x === y] on a field that holds a role constant or nothing ([None]:
    [null], [undefined], or any value that is no role constant). *)
Definition strict_role (a b : option role) : bool :=
  match a, b with
  | Some x, Some y => role_eqb x y
  | None, None => true
  | _, _ => false
  end.

(** A JavaScript number as the timers see it: an integer number of
    milliseconds, or [NaN]. *)
Inductive number := NaN | Num (z : Z).

(** The envelope of section 4.3 as [incoming] reads it.  A field is [None]
    when the object does not carry it (the property reads [undefined]).
    - [p_term]: an integer term; [None] compares false both ways, as
      [undefined > t] and [undefined < t] do;
    - [p_state]: a role constant, [None] for anything else;
    - [p_data]: the duration carried by a heartbeat, in milliseconds;
    - [p_payload]: [None] when [data.payload] is [undefined] or [null] (reading
      [.granted] from it raises), [Some b] when it is a value whose [granted]
      property is truthy ([b = true]) or falsy;
    - [p_type]: the message kind; a kind that names no [case] falls through
      the [switch]. *)
Record Packet := mkPacket {
  p_state : option role;
  p_term : option Z;
  p_name : option string;
  p_data : option Z;
  p_type : string;
  p_payload : option bool
}.

(** What a caller may hand to [read]. *)
Inductive value :=
| Undefined
| Null
| Boolean (b : bool)
| Number (z : Z)
| Text (s : string)
| Object (p : Packet).

Definition typeof (v : value) : string :=
  match v with
  | Undefined => "undefined"
  | Null => "object"
  | Boolean _ => "boolean"
  | Number _ => "number"
  | Text _ => "string"
  | Object _ => "object"
  end.

(** Truthiness of a string-or-nothing field such as [votes.for]. *)
Definition truthy (s : option string) : bool :=
  match s with
  | Some x => negb (x =? EmptyString)%string
  | None => false
  end.

Definition same_name (a b : option string) : bool :=
  match a, b with
  | Some x, Some y => (x =? y)%string
  | None, None => true
  | _, _ => false
  end.

(** [a > b] and [a < b] with a possibly absent left operand. *)
Definition js_gt (a : option Z) (b : Z) : bool :=
  match a with Some x => b <? x | None => false end.
Definition js_lt (a : option Z) (b : Z) : bool :=
  match a with Some x => x <? b | None => false end.
Definition strict_num (a : option Z) (b : Z) : bool :=
  match a with Some x => x =? b | None => false end.

(** *** Binary64 arithmetic

    Every JavaScript number is a double.  Comparisons of doubles are exact;
    sums, differences and products are the exact result rounded to the
    nearest double, ties to the even significand.  The rounding is written
    out for the normal range (no overflow to [Infinity], no subnormals),
    which is where the node computes. *)

(** The integer nearest to [x], ties to the even one. *)
Definition half_even (x : Q) : Z :=
  let f := Qfloor x in
  match Qcompare (x - inject_Z f) (1 # 2) with
  | Lt => f
  | Gt => f + 1
  | Eq => if Z.even f then f else f + 1
  end.

(** [floor (log2 |x|)] for a rational [x] other than 0. *)
Definition binade (x : Q) : Z :=
  let d := Z.log2 (Z.abs (Qnum x)) - Z.log2 (Zpos (Qden x)) in
  if Qle_bool (Qpower 2 d) (Qabs x) then d else d - 1.

(** The double nearest to [x]: 53 significant bits. *)
Definition binary64 (x : Q) : Q :=
  if Qeq_bool x 0 then 0%Q
  else
    let ulp := Qpower 2 (binade x - 52) in
    Qred (inject_Z (half_even (x / ulp)) * ulp).

(** [x + y], [x - y] and [x * y] on doubles. *)
Definition fadd (x y : Q) : Q := binary64 (x + y).
Definition fsub (x y : Q) : Q := binary64 (x - y).
Definition fmul (x y : Q) : Q := binary64 (x * y).

(** The same rounding on an integer: every integer up to [2 ^ 53] in
    magnitude is a double; beyond, the doubles are the multiples of the
    unit in the last place. *)
Definition nearest_double (x : Z) : Z :=
  let a := Z.abs x in
  if a <=? 2 ^ 53 then x
  else
    let ulp := 2 ^ (Z.log2 a - 52) in
    let q := a / ulp in
    let r := a mod ulp in
    let q' := if 2 * r <? ulp then q
              else if ulp <? 2 * r then q + 1
              else if Z.even q then q else q + 1 in
    Z.sgn x * (q' * ulp).

(** [t + 1] on a term.  On a double [t] this is [nearest_double (t + 1)],
    which is never below [t] ([plus_one_double] below): [t + 1] up to
    [2 ^ 53], and from there on [t] itself or the next double.  The maximum
    only matters on the integers of the model that no double holds, where it
    keeps the sum from going below [t]. *)
Definition plus_one (t : Z) : Z := Z.max t (nearest_double (t + 1)).

(** Modelled from the spec: what an option holds for a timeout bound, a
    number of milliseconds or a duration string such as ['150 ms'].  The
    parser of duration strings is part of [tick-tock], not of [index.js]: a
    string comes with the number of milliseconds the parser makes of it. *)
Inductive setting :=
| Millis (ms : Z)
| Duration (text : string) (ms : Z).

(* ================================================================== *)
(** ** The timer registry                                              *)
(* ================================================================== *)

Module Tick.

(** Modelled from the spec: the [tick-tock] package ([require('tick-tock')])
    is not part of [index.js].  Section 4.1 gives its interface: named
    one-shot timers with [set], [active], [adjust], [clear] and [end].  A
    pending timer holds its callback and its duration. *)
Record timer (F : Type) := Timer { fn : F; ms : number }.

(** Modelled from the spec: the registry, one entry per pending name. *)
Definition t (F : Type) := list (string * timer F).

(** Modelled from the spec: [new Tick(context)], no timer pending. *)
Definition empty {F} : t F := [].

(** Modelled from the spec: the pending timer of that name, if any. *)
Fixpoint find {F} (name : string) (r : t F) : option (timer F) :=
  match r with
  | [] => None
  | (k, x) :: rest => if (k =? name)%string then Some x else find name rest
  end.

(** Modelled from the spec: [active(name)], is a timer pending by this
    name. *)
Definition active {F} (name : string) (r : t F) : bool :=
  match find name r with Some _ => true | None => false end.

(** Modelled from the spec: [adjust(name, duration)] resets a scheduled
    timer to a new duration without invoking its callback. *)
Fixpoint adjust {F} (name : string) (d : number) (r : t F) : t F :=
  match r with
  | [] => []
  | (k, x) :: rest =>
      if (k =? name)%string then (k, Timer (fn x) d) :: rest
      else (k, x) :: adjust name d rest
  end.

(** Modelled from the spec: [set(name, callback, duration)]; a name that
    is already pending is an error ([None]). *)
Definition setTimeout {F} (name : string) (f : F) (d : number) (r : t F)
  : option (t F) :=
  if active name r then None else Some (r ++ [(name, Timer f d)]).

(** Modelled from the spec: a timer leaves the registry when it fires. *)
Fixpoint remove {F} (name : string) (r : t F) : t F :=
  match r with
  | [] => []
  | (k, x) :: rest =>
      if (k =? name)%string then rest else (k, x) :: remove name rest
  end.

(** Modelled from the spec: [clear()] cancels all timers; [end()] is
    [clear] plus release. *)
Definition clear {F} (r : t F) : t F := [].

(** Modelled from the spec: [Tick.parse] takes a number of milliseconds as
    it is and parses a duration string such as ['150 ms']. *)
Definition parse (d : setting) : Z :=
  match d with Millis ms => ms | Duration _ ms => ms end.

End Tick.

(* ================================================================== *)
(** ** The node                                                        *)
(* ================================================================== *)

(** The two functions the node hands to [setTimeout]: the closure of
    [heartbeat] and [this.promote]. *)
Inductive callback := heartbeat_expired | promote_fn.

Record times := mkTimes { min : Z; max : Z }.

(** The object [this].  Beside the properties the constructor assigns:
    - [nodes] is the peer set read by [quorum]; the constructor leaves it
      [undefined] ([None]) and the membership provider assigns it;
    - [listening] tells whether the listeners of [initialize] are registered;
    - [write_null] and [read_null] tell whether [end] has overwritten the
      method with [null];
    - [random] and [drawn] are the stream behind [Math.random] and the number
      of draws made so far. *)
Record node := mkNode {
  election : times;
  beat : times;
  votes_for : option string;
  votes_granted : Z;
  threshold : Q;
  name : string;
  timers : option (Tick.t callback);
  state : option role;
  leader : option string;
  term : Z;
  nodes : option (list string);
  listening : bool;
  write_null : bool;
  read_null : bool;
  random : nat -> Q;
  drawn : nat
}.

Definition set_votes_for (v : option string) (n : node) : node :=
  mkNode (election n) (beat n) v (votes_granted n) (threshold n) (name n)
    (timers n) (state n) (leader n) (term n) (nodes n) (listening n)
    (write_null n) (read_null n) (random n) (drawn n).

Definition set_votes_granted (g : Z) (n : node) : node :=
  mkNode (election n) (beat n) (votes_for n) g (threshold n) (name n)
    (timers n) (state n) (leader n) (term n) (nodes n) (listening n)
    (write_null n) (read_null n) (random n) (drawn n).

Definition set_timers (r : option (Tick.t callback)) (n : node) : node :=
  mkNode (election n) (beat n) (votes_for n) (votes_granted n) (threshold n)
    (name n) r (state n) (leader n) (term n) (nodes n) (listening n)
    (write_null n) (read_null n) (random n) (drawn n).

Definition set_state (s : option role) (n : node) : node :=
  mkNode (election n) (beat n) (votes_for n) (votes_granted n) (threshold n)
    (name n) (timers n) s (leader n) (term n) (nodes n) (listening n)
    (write_null n) (read_null n) (random n) (drawn n).

Definition set_leader (l : option string) (n : node) : node :=
  mkNode (election n) (beat n) (votes_for n) (votes_granted n) (threshold n)
    (name n) (timers n) (state n) l (term n) (nodes n) (listening n)
    (write_null n) (read_null n) (random n) (drawn n).

Definition set_term (t : Z) (n : node) : node :=
  mkNode (election n) (beat n) (votes_for n) (votes_granted n) (threshold n)
    (name n) (timers n) (state n) (leader n) t (nodes n) (listening n)
    (write_null n) (read_null n) (random n) (drawn n).

Definition set_nodes (l : option (list string)) (n : node) : node :=
  mkNode (election n) (beat n) (votes_for n) (votes_granted n) (threshold n)
    (name n) (timers n) (state n) (leader n) (term n) l (listening n)
    (write_null n) (read_null n) (random n) (drawn n).

Definition set_listening (b : bool) (n : node) : node :=
  mkNode (election n) (beat n) (votes_for n) (votes_granted n) (threshold n)
    (name n) (timers n) (state n) (leader n) (term n) (nodes n) b
    (write_null n) (read_null n) (random n) (drawn n).

Definition set_methods_null (n : node) : node :=
  mkNode (election n) (beat n) (votes_for n) (votes_granted n) (threshold n)
    (name n) (timers n) (state n) (leader n) (term n) (nodes n) (listening n)
    true true (random n) (drawn n).

Definition set_drawn (k : nat) (n : node) : node :=
  mkNode (election n) (beat n) (votes_for n) (votes_granted n) (threshold n)
    (name n) (timers n) (state n) (leader n) (term n) (nodes n) (listening n)
    (write_null n) (read_null n) (random n) k.

(* ================================================================== *)
(** ** Effects                                                         *)
(* ================================================================== *)

Inductive exn :=
| TypeError (what : string)
| TimerError (name : string).

(** What [write] is called with: a packet, or the pair
    [('vote', { granted: b })] the vote handler passes. *)
Inductive written := w_packet (p : Packet) | w_vote (granted : bool).

(** What the node makes observable: the events it emits on its bus (all but
    ['data'], which is the entry point itself) and the calls of [write]. *)
Inductive event :=
| term_change (currently previously : Z)
| leader_change (currently previously : option string)
| state_change (currently previously : option role)
| heartbeat_timeout
| vote (data : Packet) (granted : bool)
| write_call (w : written).

Inductive outcome (A : Type) := Return (a : A) | Raise (e : exn).
Arguments Raise {A} e.

Record run (A : Type) := Run { res : outcome A; st : node; evs : list event }.

(** A method body: from the object before to the result, the object after
    and the events emitted in between, oldest first. *)
Definition M (A : Type) := node -> run A.

Definition ret {A} (a : A) : M A := fun n => Run (Return a) n [].

Definition bind {A B} (m : M A) (f : A -> M B) : M B := fun n =>
  let r := m n in
  match res r with
  | Return a => let r' := f a (st r) in Run (res r') (st r') (evs r ++ evs r')
  | Raise e => Run (Raise e) (st r) (evs r)
  end.

Definition throw {A} (e : exn) : M A := fun n => Run (Raise e) n [].

Definition modify (f : node -> node) : M unit := fun n => Run (Return tt) (f n) [].

Definition tell (e : event) : M unit := fun n => Run (Return tt) n [e].

Declare Scope js_scope.
Delimit Scope js_scope with js.
Notation "x <- m ; k" := (bind m (fun x => k))
  (at level 61, m at next level, right associativity) : js_scope.
Notation "m ;; k" := (bind m (fun _ => k))
  (at level 61, right associativity) : js_scope.
Open Scope js_scope.

Fixpoint for_each {A} (l : list A) (body : A -> M unit) : M unit :=
  match l with
  | [] => ret tt
  | x :: rest => body x ;; for_each rest body
  end.

(* ================================================================== *)
(** ** Methods of [Node.prototype]                                     *)
(* ================================================================== *)

(** [Math.random()]: the next number of the stream, in [0, 1). *)
Definition Math_random : M Q := fun n =>
  Run (Return (random n (drawn n))) (set_drawn (S (drawn n)) n) [].

(** The property names [timeout] is given or that hold a [{min, max}] pair:
    ['election'], ['beat'] and ['heartbeat'].  [this['heartbeat']] is the
    method [heartbeat], a function without [min] and [max]. *)
Inductive which := key_election | key_beat | key_heartbeat.

(** [timeout(which)]:
    [Math.floor(Math.random() * (times.max - times.min + 1) + times.min)],
    each operation rounded as binary64 does; with [times.max] and
    [times.min] undefined the sum is [NaN]. *)
Definition timeout (w : which) : M number :=
  r <- Math_random ;
  fun n =>
    let floor_of (times : times) :=
      Num (Qfloor
             (fadd (fmul r (fadd (fsub (inject_Z (max times))
                                       (inject_Z (min times))) 1))
                   (inject_Z (min times)))) in
    match w with
    | key_election => ret (floor_of (election n)) n
    | key_beat => ret (floor_of (beat n)) n
    | key_heartbeat => ret NaN n
    end.

(** [packet(type, data)]. *)
Definition packet (type : string) (data : option Z) (n : node) : Packet :=
  {| p_state := state n; p_term := Some (term n); p_name := Some (name n);
     p_data := data; p_type := type; p_payload := None |}.

(** [broadcast(type, data)]: builds the packet and drops it. *)
Definition broadcast (type : string) (data : option Z) : M unit := fun n =>
  let packet := packet type data n in
  ret tt n.

(** [write(packet)]: [return false].  The call is recorded among the events,
    as the transport that replaces the stub would see it. *)
Definition write (w : written) : M bool :=
  tell (write_call w) ;; ret false.

(** A call [this.write(...)]: raises when [end] has put [null] there. *)
Definition this_write (w : written) : M bool := fun n =>
  if write_null n then throw (TypeError "this.write is not a function") n
  else write w n.

(** [this.timers.setTimeout(name, fn, duration)]. *)
Definition timers_setTimeout (name : string) (f : callback) (d : number)
  : M unit := fun n =>
  match timers n with
  | None => throw (TypeError "this.timers is null") n
  | Some r =>
      match Tick.setTimeout name f d r with
      | Some r' => modify (set_timers (Some r')) n
      | None => throw (TimerError name) n
      end
  end.

(** [heartbeat(duration)]. *)
Definition heartbeat (duration : option Z) : M unit :=
  duration <- match duration with
              | Some 0 | None => timeout key_heartbeat
              | Some d => ret (Num d)
              end ;
  fun n =>
    match timers n with
    | None => throw (TypeError "this.timers is null") n
    | Some r =>
        if Tick.active "heartbeat" r then
          modify (set_timers (Some (Tick.adjust "heartbeat" duration r))) n
        else
          timers_setTimeout "heartbeat" heartbeat_expired duration n
    end.

(** The listeners [initialize] registers on ['term change'] and
    ['state change']. *)
Definition on_term_change : M unit :=
  modify (set_votes_for None) ;;
  modify (set_votes_granted 0).

Definition on_state_change : M unit :=
  (fun n =>
     match timers n with
     | None => throw (TypeError "this.timers is null") n
     | Some r => modify (set_timers (Some (Tick.clear r))) n
     end) ;;
  heartbeat None.

(** [emit(event, ...)] for the events of [change], ['heartbeat timeout'] and
    ['vote']: runs the listeners of the event, if any, and tells whether
    there were some. *)
Definition emit (e : event) : M bool :=
  tell e ;;
  fun n =>
    if listening n then
      match e with
      | term_change _ _ => (on_term_change ;; ret true) n
      | state_change _ _ => (on_state_change ;; ret true) n
      | _ => ret false n
      end
    else ret false n.

(** The object literal handed to [change]: a field is [None] when the key is
    not [in] it. *)
Record changed := mkChanged {
  c_term : option Z;
  c_leader : option string;
  c_state : option role
}.

Inductive key := k_term | k_leader | k_state.

(** [var changes = ['term', 'leader', 'state']]. *)
Definition changes : list key := [k_term; k_leader; k_state].

(** One round of the loop of [change]. *)
Definition change_key (c : changed) (k : key) : M unit := fun n =>
  match k with
  | k_term =>
      match c_term c with
      | Some currently =>
          if negb (currently =? term n) then
            (modify (set_term currently) ;;
             emit (term_change currently (term n)) ;; ret tt) n
          else ret tt n
      | None => ret tt n
      end
  | k_leader =>
      match c_leader c with
      | Some currently =>
          if negb (same_name (Some currently) (leader n)) then
            (modify (set_leader (Some currently)) ;;
             emit (leader_change (Some currently) (leader n)) ;; ret tt) n
          else ret tt n
      | None => ret tt n
      end
  | k_state =>
      match c_state c with
      | Some currently =>
          if negb (strict_role (Some currently) (state n)) then
            (modify (set_state (Some currently)) ;;
             emit (state_change (Some currently) (state n)) ;; ret tt) n
          else ret tt n
      | None => ret tt n
      end
  end.

(** [change(changed)]. *)
Definition change (c : option changed) : M unit :=
  match c with
  | None => ret tt
  | Some c => for_each changes (change_key c)
  end.

(** [quorum()]: [Math.ceil(this.nodes.length / 2) + 1]. *)
Definition quorum : M Z := fun n =>
  match nodes n with
  | None => throw (TypeError "this.nodes is undefined") n
  | Some l => ret (Qceiling (inject_Z (Z.of_nat (List.length l)) / 2)%Q + 1) n
  end.

(** [promote()]. *)
Definition promote : M unit :=
  (fun n =>
     change (Some {| c_state := Some CANDIDATE;
                     c_term := Some (plus_one (term n));
                     c_leader := Some EmptyString |}) n) ;;
  (fun n => modify (set_votes_for (Some (name n))) n) ;;
  modify (set_votes_granted 1) ;;
  (fun n =>
     match timers n with
     | None => throw (TypeError "this.timers is null") n
     | Some _ =>
         (d <- timeout key_election ;
          timers_setTimeout "election" promote_fn d) n
     end).

(** The [case 'vote'] of [incoming]. *)
Definition incoming_vote (data : Packet) : M unit := fun n =>
  if js_lt (p_term data) (term n) then
    (emit (vote data false) ;; this_write (w_vote false) ;; ret tt) n
  else
    let grant :=
      modify (set_votes_for (p_name data)) ;;
      emit (vote data true) ;;
      this_write (w_vote true) ;; ret tt in
    if js_gt (p_term data) (term n) then
      (change (Some {| c_term := p_term data; c_leader := None;
                       c_state := None |}) ;; grant) n
    else if truthy (votes_for n)
            && negb (same_name (votes_for n) (p_name data)) then
      (emit (vote data false) ;; this_write (w_vote false) ;; ret tt) n
    else grant n.

(** The [case 'voted'] of [incoming].  The count [votes.granted] grows by
    one per tallied reply from 0 or 1, far below [2 ^ 53], where the
    increment is exact. *)
Definition incoming_voted (data : Packet) : M unit := fun n =>
  if negb (strict_role (Some CANDIDATE) (state n)) then ret tt n
  else
    ((fun n =>
        match p_payload data with
        | None => throw (TypeError "data.payload is undefined") n
        | Some granted =>
            if granted && strict_num (p_term data) (term n) then
              modify (set_votes_granted (votes_granted n + 1)) n
            else ret tt n
        end) ;;
     (fun n =>
        if js_gt (p_term data) (term n) then
          change (Some {| c_term := p_term data; c_leader := None;
                          c_state := None |}) n
        else ret tt n) ;;
     q <- quorum ;
     fun n =>
       if q <=? votes_granted n then
         change (Some {| c_term := None; c_leader := Some (name n);
                         c_state := Some LEADER |}) n
       else ret tt n) n.

(** Lines 160-162 of [incoming]: a sender that claims leadership sends a
    node that is no follower back to [FOLLOWER]. *)
Definition recognize_leader (data : Packet) : M unit := fun n =>
  if strict_role (Some LEADER) (p_state data)
     && negb (strict_role (Some FOLLOWER) (state n)) then
    change (Some {| c_term := None; c_leader := None;
                    c_state := Some FOLLOWER |}) n
  else ret tt n.

(** The [switch (data.type)] of [incoming]. *)
Definition dispatch (data : Packet) : M unit :=
  if (p_type data =? "heartbeat")%string then
    if strict_role (Some LEADER) (p_state data) then heartbeat (p_data data)
    else ret tt
  else if (p_type data =? "vote")%string then incoming_vote data
  else if (p_type data =? "voted")%string then incoming_voted data
  else if (p_type data =? "rpc")%string then ret tt
  else ret tt.

(** The listener [incoming] of ['data']. *)
Definition incoming (data : value) : M unit :=
  if negb (typeof data =? "object")%string then ret tt
  else
    match data with
    | Object data =>
        fun n =>
          if js_gt (p_term data) (term n) then
            (change (Some {| c_term := p_term data; c_leader := None;
                             c_state := Some FOLLOWER |}) ;;
             recognize_leader data ;; dispatch data) n
          else if js_lt (p_term data) (term n) then ret tt n
          else (recognize_leader data ;; dispatch data) n
    | _ => throw (TypeError "cannot read property 'term' of null")
    end.

(** [read(packet)]: [return this.emit('data', packet)]. *)
Definition read (packet : value) : M bool := fun n =>
  if listening n then (incoming packet ;; ret true) n
  else ret false n.

(** [end()]. *)
Definition end_ : M bool := fun n =>
  match state n with
  | None => ret false n
  | Some _ =>
      ((fun n =>
          match timers n with
          | None => throw (TypeError "this.timers is null") n
          | Some r => modify (set_timers (Some (Tick.clear r))) n
          end) ;;
       modify (set_listening false) ;;
       modify (fun n => set_methods_null (set_state None (set_timers None n))) ;;
       ret true) n
  end.

(** A call [node.read(packet)] or [node.write(packet)] from outside: the
    property is looked up on the object first. *)
Definition call_read (packet : value) : M bool := fun n =>
  if read_null n then throw (TypeError "node.read is not a function") n
  else read packet n.

Definition call_write (packet : Packet) : M bool := fun n =>
  if write_null n then throw (TypeError "node.write is not a function") n
  else write (w_packet packet) n.

(** The closure [heartbeat] schedules, and the dispatch of a callback. *)
Definition on_heartbeat_expired : M unit := fun n =>
  if negb (strict_role (Some LEADER) (state n)) then
    (emit heartbeat_timeout ;; promote) n
  else broadcast "heartbeat" None n.

Definition call (f : callback) : M unit :=
  match f with
  | heartbeat_expired => on_heartbeat_expired
  | promote_fn => promote
  end.

(** Modelled from the spec: expiry of the named one-shot timer.  The timer
    leaves the registry and its callback runs on the node; a name that is not
    pending does nothing. *)
Definition expire (name : string) : M unit := fun n =>
  match timers n with
  | None => ret tt n
  | Some r =>
      match Tick.find name r with
      | None => ret tt n
      | Some x =>
          (modify (set_timers (Some (Tick.remove name r))) ;; call (Tick.fn x)) n
      end
  end.

(* ================================================================== *)
(** ** Construction                                                    *)
(* ================================================================== *)

(** [value.toString(16)] for a value in [0, 15]. *)
Definition hex (v : Z) : ascii :=
  nth (Z.to_nat v) (list_ascii_of_string "0123456789abcdef") "0"%char.

(** [UUID()]: every [x] and [y] of the template is replaced, left to right,
    by a digit drawn from [Math.random() * 16 | 0]. *)
Fixpoint UUID_replace (template : string) (random : nat -> Q) (k : nat)
  : string * nat :=
  match template with
  | EmptyString => (EmptyString, k)
  | String c rest =>
      if ((c =? "x") || (c =? "y"))%char then
        let random_ := Z.lor (Qfloor (random k * 16)%Q) 0 in
        let value := if negb (c =? "x")%char
                     then Z.lor (Z.land random_ 3) 8
                     else random_ in
        let (s, k') := UUID_replace rest random (S k) in
        (String (hex value) s, k')
      else
        let (s, k') := UUID_replace rest random k in
        (String c s, k')
  end.

Definition UUID (random : nat -> Q) (k : nat) : string * nat :=
  UUID_replace "xxxxxxxx-xxxx-4xxx-yxxx-xxxxxxxxxxxx" random k.

(** The options object; a key that is absent is [None]. *)
Record options := mkOptions {
  election_min : option setting;
  election_max : option setting;
  heartbeat_min : option setting;
  heartbeat_max : option setting;
  o_threshold : option Q;
  o_name : option string
}.

Definition no_options : options :=
  mkOptions None None None None None None.

(** [x || dflt] on a timeout bound: the default replaces an absent key,
    the number 0 and the empty string. *)
Definition or_ms (x : option setting) (dflt : setting) : setting :=
  match x with
  | None | Some (Millis 0) | Some (Duration EmptyString _) => dflt
  | Some d => d
  end.

(** [initialize()]: registers the three listeners. *)
Definition initialize (n : node) : node := set_listening true n.

(** [new Node(options)], with the stream [Math.random] draws from. *)
Definition Node (opts : option options) (random : nat -> Q) : node :=
  let options := match opts with Some o => o | None => no_options end in
  let (name, k) :=
    if truthy (o_name options)
    then (match o_name options with Some s => s | None => EmptyString end, 0%nat)
    else UUID random 0 in
  initialize
    {| election :=
         {| min := Tick.parse (or_ms (election_min options)
                                     (Duration "150 ms" 150));
            max := Tick.parse (or_ms (election_max options)
                                     (Duration "300 ms" 300)) |};
       beat :=
         {| min := Tick.parse (or_ms (heartbeat_min options)
                                     (Duration "50 ms" 50));
            max := Tick.parse (or_ms (heartbeat_max options)
                                     (Duration "70 ms" 70)) |};
       votes_for := None;
       votes_granted := 0;
       threshold := match o_threshold options with
                    | Some q => if Qeq_bool q 0 then binary64 (8 # 10) else q
                    | None => binary64 (8 # 10)
                    end;
       name := name;
       timers := Some Tick.empty;
       state := Some FOLLOWER;
       leader := None;
       term := 0;
       nodes := None;
       listening := false;
       write_null := false;
       read_null := false;
       random := random;
       drawn := k |}.

(* ================================================================== *)
(** ** Runs                                                            *)
(* ================================================================== *)

(** What may happen to a node from outside: a call of its public methods, or
    the expiry of one of its timers. *)
Inductive input :=
| Read (packet : value)
| Write (packet : Packet)
| Expire (name : string)
| Promote
| Heartbeat (duration : option Z)
| End.

Definition forget {A} (m : M A) : M unit := m ;; ret tt.

Definition step (i : input) : M unit :=
  match i with
  | Read packet => forget (call_read packet)
  | Write packet => forget (call_write packet)
  | Expire name => expire name
  | Promote => promote
  | Heartbeat duration => heartbeat duration
  | End => forget end_
  end.

(** The node after a sequence of inputs; an exception leaves the object as
    it was when raised and the next input finds it so. *)
Fixpoint after (l : list input) (n : node) : node :=
  match l with
  | [] => n
  | i :: rest => after rest (st (step i n))
  end.

(** A node between construction and [end]: listeners registered, timers
    and methods in place. *)
Definition live (n : node) : Prop :=
  listening n = true /\ (exists r, timers n = Some r) /\
  write_null n = false /\ read_null n = false.

(** Names of pending timers. *)
Definition pending (name : string) (n : node) : bool :=
  match timers n with Some r => Tick.active name r | None => false end.

(** A fixed stream for examples. *)
Definition halves : nat -> Q := fun _ => (1 # 2)%Q.

(** The node named [N1], built with default options otherwise. *)
Definition N1 : node :=
  Node (Some (mkOptions None None None None None (Some "N1"))) halves.

(* ================================================================== *)
(** ** Notions used in the statements                                 *)
(* ================================================================== *)

(** How a node may differ from an earlier self: the term has not gone down,
    the name is the same, and the leader is the old one, the node's own
    name or, where [promote] may have run ([elect = true]), the empty
    string. *)
Definition evolves (elect : bool) (n n' : node) : Prop :=
  term n <= term n' /\
  name n' = name n /\
  (leader n' = leader n \/ leader n' = Some (name n) \/
   (elect = true /\ leader n' = Some EmptyString)).

(** Fields no listener and no handler assigns besides [change]. *)
Definition same_core (n n' : node) : Prop :=
  term n' = term n /\ name n' = name n /\ leader n' = leader n.

(** A method body respects [evolves] when every run of it does. *)
Definition respects (b : bool) {A} (m : M A) : Prop :=
  forall n, evolves b n (st (m n)).

(** The tests of the loop of [change], one per key: the key is [in] the
    argument and its value is not the node's. *)
Definition term_differs (c : changed) (n : node) : bool :=
  match c_term c with Some t => negb (t =? term n) | None => false end.

Definition leader_differs (c : changed) (n : node) : bool :=
  match c_leader c with
  | Some l => negb (same_name (Some l) (leader n))
  | None => false
  end.

Definition state_differs (c : changed) (n : node) : bool :=
  match c_state c with
  | Some s => negb (strict_role (Some s) (state n))
  | None => false
  end.

(** The value of a key, or the given one when the key is absent. *)
Definition or_else {A} (x : option A) (dflt : A) : A :=
  match x with Some a => a | None => dflt end.

(** The registry a state change leaves: the heartbeat timer alone. *)
Definition heartbeat_only : Tick.t callback :=
  [("heartbeat", Tick.Timer heartbeat_expired NaN)].

(** The node after the listener of ['term change']. *)
Definition reset_votes (n : node) : node :=
  set_votes_granted 0 (set_votes_for None n).

(** The node after the listener of ['state change'], timers in place. *)
Definition rearmed (n : node) : node :=
  set_timers (Some heartbeat_only) (set_drawn (S (drawn n)) n).

(** The [granted] flags of the vote replies handed to [write], in order. *)
Definition replies (l : list event) : list bool :=
  flat_map (fun e => match e with
                     | write_call (w_vote granted) => [granted]
                     | _ => []
                     end) l.

(** A field after [change]: the value of the key, or the old one. *)
Definition or_keep {A} (x old : option A) : option A :=
  match x with Some a => Some a | None => old end.

(** A vote solicitation and the reply to one, as examples use them. *)
Definition solicit (candidate : option string) (t : Z) : Packet :=
  {| p_state := Some CANDIDATE; p_term := Some t; p_name := candidate;
     p_data := None; p_type := "vote"; p_payload := None |}.

Definition reply (voter : string) (t : Z) (payload : option bool) : Packet :=
  {| p_state := Some FOLLOWER; p_term := Some t; p_name := Some voter;
     p_data := None; p_type := "voted"; p_payload := payload |}.

(** [N1] elected in a cluster whose peer set is empty. *)
Definition elected : node :=
  after [Promote; Read (Object (reply "N2" 1 (Some false)))]
        (set_nodes (Some []) N1).

(** The calls section 4.9 speaks of: [read], [write] and [end]. *)
Definition read_write_end (i : input) : bool :=
  match i with Read _ | Write _ | End => true | _ => false end.

(** How many replies grant. *)
Definition count_true (l : list bool) : nat := List.length (filter id l).

(** The node [end] leaves behind when it returns true. *)
Definition stopped_from (n : node) : node :=
  set_methods_null
    (set_state None (set_timers None (set_listening false
       (set_timers (Some []) n)))).

(** Lower-case hexadecimal digits. *)
Definition is_hex (c : ascii) : bool :=
  existsb (Ascii.eqb c) (list_ascii_of_string "0123456789abcdef").

(** The digits a variant nibble may be. *)
Definition is_variant (c : ascii) : bool :=
  existsb (Ascii.eqb c) (list_ascii_of_string "89ab").

(** A stream [Math.random] may produce: every number is in [0, 1). *)
Definition unit_interval (random : nat -> Q) : Prop :=
  forall k, (0 <= random k)%Q /\ (random k < 1)%Q.

(** [duration || this.timeout('heartbeat')] in [heartbeat]: whether the
    argument is falsy, and the duration the timer gets. *)
Definition falsy (duration : option Z) : bool :=
  match duration with Some 0 | None => true | Some _ => false end.

Definition carried (duration : option Z) : number :=
  match duration with Some 0 | None => NaN | Some d => Num d end.

(** The test of line 192: the node has voted, and for someone else. *)
Definition voted_for_other (data : Packet) (n : node) : bool :=
  truthy (votes_for n) && negb (same_name (votes_for n) (p_name data)).

(** The duration of the pending timer of that name, if any. *)
Definition duration_of (name : string) (n : node) : option number :=
  match timers n with
  | Some r => option_map (@Tick.ms callback) (Tick.find name r)
  | None => None
  end.

(** A second node, named [N2]. *)
Definition N2 : node :=
  Node (Some (mkOptions None None None None None (Some "N2"))) halves.

(** The events [promote] emits through [change]. *)
Definition promote_events (n : node) : list event :=
  (if plus_one (term n) =? term n then []
   else [term_change (plus_one (term n)) (term n)]) ++
  (if same_name (Some EmptyString) (leader n) then []
   else [leader_change (Some EmptyString) (leader n)]) ++
  (if strict_role (Some CANDIDATE) (state n) then []
   else [state_change (Some CANDIDATE) (state n)]).

(** A registry with one timer per name. *)
Definition one_per_name (r : Tick.t callback) : Prop := NoDup (map fst r).

(** The fields a vote depends on. *)
Definition same_vote (n n' : node) : Prop :=
  term n' = term n /\ name n' = name n /\ votes_for n' = votes_for n.

(** A method body that leaves them alone, in every run. *)
Definition stable {A} (m : M A) : Prop := forall n, same_vote n (st (m n)).

(** The vote of term [t] is taken: the node, named [own], is past term [t],
    or it is at term [t] with its vote given to [candidate] or, where
    [promote] cannot leave the term ([t + 1] is [t]), to itself. *)
Definition voted_in (t : Z) (candidate own : string) (n : node) : Prop :=
  name n = own /\ t <= term n /\
  (term n = t ->
   votes_for n = Some candidate \/
   (plus_one t = t /\ votes_for n = Some own)).

(** The node named [own] is past term [t]. *)
Definition past (t : Z) (own : string) (n : node) : Prop :=
  name n = own /\ t < term n.

(** A method body that keeps the vote of term [t] taken. *)
Definition keeps (t : Z) (candidate own : string) {A} (m : M A) : Prop :=
  forall n, voted_in t candidate own n -> voted_in t candidate own (st (m n)).

(** A method body that hands no vote reply to [write], and one that hands
    over one at most. *)
Definition quiet {A} (m : M A) : Prop :=
  forall n, replies (evs (m n)) = [].

Definition terse {A} (m : M A) : Prop :=
  forall n, (List.length (replies (evs (m n))) <= 1)%nat.

(** A stream whose every number is the double just below 1. *)
Definition almost_one : nat -> Q :=
  fun _ => (4503599627370495 # 4503599627370496)%Q.

(* ================================================================== *)
(** ** Reasoning about method bodies                                   *)
(* ================================================================== *)

Ltac break_match :=
  match goal with
  | |- context [match ?x with _ => _ end] => destruct x eqn:?
  end.

Lemma plus_one_ge t : t <= plus_one t.
Proof. apply Z.le_max_l. Qed.

(** Below [2 ^ 53] the sum is exact. *)
Lemma plus_one_safe t : - 2 ^ 53 <= t < 2 ^ 53 -> plus_one t = t + 1.
Proof.
  intros H. unfold plus_one, nearest_double.
  destruct (Z.leb_spec (Z.abs (t + 1)) (2 ^ 53)); lia.
Qed.

(** The unit in the last place of a magnitude above [2 ^ 53]. *)
Lemma ulp_ge_2 a : 2 ^ 53 < a -> 2 <= 2 ^ (Z.log2 a - 52).
Proof.
  intros H.
  assert (53 <= Z.log2 a) by (apply Z.log2_le_pow2; lia).
  change 2 with (2 ^ 1) at 1. apply Z.pow_le_mono_r; lia.
Qed.

(** Rounding a magnitude above [2 ^ 53]: the multiple of the unit below it
    or the one above. *)
Lemma nearest_double_large a :
  2 ^ 53 < a ->
  let ulp := 2 ^ (Z.log2 a - 52) in
  exists q', nearest_double a = q' * ulp /\
             a - a mod ulp <= q' * ulp <= a - a mod ulp + ulp /\
             (a mod ulp = 0 -> q' * ulp = a).
Proof.
  intros H ulp. pose proof (@ulp_ge_2 _ H) as Hu. fold ulp in Hu.
  unfold nearest_double. rewrite Z.abs_eq by lia.
  destruct (Z.leb_spec a (2 ^ 53)); [lia|].
  rewrite Z.sgn_pos by lia. rewrite Z.mul_1_l. fold ulp.
  pose proof (Z.div_mod a ulp ltac:(lia)) as D.
  pose proof (Z.mod_pos_bound a ulp ltac:(lia)) as B.
  set (q := a / ulp) in *. set (r := a mod ulp) in *.
  eexists. split; [reflexivity|].
  destruct (Z.ltb_spec (2 * r) ulp); [split; nia|].
  destruct (Z.ltb_spec ulp (2 * r)); [split; nia|].
  destruct (Z.even q); split; nia.
Qed.

Lemma nearest_double_opp x : nearest_double (- x) = - nearest_double x.
Proof.
  unfold nearest_double. rewrite Z.abs_opp, Z.sgn_opp.
  destruct (Z.abs x <=? 2 ^ 53); lia.
Qed.

(** A double above [2 ^ 53] is a multiple of its unit in the last place. *)
Lemma double_multiple a :
  2 ^ 53 < a -> nearest_double a = a -> a mod 2 ^ (Z.log2 a - 52) = 0.
Proof.
  intros H E. destruct (@nearest_double_large _ H) as (q' & E' & _ & _).
  rewrite E in E'. rewrite E' at 1. apply Z.mod_mul.
  pose proof (@ulp_ge_2 _ H). lia.
Qed.

(** The unit of [a + 1] divides [a] or [a + 1], when [a] is a double. *)
Lemma succ_multiple a :
  2 ^ 53 < a -> nearest_double a = a ->
  let ulp := 2 ^ (Z.log2 (a + 1) - 52) in
  a mod ulp = 0 \/ (a + 1) mod ulp = 0.
Proof.
  intros H E ulp. unfold ulp.
  destruct (Z.log2_succ_or a) as [S | S]; rewrite <- Z.add_1_r in S.
  - right. destruct (@Z.log2_eq_succ_is_pow2 a S) as (b & Hb).
    rewrite <- Z.add_1_r in Hb.
    assert (53 <= Z.log2 (a + 1)) by (apply Z.log2_le_pow2; lia).
    assert (Eb : Z.log2 (a + 1) = b).
    { rewrite Hb. apply Z.log2_pow2.
      destruct (Z.neg_nonneg_cases b) as [N|]; [|assumption].
      rewrite Z.pow_neg_r in Hb by assumption. lia. }
    rewrite Eb, Hb.
    replace b with ((b - 52) + 52) at 1 by lia.
    rewrite Z.pow_add_r by lia. rewrite Z.mul_comm. apply Z.mod_mul.
    apply Z.pow_nonzero; lia.
  - left. rewrite S. now apply double_multiple.
Qed.

(** On a double, [t + 1] rounded is never below [t]. *)
Lemma nearest_double_succ_ge t :
  nearest_double t = t -> t <= nearest_double (t + 1).
Proof.
  intros E.
  destruct (Z.le_gt_cases (Z.abs (t + 1)) (2 ^ 53)) as [Hs | Hl].
  { unfold nearest_double. apply Z.leb_le in Hs. rewrite Hs. lia. }
  destruct (Z.le_gt_cases 0 t) as [Hp | Hn].
  - (* t + 1 above 2 ^ 53 *)
    destruct (Z.eq_dec t (2 ^ 53)) as [-> | Hne].
    { vm_compute. discriminate. }
    assert (H : 2 ^ 53 < t + 1) by lia.
    destruct (@nearest_double_large _ H) as (q' & -> & B & Z0).
    pose proof (@ulp_ge_2 _ H) as Hu.
    assert (Ht : 2 ^ 53 < t) by lia.
    destruct (@succ_multiple _ Ht E) as [M | M].
    + assert (R : (t + 1) mod 2 ^ (Z.log2 (t + 1) - 52) = 1).
      { pose proof (Z.div_mod t (2 ^ (Z.log2 (t + 1) - 52)) ltac:(lia)) as D.
        rewrite M, Z.add_0_r in D.
        symmetry. apply (Z.mod_unique _ _ (t / 2 ^ (Z.log2 (t + 1) - 52)));
          [left; lia | lia]. }
      rewrite R in B. lia.
    + rewrite (Z0 M). lia.
  - (* t + 1 below - 2 ^ 53 *)
    assert (H : 2 ^ 53 < - (t + 1)) by lia.
    replace (t + 1) with (- (- (t + 1))) by lia.
    rewrite nearest_double_opp.
    destruct (@nearest_double_large _ H) as (q' & -> & B & Z0).
    pose proof (@ulp_ge_2 _ H) as Hu.
    set (a := - (t + 1)) in *.
    assert (Ea : nearest_double (a + 1) = a + 1).
    { replace (a + 1) with (- t) by (unfold a; lia).
      rewrite nearest_double_opp. lia. }
    assert (M : (a + 1) mod 2 ^ (Z.log2 a - 52) = 0).
    { destruct (Z.log2_succ_or a) as [S | S]; rewrite <- Z.add_1_r in S.
      - destruct (@Z.log2_eq_succ_is_pow2 a S) as (b & Hb).
        rewrite <- Z.add_1_r in Hb.
        assert (53 <= Z.log2 a) by (apply Z.log2_le_pow2; lia).
        assert (Eb : Z.log2 (a + 1) = b).
        { rewrite Hb. apply Z.log2_pow2.
          destruct (Z.neg_nonneg_cases b) as [N|]; [|assumption].
          rewrite Z.pow_neg_r in Hb by assumption. lia. }
        rewrite Hb.
        replace b with ((b - (Z.log2 a - 52)) + (Z.log2 a - 52)) at 1 by lia.
        rewrite Z.pow_add_r by lia. apply Z.mod_mul.
        apply Z.pow_nonzero; lia.
      - rewrite <- S. apply double_multiple; [lia | exact Ea]. }
    assert (R : a mod 2 ^ (Z.log2 a - 52) = 2 ^ (Z.log2 a - 52) - 1).
    { pose proof (Z.div_mod (a + 1) (2 ^ (Z.log2 a - 52)) ltac:(lia)) as D.
      rewrite M, Z.add_0_r in D.
      symmetry. apply (Z.mod_unique _ _ ((a + 1) / 2 ^ (Z.log2 a - 52) - 1));
        [left; lia | nia]. }
    rewrite R in B. unfold a in *. lia.
Qed.

(** So on a double [plus_one] is the rounded sum. *)
Lemma plus_one_double t :
  nearest_double t = t -> plus_one t = nearest_double (t + 1).
Proof.
  intros E. unfold plus_one. apply Z.max_r. now apply nearest_double_succ_ge.
Qed.

Lemma same_core_evolves b n n' : same_core n n' -> evolves b n n'.
Proof.
  intros (Ht & Hn & Hl). unfold evolves. rewrite Ht, Hn, Hl.
  repeat split; try lia. now left.
Qed.

Lemma evolves_refl b n : evolves b n n.
Proof. apply same_core_evolves. now repeat split. Qed.

Lemma evolves_trans b n1 n2 n3 :
  evolves b n1 n2 -> evolves b n2 n3 -> evolves b n1 n3.
Proof.
  intros (Ht & Hn & Hl) (Ht' & Hn' & Hl'). unfold evolves.
  rewrite Hn in *. split; [lia|]. split; [congruence|].
  destruct Hl' as [E | [E | E]].
  - rewrite E. exact Hl.
  - right. left. exact E.
  - right. right. exact E.
Qed.

Lemma evolves_promote n n' : evolves false n n' -> evolves true n n'.
Proof.
  intros (Ht & Hn & [E | [E | [E _]]]); unfold evolves; try discriminate;
    repeat split; auto.
Qed.

Lemma evolves_bind b {A B} (m : M A) (f : A -> M B) n :
  evolves b n (st (m n)) ->
  (forall a, evolves b (st (m n)) (st (f a (st (m n))))) ->
  evolves b n (st (bind m f n)).
Proof.
  intros Hm Hf. unfold bind. destruct (res (m n)) as [a | e]; simpl.
  - eapply evolves_trans; [exact Hm | apply Hf].
  - exact Hm.
Qed.

Lemma respects_bind b {A B} (m : M A) (f : A -> M B) :
  respects b m -> (forall a, respects b (f a)) -> respects b (bind m f).
Proof. intros Hm Hf n. apply evolves_bind; [apply Hm | intros a; apply Hf]. Qed.

Lemma respects_ret b {A} (a : A) : respects b (ret a).
Proof. intros n. apply evolves_refl. Qed.

Lemma respects_throw b {A} e : respects b (@throw A e).
Proof. intros n. apply evolves_refl. Qed.

Lemma respects_tell b e : respects b (tell e).
Proof. intros n. apply evolves_refl. Qed.

Lemma respects_modify b f :
  (forall n, same_core n (f n)) -> respects b (modify f).
Proof. intros H n. apply same_core_evolves, H. Qed.

Lemma respects_promote {A} (m : M A) b : respects false m -> respects b m.
Proof.
  intros H n. destruct b; [apply evolves_promote|]; apply H.
Qed.

Create HintDb raft.
#[local] Hint Resolve respects_ret respects_throw respects_tell : raft.
#[local] Hint Extern 1 (evolves _ _ _) => apply evolves_refl : raft.

Ltac same_core := intros; unfold same_core; simpl; auto.

Lemma respects_timeout b w : respects b (timeout w).
Proof.
  intros n. apply same_core_evolves. unfold timeout, bind, Math_random; simpl.
  destruct w; simpl; now repeat split.
Qed.

Lemma respects_timers_setTimeout b name f d :
  respects b (timers_setTimeout name f d).
Proof.
  intros n. unfold timers_setTimeout. repeat break_match;
    apply same_core_evolves; same_core.
Qed.

Lemma respects_heartbeat b d : respects b (heartbeat d).
Proof.
  unfold heartbeat. apply respects_bind.
  - repeat break_match; auto using respects_timeout with raft.
  - intros x n. repeat break_match; auto with raft.
    + apply same_core_evolves; same_core.
    + apply respects_timers_setTimeout.
Qed.

Lemma respects_on_term_change b : respects b on_term_change.
Proof.
  unfold on_term_change. apply respects_bind; [|intros _];
    apply respects_modify; same_core.
Qed.

Lemma respects_on_state_change b : respects b on_state_change.
Proof.
  unfold on_state_change. apply respects_bind.
  - intros n. break_match; auto with raft. apply same_core_evolves; same_core.
  - intros _. apply respects_heartbeat.
Qed.

Lemma respects_emit b e : respects b (emit e).
Proof.
  unfold emit. apply respects_bind; auto with raft. intros _ n.
  destruct (listening n); auto with raft.
  destruct e; auto with raft;
    apply respects_bind; auto using respects_on_term_change,
      respects_on_state_change with raft.
Qed.

Lemma respects_write b w : respects b (write w).
Proof. unfold write. apply respects_bind; auto with raft. Qed.

Lemma respects_this_write b w : respects b (this_write w).
Proof.
  intros n. unfold this_write. break_match; auto with raft.
Qed.

Lemma respects_broadcast b type data : respects b (broadcast type data).
Proof. intros n. apply evolves_refl. Qed.

(** [change] writes a term only through its argument and a leader only
    through its argument. *)
Lemma change_key_term_evolves b c n :
  (forall t, c_term c = Some t -> term n <= t) ->
  evolves b n (st (change_key c k_term n)).
Proof.
  intros H. unfold change_key. destruct (c_term c) as [t|]; auto with raft.
  specialize (H t eq_refl). break_match; auto with raft.
  apply evolves_bind.
  - unfold evolves; simpl. repeat split; auto.
  - intros _. apply evolves_bind; auto with raft. apply respects_emit.
Qed.

Lemma change_key_leader_evolves b c n :
  (forall l, c_leader c = Some l -> l = name n \/ (b = true /\ l = EmptyString)) ->
  evolves b n (st (change_key c k_leader n)).
Proof.
  intros H. unfold change_key. destruct (c_leader c) as [l|]; auto with raft.
  specialize (H l eq_refl). break_match; auto with raft.
  apply evolves_bind.
  - unfold evolves; simpl. repeat split; try lia.
    destruct H as [-> | [-> ->]]; auto.
  - intros _. apply evolves_bind; auto with raft. apply respects_emit.
Qed.

Lemma change_key_state_evolves b c n :
  evolves b n (st (change_key c k_state n)).
Proof.
  unfold change_key. destruct (c_state c) as [s|]; auto with raft.
  break_match; auto with raft.
  apply evolves_bind.
  - apply same_core_evolves; same_core.
  - intros _. apply evolves_bind; auto with raft. apply respects_emit.
Qed.

Lemma change_evolves b c n :
  (forall t, c_term c = Some t -> term n <= t) ->
  (forall l, c_leader c = Some l -> l = name n \/ (b = true /\ l = EmptyString)) ->
  evolves b n (st (change (Some c) n)).
Proof.
  intros Ht Hl. unfold change, changes, for_each.
  pose proof (change_key_term_evolves b c n Ht) as H1.
  apply evolves_bind; [exact H1|]. intros _.
  destruct H1 as (_ & Hname & _).
  apply evolves_bind.
  - apply change_key_leader_evolves. rewrite Hname. exact Hl.
  - intros _. apply evolves_bind; auto with raft.
    apply change_key_state_evolves.
Qed.

Lemma gt_spec a b : js_gt a b = true -> exists t, a = Some t /\ b < t.
Proof.
  destruct a as [t|]; simpl; [|discriminate].
  intros H. exists t. split; [reflexivity | now apply Z.ltb_lt].
Qed.

Lemma lt_spec a b : js_lt a b = true -> exists t, a = Some t /\ t < b.
Proof.
  destruct a as [t|]; simpl; [|discriminate].
  intros H. exists t. split; [reflexivity | now apply Z.ltb_lt].
Qed.

(** A [change] to the packet's term under the guard [data.term > this.term]. *)
Lemma change_term_guarded b data s n :
  js_gt (p_term data) (term n) = true ->
  evolves b n
    (st (change (Some {| c_term := p_term data; c_leader := None;
                         c_state := s |}) n)).
Proof.
  intros G. apply gt_spec in G as (t & E & Hlt).
  apply change_evolves; simpl.
  - intros t' E'. rewrite E in E'. injection E' as <-. lia.
  - discriminate.
Qed.

Lemma respects_promote_method : respects true promote.
Proof.
  unfold promote. intros n. apply evolves_bind.
  - apply change_evolves; simpl.
    + intros t [= <-]. apply plus_one_ge.
    + intros l [= <-]. right. split; reflexivity.
  - intros _. apply respects_bind.
    { intros m. apply same_core_evolves; same_core. }
    intros _. apply respects_bind.
    { apply respects_modify; same_core. }
    intros _ m. break_match; auto with raft.
    apply respects_bind; [apply respects_timeout|].
    intros d. apply respects_timers_setTimeout.
Qed.

Lemma respects_incoming_vote data : respects false (incoming_vote data).
Proof.
  assert (Hrefuse : respects false
            (emit (vote data false) ;; this_write (w_vote false) ;; ret tt)).
  { apply respects_bind; [apply respects_emit|]. intros _.
    apply respects_bind; [apply respects_this_write|]. auto with raft. }
  assert (Hgrant : respects false
            (modify (set_votes_for (p_name data)) ;;
             emit (vote data true) ;; this_write (w_vote true) ;; ret tt)).
  { apply respects_bind; [apply respects_modify; same_core|]. intros _.
    apply respects_bind; [apply respects_emit|]. intros _.
    apply respects_bind; [apply respects_this_write|]. auto with raft. }
  intros n. unfold incoming_vote.
  destruct (js_lt (p_term data) (term n)); [apply Hrefuse|].
  destruct (js_gt (p_term data) (term n)) eqn:G.
  - apply evolves_bind; [now apply change_term_guarded|].
    intros _. apply Hgrant.
  - break_match; [apply Hrefuse | apply Hgrant].
Qed.

Lemma respects_quorum b : respects b quorum.
Proof. intros n. unfold quorum. break_match; auto with raft. Qed.

Lemma respects_incoming_voted data : respects false (incoming_voted data).
Proof.
  intros n. unfold incoming_voted. break_match; auto with raft.
  apply respects_bind.
  { intros m. repeat break_match; auto with raft.
    apply same_core_evolves; same_core. }
  intros _. apply respects_bind.
  { intros m. break_match; auto with raft. now apply change_term_guarded. }
  intros _. apply respects_bind; [apply respects_quorum|].
  intros q m. break_match; auto with raft.
  apply change_evolves; simpl; [discriminate|].
  intros l [= <-]. now left.
Qed.

Lemma respects_recognize_leader data : respects false (recognize_leader data).
Proof.
  intros n. unfold recognize_leader. break_match; auto with raft.
  apply change_evolves; simpl; discriminate.
Qed.

Lemma respects_dispatch data : respects false (dispatch data).
Proof.
  unfold dispatch.
  repeat break_match; auto using respects_heartbeat,
    respects_incoming_vote, respects_incoming_voted with raft.
Qed.

Lemma respects_incoming data : respects false (incoming data).
Proof.
  unfold incoming. break_match; auto with raft.
  destruct data as [| | | | |p]; auto with raft.
  assert (Hrest : respects false (recognize_leader p ;; dispatch p)).
  { apply respects_bind; [apply respects_recognize_leader|].
    intros _. apply respects_dispatch. }
  intros n. destruct (js_gt (p_term p) (term n)) eqn:G.
  - apply evolves_bind; [now apply change_term_guarded|].
    intros _. apply Hrest.
  - break_match; [auto with raft | apply Hrest].
Qed.

Lemma respects_read packet : respects false (read packet).
Proof.
  intros n. unfold read. break_match; auto with raft.
  apply respects_bind; [apply respects_incoming | auto with raft].
Qed.

Lemma respects_call_read packet : respects false (call_read packet).
Proof.
  intros n. unfold call_read. break_match; auto with raft.
  apply respects_read.
Qed.

Lemma respects_call_write packet : respects false (call_write packet).
Proof.
  intros n. unfold call_write. break_match; auto with raft.
Qed.

Lemma respects_end : respects false end_.
Proof.
  intros n. unfold end_. break_match; auto with raft.
  apply respects_bind.
  { intros m. break_match; auto with raft. apply same_core_evolves; same_core. }
  intros _. apply respects_bind; [apply respects_modify; same_core|].
  intros _. apply respects_bind; [apply respects_modify; same_core|].
  auto with raft.
Qed.

Lemma respects_expire name : respects true (expire name).
Proof.
  intros n. unfold expire.
  destruct (timers n) as [r|]; auto with raft.
  destruct (Tick.find name r) as [x|]; auto with raft.
  apply respects_bind; [apply respects_modify; same_core|].
  intros _. destruct (Tick.fn x); simpl.
  - intros m. unfold on_heartbeat_expired. break_match.
    + apply respects_bind; [apply respects_emit|].
      intros _. apply respects_promote_method.
    + apply respects_broadcast.
  - apply respects_promote_method.
Qed.

Lemma respects_step i : respects true (step i).
Proof.
  destruct i; simpl; unfold forget.
  - apply respects_bind; auto with raft.
    apply respects_promote, respects_call_read.
  - apply respects_bind; auto with raft.
    apply respects_promote, respects_call_write.
  - apply respects_expire.
  - apply respects_promote_method.
  - apply respects_heartbeat.
  - apply respects_bind; auto with raft.
    apply respects_promote, respects_end.
Qed.

Lemma after_evolves l : forall n, evolves true n (after l n).
Proof.
  induction l as [|i l IH]; intros n; simpl.
  - apply evolves_refl.
  - eapply evolves_trans; [apply respects_step | apply IH].
Qed.

(** *** Exact runs on a live node *)

Lemma bind_run {A B} (m : M A) (f : A -> M B) n a n1 e1 :
  m n = Run (Return a) n1 e1 ->
  bind m f n = Run (res (f a n1)) (st (f a n1)) (e1 ++ evs (f a n1)).
Proof. intros H. unfold bind. rewrite H. reflexivity. Qed.

Lemma bind_raise {A B} (m : M A) (f : A -> M B) n e n1 e1 :
  m n = Run (Raise e) n1 e1 -> bind m f n = Run (Raise e) n1 e1.
Proof. intros H. unfold bind. rewrite H. reflexivity. Qed.

Lemma modify_run f n : modify f n = Run (Return tt) (f n) [].
Proof. reflexivity. Qed.

Lemma run_eta {A} (r : run A) : r = Run (res r) (st r) (evs r).
Proof. destruct r; reflexivity. Qed.

Lemma emit_term_change_run a b n :
  listening n = true ->
  emit (term_change a b) n =
    Run (Return true) (reset_votes n) [term_change a b].
Proof.
  intros H. unfold emit, bind, tell; simpl. rewrite H. reflexivity.
Qed.

Lemma emit_state_change_run a b n r :
  listening n = true -> timers n = Some r ->
  emit (state_change a b) n =
    Run (Return true) (rearmed n) [state_change a b].
Proof.
  intros H Ht. unfold emit, bind, tell; simpl. rewrite H.
  unfold on_state_change, bind. rewrite Ht. reflexivity.
Qed.

Lemma emit_other_run e n :
  match e with term_change _ _ | state_change _ _ => False | _ => True end ->
  emit e n = Run (Return false) n [e].
Proof.
  intros H. unfold emit, bind, tell; simpl.
  destruct (listening n), e; try contradiction; reflexivity.
Qed.

Lemma change_key_term_run c n :
  listening n = true ->
  change_key c k_term n =
    if term_differs c n
    then Run (Return tt)
           (reset_votes (set_term (or_else (c_term c) (term n)) n))
           [term_change (or_else (c_term c) (term n)) (term n)]
    else Run (Return tt) n [].
Proof.
  intros H. unfold change_key, term_differs.
  destruct (c_term c) as [t|]; [|reflexivity].
  destruct (negb (t =? term n)); [|reflexivity].
  erewrite bind_run by apply modify_run.
  erewrite bind_run by (apply emit_term_change_run; exact H).
  reflexivity.
Qed.

Lemma change_key_leader_run c n :
  change_key c k_leader n =
    if leader_differs c n
    then Run (Return tt) (set_leader (c_leader c) n)
           [leader_change (c_leader c) (leader n)]
    else Run (Return tt) n [].
Proof.
  unfold change_key, leader_differs.
  destruct (c_leader c) as [l|]; [|reflexivity].
  destruct (negb (same_name (Some l) (leader n))); [|reflexivity].
  erewrite bind_run by apply modify_run.
  erewrite bind_run by (apply emit_other_run; exact I).
  reflexivity.
Qed.

Lemma change_key_state_run c n r :
  listening n = true -> timers n = Some r ->
  change_key c k_state n =
    if state_differs c n
    then Run (Return tt) (rearmed (set_state (c_state c) n))
           [state_change (c_state c) (state n)]
    else Run (Return tt) n [].
Proof.
  intros H Ht. unfold change_key, state_differs.
  destruct (c_state c) as [s|]; [|reflexivity].
  destruct (negb (strict_role (Some s) (state n))); [|reflexivity].
  erewrite bind_run by apply modify_run.
  erewrite bind_run by (eapply emit_state_change_run; simpl; eauto).
  reflexivity.
Qed.

Lemma role_eqb_eq a b : role_eqb a b = true <-> a = b.
Proof.
  unfold role_eqb. rewrite Z.eqb_eq.
  split; [|now intros ->]. destruct a, b; simpl; intros H; congruence.
Qed.

Lemma leader_same c n :
  leader_differs c n = false -> or_keep (c_leader c) (leader n) = leader n.
Proof.
  unfold leader_differs, or_keep. destruct (c_leader c) as [l|]; [|reflexivity].
  intros H. apply negb_false_iff in H.
  destruct (leader n) as [x|]; simpl in H; [|discriminate].
  apply String.eqb_eq in H. now subst.
Qed.

Lemma leader_other c n :
  leader_differs c n = true -> or_keep (c_leader c) (leader n) = c_leader c.
Proof.
  unfold leader_differs, or_keep. destruct (c_leader c); [reflexivity|discriminate].
Qed.

Lemma state_same c n :
  state_differs c n = false -> or_keep (c_state c) (state n) = state n.
Proof.
  unfold state_differs, or_keep. destruct (c_state c) as [s|]; [|reflexivity].
  intros H. apply negb_false_iff in H.
  destruct (state n) as [x|]; simpl in H; [|discriminate].
  apply role_eqb_eq in H. now subst.
Qed.

Lemma state_other c n :
  state_differs c n = true -> or_keep (c_state c) (state n) = c_state c.
Proof.
  unfold state_differs, or_keep. destruct (c_state c); [reflexivity|discriminate].
Qed.

Lemma term_same c n :
  term_differs c n = false -> or_else (c_term c) (term n) = term n.
Proof.
  unfold term_differs, or_else. destruct (c_term c) as [t|]; [|reflexivity].
  intros H. apply negb_false_iff, Z.eqb_eq in H. exact H.
Qed.

(** The whole of [change] on a live node: it returns, the node stays live,
    and each of the three fields is written, with its event and the
    reaction of its listener, exactly when the argument carries a different
    value for it. *)
Lemma change_live c n :
  live n ->
  let r := change (Some c) n in
  res r = Return tt /\ live (st r) /\
  name (st r) = name n /\ nodes (st r) = nodes n /\
  term (st r) = or_else (c_term c) (term n) /\
  leader (st r) = or_keep (c_leader c) (leader n) /\
  state (st r) = or_keep (c_state c) (state n) /\
  votes_for (st r) = (if term_differs c n then None else votes_for n) /\
  votes_granted (st r) = (if term_differs c n then 0 else votes_granted n) /\
  timers (st r) =
    (if state_differs c n then Some heartbeat_only else timers n) /\
  evs r =
    (if term_differs c n
     then [term_change (or_else (c_term c) (term n)) (term n)] else []) ++
    (if leader_differs c n
     then [leader_change (c_leader c) (leader n)] else []) ++
    (if state_differs c n then [state_change (c_state c) (state n)] else []).
Proof.
  intros (Hl & (r0 & Ht) & Hw & Hr). simpl.
  unfold change, changes, for_each.
  pose proof (@change_key_term_run c n Hl) as E1.
  pose proof (@term_same c n) as Hsame.
  unfold live.
  destruct (term_differs c n) eqn:D1;
    (erewrite bind_run by exact E1); clear E1;
    match goal with |- context [bind (change_key c k_leader) _ ?m] =>
      pose proof (change_key_leader_run c m) as E2;
      change (leader_differs c m) with (leader_differs c n) in E2
    end;
    (destruct (leader_differs c n) eqn:D2;
      (erewrite bind_run by exact E2); clear E2;
      match goal with |- context [bind (change_key c k_state) _ ?m] =>
        pose proof (@change_key_state_run c m r0 Hl Ht) as E3;
        change (state_differs c m) with (state_differs c n) in E3
      end;
      (destruct (state_differs c n) eqn:D3;
        (erewrite bind_run by exact E3); clear E3;
        simpl; repeat split; eauto;
        first [ symmetry; apply Hsame; reflexivity
              | symmetry; now apply leader_same
              | symmetry; now apply leader_other
              | symmetry; now apply state_same
              | symmetry; now apply state_other ])).
Qed.

Lemma bind_res {A B} (m : M A) (f : A -> M B) n a :
  res (m n) = Return a ->
  bind m f n =
    Run (res (f a (st (m n)))) (st (f a (st (m n))))
        (evs (m n) ++ evs (f a (st (m n)))).
Proof. intros H. unfold bind. rewrite H. reflexivity. Qed.

Lemma timeout_run w n :
  exists d, timeout w n = Run (Return d) (set_drawn (S (drawn n)) n) [].
Proof.
  unfold timeout. erewrite bind_run by reflexivity.
  destruct w; simpl; eexists; reflexivity.
Qed.

Lemma replies_app l1 l2 : replies (l1 ++ l2) = replies l1 ++ replies l2.
Proof. unfold replies. apply flat_map_app. Qed.

Lemma change_replies c n : live n -> replies (evs (change (Some c) n)) = [].
Proof.
  intros H. destruct (change_live c H) as (_ & _ & _ & _ & _ & _ & _ & _ & _ & _ & E).
  rewrite E. repeat break_match; reflexivity.
Qed.

(** [promote] on a live node: the node is a candidate at the next term with
    its own vote whether or not the election timer could be set; setting it
    raises when a timer of that name is still pending. *)
Lemma promote_effect n r :
  live n -> timers n = Some r ->
  let tq := if strict_role (Some CANDIDATE) (state n) then r
            else heartbeat_only in
  let run := promote n in
  live (st run) /\
  term (st run) = plus_one (term n) /\ state (st run) = Some CANDIDATE /\
  leader (st run) = Some EmptyString /\
  votes_for (st run) = Some (name n) /\ votes_granted (st run) = 1 /\
  name (st run) = name n /\ nodes (st run) = nodes n /\
  evs run = promote_events n /\
  (if Tick.active "election" tq
   then res run = Raise (TimerError "election") /\ timers (st run) = Some tq
   else res run = Return tt /\
        exists d,
          timers (st run) =
            Some (tq ++ [("election", Tick.Timer promote_fn d)])).
Proof.
  intros Hlive Htn. cbv zeta. unfold promote.
  pose (c := {| c_term := Some (plus_one (term n));
                c_leader := Some EmptyString;
                c_state := Some CANDIDATE |}).
  destruct (change_live c Hlive)
    as (R & L & Hn & Hno & Ht & Hl & Hst & _ & _ & Hti & He).
  assert (D1 : term_differs c n = negb (plus_one (term n) =? term n))
    by reflexivity.
  assert (D3 : state_differs c n
               = negb (strict_role (Some CANDIDATE) (state n))) by reflexivity.
  assert (D2 : leader_differs c n
               = negb (same_name (Some EmptyString) (leader n)))
    by reflexivity.
  rewrite D1, D2, D3 in He. rewrite D3 in Hti.
  assert (Hti' : timers (st (change (Some c) n)) =
                 Some (if strict_role (Some CANDIDATE) (state n) then r
                       else heartbeat_only)).
  { rewrite Hti. destruct (strict_role (Some CANDIDATE) (state n));
      [exact Htn | reflexivity]. }
  assert (He' : evs (change (Some c) n) = promote_events n).
  { rewrite He. unfold promote_events, c. cbn [c_term c_leader c_state or_else].
    destruct (plus_one (term n) =? term n),
             (same_name (Some EmptyString) (leader n)),
             (strict_role (Some CANDIDATE) (state n)); reflexivity. }
  clear Hti He D1 D2 D3. subst c.
  cbn [or_else or_keep c_term c_leader c_state] in Ht, Hl, Hst.
  erewrite bind_res by exact R. cbv beta.
  set (n1 := st (change _ n)) in *. rewrite He'. clearbody n1.
  erewrite bind_run by reflexivity.
  erewrite bind_run by apply modify_run.
  cbv beta. cbn [timers set_votes_granted set_votes_for]. rewrite Hti'.
  match goal with |- context [bind (timeout key_election) _ ?m] =>
    destruct (timeout_run key_election m) as (d & Hd)
  end.
  erewrite bind_run by exact Hd.
  unfold timers_setTimeout, Tick.setTimeout.
  cbn [timers set_votes_granted set_votes_for set_drawn]. rewrite Hti'.
  destruct L as (L1 & _ & L3 & L4).
  destruct (Tick.active "election" _);
    unfold live; simpl; rewrite Hn, !app_nil_r; repeat split; eauto.
Qed.

(** [promote] on a live node, as long as no election timer is pending when
    it sets one. *)
Lemma promote_spec n r :
  live n -> timers n = Some r ->
  let tq := if strict_role (Some CANDIDATE) (state n) then r
            else heartbeat_only in
  Tick.active "election" tq = false ->
  let run := promote n in
  res run = Return tt /\ live (st run) /\
  term (st run) = plus_one (term n) /\ state (st run) = Some CANDIDATE /\
  leader (st run) = Some EmptyString /\
  votes_for (st run) = Some (name n) /\ votes_granted (st run) = 1 /\
  name (st run) = name n /\ nodes (st run) = nodes n /\
  (exists d,
     timers (st run) = Some (tq ++ [("election", Tick.Timer promote_fn d)])) /\
  evs run = promote_events n.
Proof.
  intros Hlive Htn. cbv zeta. intros Hact.
  destruct (promote_effect Hlive Htn)
    as (L & T & S & Le & Vf & Vg & Hn & Hno & Ev & Hres).
  rewrite Hact in Hres. destruct Hres as (R & Hti).
  repeat split; auto; apply L.
Qed.

(** [promote] on a live node that is not yet a candidate. *)
Lemma promote_live n :
  live n -> strict_role (Some CANDIDATE) (state n) = false ->
  let r := promote n in
  res r = Return tt /\ live (st r) /\
  term (st r) = plus_one (term n) /\ state (st r) = Some CANDIDATE /\
  leader (st r) = Some EmptyString /\
  votes_for (st r) = Some (name n) /\ votes_granted (st r) = 1 /\
  exists d,
    timers (st r) =
      Some (heartbeat_only ++ [("election", Tick.Timer promote_fn d)]).
Proof.
  intros Hlive Hs. cbv zeta.
  destruct Hlive as (Hl & (r & Ht) & Hw & Hr).
  assert (H : live n) by (repeat split; eauto).
  destruct (@promote_spec n r H Ht)
    as (R & L & T & S & Le & Vf & Vg & _ & _ & Hti & _).
  { rewrite Hs. reflexivity. }
  rewrite Hs in Hti. repeat split; auto; apply L.
Qed.

Lemma this_write_run w n :
  write_null n = false ->
  this_write w n = Run (Return false) n [write_call w].
Proof. intros H. unfold this_write. rewrite H. reflexivity. Qed.

(** Leader recognition on a live node: at most the role and the timers
    change, and nothing is replied. *)
Lemma recognize_leader_live p n :
  live n ->
  let r := recognize_leader p n in
  res r = Return tt /\ live (st r) /\
  name (st r) = name n /\ nodes (st r) = nodes n /\
  term (st r) = term n /\ leader (st r) = leader n /\
  votes_for (st r) = votes_for n /\ votes_granted (st r) = votes_granted n /\
  replies (evs r) = [] /\
  state (st r) =
    (if strict_role (Some LEADER) (p_state p)
        && negb (strict_role (Some FOLLOWER) (state n))
     then Some FOLLOWER else state n).
Proof.
  intros H. cbv zeta. unfold recognize_leader.
  destruct (strict_role (Some LEADER) (p_state p)
            && negb (strict_role (Some FOLLOWER) (state n))).
  - pose proof (change_replies
                  {| c_term := None; c_leader := None;
                     c_state := Some FOLLOWER |} H) as Hrep.
    destruct (change_live {| c_term := None; c_leader := None;
                             c_state := Some FOLLOWER |} H)
      as (R & L & Hn & Hno & Ht & Hl & Hst & Hvf & Hvg & _ & _).
    repeat split; auto; apply L.
  - simpl. repeat split; auto; apply H.
Qed.

Lemma incoming_vote_run p n :
  write_null n = false ->
  js_gt (p_term p) (term n) = false -> js_lt (p_term p) (term n) = false ->
  incoming_vote p n =
    if truthy (votes_for n) && negb (same_name (votes_for n) (p_name p))
    then Run (Return tt) n [vote p false; write_call (w_vote false)]
    else Run (Return tt) (set_votes_for (p_name p) n)
           [vote p true; write_call (w_vote true)].
Proof.
  intros Hw G L. unfold incoming_vote. rewrite G, L.
  destruct (truthy (votes_for n) && negb (same_name (votes_for n) (p_name p))).
  - erewrite bind_run by (apply emit_other_run; exact I).
    erewrite bind_run by (apply this_write_run; exact Hw).
    reflexivity.
  - erewrite bind_run by apply modify_run.
    erewrite bind_run by (apply emit_other_run; exact I).
    erewrite bind_run by (apply this_write_run; exact Hw).
    reflexivity.
Qed.

Lemma dispatch_vote p : p_type p = "vote" -> dispatch p = incoming_vote p.
Proof. intros H. unfold dispatch. rewrite H. reflexivity. Qed.

Lemma dispatch_voted p : p_type p = "voted" -> dispatch p = incoming_voted p.
Proof. intros H. unfold dispatch. rewrite H. reflexivity. Qed.

(** A vote solicitation whose term is the node's own, after rules A and B. *)
Lemma solicited_same_term p n :
  live n -> p_type p = "vote" ->
  js_gt (p_term p) (term n) = false -> js_lt (p_term p) (term n) = false ->
  let r := (recognize_leader p ;; dispatch p) n in
  res r = Return tt /\ live (st r) /\ term (st r) = term n /\
  if truthy (votes_for n) && negb (same_name (votes_for n) (p_name p))
  then replies (evs r) = [false] /\ votes_for (st r) = votes_for n
  else replies (evs r) = [true] /\ votes_for (st r) = p_name p.
Proof.
  intros H Hty G L. cbv zeta.
  destruct (recognize_leader_live p H)
    as (R & L1 & _ & _ & Ht & _ & Hvf & _ & Hrep & _).
  erewrite bind_res by exact R.
  set (n1 := st (recognize_leader p n)) in *.
  rewrite dispatch_vote by exact Hty.
  rewrite incoming_vote_run; try (rewrite Ht; assumption); [|apply L1].
  rewrite Hvf.
  destruct (truthy (votes_for n) && negb (same_name (votes_for n) (p_name p)));
    cbn [res st evs]; rewrite replies_app, Hrep;
    repeat split; auto; apply L1.
Qed.

Lemma incoming_object p n :
  incoming (Object p) n =
    if js_gt (p_term p) (term n) then
      (change (Some {| c_term := p_term p; c_leader := None;
                       c_state := Some FOLLOWER |}) ;;
       recognize_leader p ;; dispatch p) n
    else if js_lt (p_term p) (term n) then ret tt n
    else (recognize_leader p ;; dispatch p) n.
Proof. reflexivity. Qed.

Lemma bind_ret {A B} (m : M A) (b : B) n a :
  res (m n) = Return a ->
  (m ;; ret b) n = Run (Return b) (st (m n)) (evs (m n)).
Proof.
  intros H. erewrite bind_res by exact H. cbn. now rewrite app_nil_r.
Qed.

Lemma call_read_live v n :
  live n -> call_read v n = (incoming v ;; ret true) n.
Proof.
  intros (Hl & _ & _ & Hr). unfold call_read, read. now rewrite Hr, Hl.
Qed.

(** Rule A on a live node whose term is behind the packet's. *)
Lemma reconcile_live p n t :
  live n -> p_term p = Some t -> term n < t ->
  let r := change (Some {| c_term := p_term p; c_leader := None;
                           c_state := Some FOLLOWER |}) n in
  res r = Return tt /\ live (st r) /\ term (st r) = t /\
  name (st r) = name n /\ nodes (st r) = nodes n /\
  state (st r) = Some FOLLOWER /\ leader (st r) = leader n /\
  votes_for (st r) = None /\ votes_granted (st r) = 0 /\
  replies (evs r) = [] /\ In (term_change t (term n)) (evs r).
Proof.
  intros H Et Hlt. cbv zeta. rewrite Et.
  set (c := {| c_term := Some t; c_leader := None;
               c_state := Some FOLLOWER |}).
  pose proof (change_replies c H) as Hrep.
  destruct (change_live c H)
    as (R & L1 & Hn & Hno & Ht & Hle & Hst & Hvf & Hvg & _ & He).
  assert (D : term_differs c n = true).
  { unfold term_differs, c; cbn [c_term].
    apply negb_true_iff, Z.eqb_neq. lia. }
  rewrite D in Hvf, Hvg, He.
  repeat split; auto; try apply L1.
  rewrite He. left. reflexivity.
Qed.

(** [incoming] on a vote solicitation, live node. *)
Lemma incoming_solicitation p n :
  live n -> p_type p = "vote" ->
  let r := incoming (Object p) n in
  res r = Return tt /\ live (st r) /\
  if js_lt (p_term p) (term n) then st r = n /\ evs r = []
  else
    js_gt (p_term p) (term (st r)) = false /\
    js_lt (p_term p) (term (st r)) = false /\
    if negb (js_gt (p_term p) (term n)) && truthy (votes_for n)
       && negb (same_name (votes_for n) (p_name p))
    then replies (evs r) = [false] /\ votes_for (st r) = votes_for n
    else replies (evs r) = [true] /\ votes_for (st r) = p_name p.
Proof.
  intros H Hty. cbv zeta. rewrite incoming_object.
  destruct (js_gt (p_term p) (term n)) eqn:G.
  - destruct (gt_spec _ _ G) as (t & Et & Hlt).
    assert (L : js_lt (p_term p) (term n) = false).
    { rewrite Et. simpl. apply Z.ltb_ge. lia. }
    rewrite L.
    destruct (reconcile_live p H Et Hlt)
      as (R & L1 & Ht1 & _ & _ & _ & _ & Hvf & _ & Hrep & _).
    erewrite bind_res by exact R.
    set (n1 := st (change _ n)) in *.
    assert (G1 : js_gt (p_term p) (term n1) = false).
    { rewrite Et, Ht1. simpl. apply Z.ltb_irrefl. }
    assert (L1' : js_lt (p_term p) (term n1) = false).
    { rewrite Et, Ht1. simpl. apply Z.ltb_irrefl. }
    destruct (solicited_same_term p L1 Hty G1 L1') as (R2 & L2 & Ht2 & Hv).
    rewrite Hvf in Hv. cbn [truthy andb] in Hv. destruct Hv as (Hv1 & Hv2).
    cbn [res st evs negb andb]. rewrite Ht2, replies_app, Hrep, Hv1.
    repeat split; auto; apply L2.
  - destruct (js_lt (p_term p) (term n)) eqn:L.
    + cbn. repeat split; auto; apply H.
    + destruct (solicited_same_term p H Hty G L) as (R2 & L2 & Ht2 & Hv).
      cbn [negb andb]. rewrite Ht2.
      repeat split; auto; try apply L2.
Qed.

(** [Math.ceil(x / 2)] on an integer [x]. *)
Lemma ceil_half z : Qceiling (inject_Z z / 2)%Q = (z + 1) / 2.
Proof.
  unfold Qceiling, Qfloor, Qdiv, Qmult, Qopp, Qinv, inject_Z; simpl.
  change (Z.neg 2) with (- (2)). change (Z.pos 2) with 2.
  rewrite Z.mul_1_r.
  Z.to_euclidean_division_equations. lia.
Qed.

Lemma quorum_run n l :
  nodes n = Some l ->
  quorum n = Run (Return ((Z.of_nat (List.length l) + 1) / 2 + 1)) n [].
Proof.
  intros H. unfold quorum. rewrite H. unfold ret. now rewrite ceil_half.
Qed.

Lemma recognize_leader_skip p n :
  strict_role (Some LEADER) (p_state p) = false ->
  recognize_leader p n = Run (Return tt) n [].
Proof. intros H. unfold recognize_leader. now rewrite H. Qed.

(** The tally of a vote on a live candidate, for a reply carrying the
    candidate's own term. *)
Lemma incoming_voted_live p n l g :
  live n -> state n = Some CANDIDATE -> nodes n = Some l ->
  p_payload p = Some g -> p_term p = Some (term n) ->
  let tally := votes_granted n + (if g then 1 else 0) in
  let q := (Z.of_nat (List.length l) + 1) / 2 + 1 in
  let r := incoming_voted p n in
  res r = Return tt /\ live (st r) /\
  votes_granted (st r) = tally /\ term (st r) = term n /\
  (if q <=? tally
   then state (st r) = Some LEADER /\ leader (st r) = Some (name n)
   else state (st r) = Some CANDIDATE /\ leader (st r) = leader n).
Proof.
  intros H Hs Hn Hp Ht. cbv zeta. unfold incoming_voted.
  rewrite Hs, Hp, Ht.
  change (negb (strict_role (Some CANDIDATE) (Some CANDIDATE))) with false.
  cbv iota.
  set (n1 := if g then set_votes_granted (votes_granted n + 1) n else n).
  assert (H1 : live n1) by (unfold n1; destruct g; exact H).
  assert (Hg : votes_granted n1 = votes_granted n + (if g then 1 else 0)).
  { unfold n1. destruct g; simpl; lia. }
  assert (F : term n1 = term n /\ name n1 = name n /\ nodes n1 = nodes n /\
              state n1 = state n /\ leader n1 = leader n).
  { unfold n1. destruct g; simpl; auto. }
  destruct F as (Ft & Fn & Fno & Fs & Fl).
  erewrite bind_run with (n1 := n1) (e1 := []).
  2:{ cbv beta. cbn [strict_num]. rewrite Z.eqb_refl, andb_true_r.
      unfold n1. destruct g; reflexivity. }
  clearbody n1.
  erewrite bind_run with (n1 := n1) (e1 := []).
  2:{ cbv beta. cbn [js_gt]. rewrite Ft, Z.ltb_irrefl. reflexivity. }
  erewrite bind_run by (apply quorum_run; rewrite Fno; exact Hn).
  cbv beta. cbn [app]. rewrite Hg.
  destruct (_ <=? _) eqn:Q.
  - destruct (change_live {| c_term := None; c_leader := Some (name n1);
                             c_state := Some LEADER |} H1)
      as (R & L1 & _ & _ & Ht' & Hle & Hst & _ & Hvg & _ & _).
    cbn [or_keep or_else c_term c_leader c_state term_differs] in *.
    rewrite <- Fn, <- Ft, <- Hg. repeat split; auto; apply L1.
  - cbn. rewrite Fs, Fl, Hs. repeat split; auto; apply H1.
Qed.

Lemma incoming_tally p n l g :
  live n -> state n = Some CANDIDATE -> nodes n = Some l ->
  p_type p = "voted" -> strict_role (Some LEADER) (p_state p) = false ->
  p_payload p = Some g -> p_term p = Some (term n) ->
  incoming (Object p) n = incoming_voted p n.
Proof.
  intros H Hs Hn Hty Hps Hp Ht. rewrite incoming_object, Ht.
  cbn [js_gt js_lt]. rewrite Z.ltb_irrefl.
  erewrite bind_run by (apply recognize_leader_skip; exact Hps).
  rewrite dispatch_voted by exact Hty. cbn [app].
  symmetry. apply run_eta.
Qed.

Lemma after_app l1 l2 n : after (l1 ++ l2) n = after l2 (after l1 n).
Proof. revert n. induction l1 as [|i l1 IH]; intros n; simpl; auto. Qed.

Ltac case_if H :=
  match type of H with (if ?c then _ else _) => destruct c end.

Lemma replies_cases (l : list bool) :
  l = [] \/ l = [false] \/ l = [true] -> (count_true l <= 1)%nat.
Proof. intros [-> | [-> | ->]]; simpl; auto. Qed.

Lemma end_run n s r :
  state n = Some s -> timers n = Some r ->
  end_ n = Run (Return true) (stopped_from n) [].
Proof.
  intros Hs Ht. unfold end_. rewrite Hs.
  erewrite bind_run with (n1 := set_timers (Some []) n) (e1 := []).
  2:{ cbv beta. rewrite Ht. reflexivity. }
  reflexivity.
Qed.

Lemma end_true n :
  res (end_ n) = Return true ->
  exists s r, state n = Some s /\ timers n = Some r.
Proof.
  unfold end_. destruct (state n) as [s|]; [|discriminate].
  destruct (timers n) as [r|] eqn:Ht; [eauto|].
  erewrite bind_raise with (n1 := n) (e1 := []).
  2:{ cbv beta. rewrite Ht. reflexivity. }
  discriminate.
Qed.

Lemma find_adjust_same {F} name d (r : Tick.t F) x :
  Tick.find name r = Some x ->
  Tick.find name (Tick.adjust name d r) = Some (Tick.Timer (Tick.fn x) d).
Proof.
  induction r as [|[k y] r IH]; simpl; [discriminate|].
  destruct (k =? name)%string eqn:E; simpl; rewrite E.
  - now intros [= ->].
  - exact IH.
Qed.

Lemma find_adjust_other {F} name other d (r : Tick.t F) :
  other <> name ->
  Tick.find other (Tick.adjust name d r) = Tick.find other r.
Proof.
  intros Hne. induction r as [|[k y] r IH]; simpl; [reflexivity|].
  destruct (k =? name)%string eqn:E; simpl.
  - apply String.eqb_eq in E. subst k.
    destruct (String.eqb_spec name other); [congruence | reflexivity].
  - destruct (k =? other)%string; [reflexivity | exact IH].
Qed.

Lemma find_app_new {F} name (r : Tick.t F) x :
  Tick.find name r = None -> Tick.find name (r ++ [(name, x)]) = Some x.
Proof.
  induction r as [|[k y] r IH]; simpl.
  - now rewrite String.eqb_refl.
  - destruct (k =? name)%string; [discriminate | exact IH].
Qed.

Lemma find_app_other {F} name other (r : Tick.t F) x :
  other <> name ->
  Tick.find other (r ++ [(name, x)]) = Tick.find other r.
Proof.
  intros Hne. induction r as [|[k y] r IH]; simpl.
  - destruct (String.eqb_spec name other); [congruence | reflexivity].
  - destruct (k =? other)%string; [reflexivity | exact IH].
Qed.

Lemma heartbeat_run duration n r :
  timers n = Some r ->
  let d := carried duration in
  heartbeat duration n =
    Run (Return tt)
      (set_timers
         (Some (if Tick.active "heartbeat" r
                then Tick.adjust "heartbeat" d r
                else r ++ [("heartbeat", Tick.Timer heartbeat_expired d)]))
         (if falsy duration then set_drawn (S (drawn n)) n else n)) [].
Proof.
  intros Ht. cbv zeta. unfold heartbeat, carried, falsy.
  assert (E : forall m d, timers m = Some r ->
    (fun n0 : node =>
       match timers n0 with
       | Some r0 =>
           if Tick.active "heartbeat" r0
           then modify (set_timers (Some (Tick.adjust "heartbeat" d r0))) n0
           else timers_setTimeout "heartbeat" heartbeat_expired d n0
       | None => throw (TypeError "this.timers is null") n0
       end) m =
    Run (Return tt)
      (set_timers
         (Some (if Tick.active "heartbeat" r
                then Tick.adjust "heartbeat" d r
                else r ++ [("heartbeat", Tick.Timer heartbeat_expired d)])) m)
      []).
  { intros m d Hm. cbv beta. rewrite Hm.
    destruct (Tick.active "heartbeat" r) eqn:A; [reflexivity|].
    unfold timers_setTimeout, Tick.setTimeout. rewrite Hm, A. reflexivity. }
  destruct duration as [[|z|z]|].
  - erewrite bind_run by (unfold timeout; erewrite bind_run by reflexivity;
                          reflexivity).
    rewrite E by exact Ht. reflexivity.
  - erewrite bind_run by reflexivity. rewrite E by exact Ht. reflexivity.
  - erewrite bind_run by reflexivity. rewrite E by exact Ht. reflexivity.
  - erewrite bind_run by (unfold timeout; erewrite bind_run by reflexivity;
                          reflexivity).
    rewrite E by exact Ht. reflexivity.
Qed.

(** What [heartbeat] does to a node that has its timers. *)
Lemma heartbeat_effect duration n r :
  timers n = Some r ->
  let run := heartbeat duration n in
  res run = Return tt /\ evs run = [] /\
  (exists r',
     timers (st run) = Some r' /\
     (exists x, Tick.find "heartbeat" r' = Some x /\
                Tick.ms x = carried duration) /\
     (forall other, other <> "heartbeat" ->
        Tick.find other r' = Tick.find other r)) /\
  term (st run) = term n /\ state (st run) = state n /\
  leader (st run) = leader n /\ votes_for (st run) = votes_for n /\
  votes_granted (st run) = votes_granted n /\
  listening (st run) = listening n.
Proof.
  intros Ht. cbv zeta. rewrite (heartbeat_run duration n Ht).
  cbn [res st evs]. split; [reflexivity|]. split; [reflexivity|]. split.
  - eexists. split; [reflexivity|]. unfold Tick.active.
    destruct (Tick.find "heartbeat" r) as [x|] eqn:F; cbv iota; split.
    + eexists. split; [apply find_adjust_same; exact F | reflexivity].
    + intros other Hne. now apply find_adjust_other.
    + eexists. split; [apply find_app_new; exact F | reflexivity].
    + intros other Hne. now apply find_app_other.
  - destruct (falsy duration); repeat split.
Qed.

Lemma pending_duration name n :
  pending name n = match duration_of name n with Some _ => true | None => false end.
Proof.
  unfold pending, duration_of, Tick.active.
  destruct (timers n) as [r|]; [|reflexivity].
  destruct (Tick.find name r); reflexivity.
Qed.

(** The [switch] on a live node that is no candidate, at a term equal to the
    packet's: only a vote solicitation replies and touches the vote record,
    only a leader's heartbeat touches a timer, and nothing else changes. *)
Lemma dispatch_settled p n :
  live n -> strict_role (Some CANDIDATE) (state n) = false ->
  js_gt (p_term p) (term n) = false -> js_lt (p_term p) (term n) = false ->
  let run := dispatch p n in
  let is_vote := (p_type p =? "vote")%string in
  let is_beat := (p_type p =? "heartbeat")%string
                 && strict_role (Some LEADER) (p_state p) in
  res run = Return tt /\ live (st run) /\
  term (st run) = term n /\ state (st run) = state n /\
  leader (st run) = leader n /\ name (st run) = name n /\
  votes_granted (st run) = votes_granted n /\
  votes_for (st run) =
    (if is_vote && negb (voted_for_other p n) then p_name p
     else votes_for n) /\
  replies (evs run) =
    (if is_vote then [negb (voted_for_other p n)] else []) /\
  (forall e, In e (evs run) ->
     match e with vote _ _ | write_call _ => True | _ => False end) /\
  (forall other, other <> "heartbeat" ->
     duration_of other (st run) = duration_of other n) /\
  duration_of "heartbeat" (st run) =
    (if is_beat then Some (carried (p_data p))
     else duration_of "heartbeat" n).
Proof.
  intros H Hc G L. cbv zeta. unfold dispatch.
  destruct (String.eqb_spec (p_type p) "heartbeat") as [E|_].
  - rewrite E. cbn [String.eqb Ascii.eqb Bool.eqb andb].
    destruct (strict_role (Some LEADER) (p_state p)).
    + destruct H as (Hl & (r & Ht) & Hw & Hr).
      destruct (heartbeat_effect (p_data p) n Ht)
        as (R & Ev & (r' & Ht' & (x & Fx & Mx) & Fo) & T1 & T2 & T3 & T4
            & T5 & T6).
      rewrite (heartbeat_run (p_data p) n Ht) in *. cbn [res st evs] in *.
      unfold live, duration_of. cbn [timers set_timers].
      split; [reflexivity|]. split.
      { destruct (falsy (p_data p)); repeat split; eauto. }
      injection Ht' as <-.
      repeat split; auto.
      * destruct (falsy (p_data p)); reflexivity.
      * intros e [].
      * intros other Hne. destruct (falsy (p_data p)); cbn [timers set_drawn];
          rewrite Ht, (Fo other Hne); reflexivity.
      * rewrite Fx, <- Mx. reflexivity.
    + cbn. repeat split; auto; try apply H. intros e [].
  - cbn [andb].
    destruct (String.eqb_spec (p_type p) "vote") as [_|_].
    + rewrite incoming_vote_run by (assumption || apply H).
      unfold voted_for_other.
      destruct (truthy (votes_for n)
                && negb (same_name (votes_for n) (p_name p)));
        cbn; repeat split; auto; try apply H;
        intros e [<- | [<- | []]]; exact I.
    + destruct (p_type p =? "voted")%string.
      * unfold incoming_voted. rewrite Hc. cbn.
        repeat split; auto; try apply H. intros e [].
      * destruct (p_type p =? "rpc")%string; cbn;
          repeat split; auto; try apply H; intros e [].
Qed.

Lemma recognize_leader_follower p n :
  state n = Some FOLLOWER -> recognize_leader p n = Run (Return tt) n [].
Proof.
  intros H. unfold recognize_leader. rewrite H.
  change (strict_role (Some FOLLOWER) (Some FOLLOWER)) with true.
  now rewrite andb_false_r.
Qed.

Lemma incoming_run_eq p n (x : run unit) :
  incoming (Object p) n = x ->
  live n -> res x = Return tt ->
  call_read (Object p) n = Run (Return true) (st x) (evs x).
Proof.
  intros <- H R. rewrite call_read_live by exact H.
  exact (bind_ret _ true _ R).
Qed.

(** A packet of a higher term on a live node: rule A, then the [switch]
    on a follower whose vote record is fresh. *)
Lemma higher_term_effect p n t :
  live n -> p_term p = Some t -> term n < t ->
  let run := call_read (Object p) n in
  let is_vote := (p_type p =? "vote")%string in
  res run = Return true /\ live (st run) /\
  term (st run) = t /\ state (st run) = Some FOLLOWER /\
  leader (st run) = leader n /\ votes_granted (st run) = 0 /\
  votes_for (st run) = (if is_vote then p_name p else None) /\
  replies (evs run) = (if is_vote then [true] else []) /\
  In (term_change t (term n)) (evs run) /\
  duration_of "election" (st run) =
    (if strict_role (Some FOLLOWER) (state n)
     then duration_of "election" n else None).
Proof.
  intros H Et Hlt. cbv zeta.
  pose (c := {| c_term := p_term p; c_leader := None;
                c_state := Some FOLLOWER |}).
  destruct (reconcile_live p H Et Hlt)
    as (R & L1 & Ht1 & _ & _ & Hs1 & Hl1 & Hvf1 & Hvg1 & Hrep & Hin).
  destruct (change_live c H) as (_ & _ & _ & _ & _ & _ & _ & _ & _ & Hti & _).
  fold c in R, L1, Ht1, Hs1, Hl1, Hvf1, Hvg1, Hrep, Hin.
  set (n1 := st (change (Some c) n)) in *.
  assert (G1 : js_gt (p_term p) (term n1) = false)
    by (rewrite Et, Ht1; apply Z.ltb_irrefl).
  assert (L1' : js_lt (p_term p) (term n1) = false)
    by (rewrite Et, Ht1; apply Z.ltb_irrefl).
  assert (C1 : strict_role (Some CANDIDATE) (state n1) = false)
    by (rewrite Hs1; reflexivity).
  destruct (dispatch_settled p L1 C1 G1 L1')
    as (R2 & L2 & T2 & S2 & Le2 & _ & Vg2 & Vf2 & Rp2 & _ & Do2 & _).
  assert (V : voted_for_other p n1 = false)
    by (unfold voted_for_other; rewrite Hvf1; reflexivity).
  rewrite V in Vf2, Rp2. cbn [negb] in Vf2, Rp2. rewrite andb_true_r in Vf2.
  assert (E : incoming (Object p) n =
              Run (Return tt) (st (dispatch p n1))
                  (evs (change (Some c) n) ++ evs (dispatch p n1))).
  { rewrite incoming_object.
    assert (G : js_gt (p_term p) (term n) = true)
      by (rewrite Et; apply Z.ltb_lt; exact Hlt).
    rewrite G. fold c. erewrite bind_res by exact R. fold n1.
    erewrite bind_run by (apply recognize_leader_follower; exact Hs1).
    rewrite R2. reflexivity. }
  rewrite (@incoming_run_eq p n _ E H eq_refl). cbn [res st evs].
  rewrite replies_app, Hrep, Rp2, T2, S2, Le2, Vg2, Vf2, Hvf1.
  repeat split; auto; try apply L2.
  - apply in_or_app. left. exact Hin.
  - rewrite (Do2 "election") by discriminate.
    unfold duration_of. rewrite Hti. unfold state_differs, c.
    cbn [c_state].
    destruct (strict_role (Some FOLLOWER) (state n)); reflexivity.
Qed.


(** *** Steps that leave the vote alone *)

Lemma same_vote_refl n : same_vote n n.
Proof. now repeat split. Qed.

Lemma same_vote_trans n1 n2 n3 :
  same_vote n1 n2 -> same_vote n2 n3 -> same_vote n1 n3.
Proof.
  intros (A & B & C) (A' & B' & C'). unfold same_vote.
  repeat split; congruence.
Qed.

Lemma same_vote_bind {A B} (m : M A) (f : A -> M B) n :
  same_vote n (st (m n)) ->
  (forall a, same_vote (st (m n)) (st (f a (st (m n))))) ->
  same_vote n (st (bind m f n)).
Proof.
  intros Hm Hf. unfold bind. destruct (res (m n)) as [a | e]; simpl.
  - eapply same_vote_trans; [exact Hm | apply Hf].
  - exact Hm.
Qed.

Lemma stable_bind {A B} (m : M A) (f : A -> M B) :
  stable m -> (forall a, stable (f a)) -> stable (bind m f).
Proof. intros Hm Hf n. apply same_vote_bind; [apply Hm | intros a; apply Hf]. Qed.

Lemma stable_ret {A} (a : A) : stable (ret a).
Proof. intros n. apply same_vote_refl. Qed.

Lemma stable_throw {A} e : stable (@throw A e).
Proof. intros n. apply same_vote_refl. Qed.

Lemma stable_tell e : stable (tell e).
Proof. intros n. apply same_vote_refl. Qed.

Lemma stable_modify f : (forall n, same_vote n (f n)) -> stable (modify f).
Proof. intros H n. apply H. Qed.

Create HintDb vote.
#[local] Hint Resolve stable_ret stable_throw stable_tell : vote.
#[local] Hint Extern 1 (same_vote _ _) => apply same_vote_refl : vote.

Ltac same_vote := intros; unfold same_vote; simpl; auto.

Lemma stable_timeout w : stable (timeout w).
Proof.
  intros n. unfold timeout, bind, Math_random; simpl.
  destruct w; simpl; now repeat split.
Qed.

Lemma stable_timers_setTimeout name f d : stable (timers_setTimeout name f d).
Proof.
  intros n. unfold timers_setTimeout. repeat break_match; same_vote.
Qed.

Lemma stable_heartbeat d : stable (heartbeat d).
Proof.
  unfold heartbeat. apply stable_bind.
  - repeat break_match; auto using stable_timeout with vote.
  - intros x n. repeat break_match; auto with vote.
    + same_vote.
    + apply stable_timers_setTimeout.
Qed.

Lemma stable_on_state_change : stable on_state_change.
Proof.
  unfold on_state_change. apply stable_bind.
  - intros n. break_match; auto with vote. same_vote.
  - intros _. apply stable_heartbeat.
Qed.

Lemma stable_emit e :
  match e with term_change _ _ => False | _ => True end -> stable (emit e).
Proof.
  intros He. unfold emit. apply stable_bind; auto with vote. intros _ n.
  destruct (listening n); auto with vote.
  destruct e; try contradiction; auto with vote.
  apply stable_bind; auto using stable_on_state_change with vote.
Qed.

Lemma stable_write w : stable (write w).
Proof. unfold write. apply stable_bind; auto with vote. Qed.

Lemma stable_this_write w : stable (this_write w).
Proof.
  intros n. unfold this_write. break_match; auto using stable_write with vote.
Qed.

Lemma stable_broadcast type data : stable (broadcast type data).
Proof. intros n. apply same_vote_refl. Qed.

Lemma stable_quorum : stable quorum.
Proof. intros n. unfold quorum. break_match; auto with vote. Qed.

Lemma stable_change_key_leader c : stable (change_key c k_leader).
Proof.
  intros n. unfold change_key. destruct (c_leader c) as [l|]; auto with vote.
  break_match; auto with vote.
  apply same_vote_bind; [same_vote|]. intros _.
  apply same_vote_bind; auto with vote. now apply stable_emit.
Qed.

Lemma stable_change_key_state c : stable (change_key c k_state).
Proof.
  intros n. unfold change_key. destruct (c_state c) as [s|]; auto with vote.
  break_match; auto with vote.
  apply same_vote_bind; [same_vote|]. intros _.
  apply same_vote_bind; auto with vote. now apply stable_emit.
Qed.

(** A [change] that carries no term. *)
Lemma stable_change_no_term c : c_term c = None -> stable (change (Some c)).
Proof.
  intros Hc. unfold change, changes, for_each.
  apply stable_bind.
  { intros n. unfold change_key. rewrite Hc. auto with vote. }
  intros _. apply stable_bind; [apply stable_change_key_leader|].
  intros _. apply stable_bind; [apply stable_change_key_state|].
  auto with vote.
Qed.

Lemma stable_recognize_leader data : stable (recognize_leader data).
Proof.
  intros n. unfold recognize_leader. break_match; auto with vote.
  now apply stable_change_no_term.
Qed.

Lemma stable_end : stable end_.
Proof.
  intros n. unfold end_. break_match; auto with vote.
  apply stable_bind.
  { intros m. break_match; auto with vote. same_vote. }
  intros _. apply stable_bind; [apply stable_modify; same_vote|].
  intros _. apply stable_bind; [apply stable_modify; same_vote|].
  auto with vote.
Qed.

Lemma stable_call_write packet : stable (call_write packet).
Proof.
  intros n. unfold call_write. break_match; auto using stable_write with vote.
Qed.

Lemma stable_refuse data :
  stable (emit (vote data false) ;; this_write (w_vote false) ;; ret tt).
Proof.
  apply stable_bind; [now apply stable_emit|]. intros _.
  apply stable_bind; [apply stable_this_write|]. auto with vote.
Qed.

Lemma stable_granted data :
  stable (emit (vote data true) ;; this_write (w_vote true) ;; ret tt).
Proof.
  apply stable_bind; [now apply stable_emit|]. intros _.
  apply stable_bind; [apply stable_this_write|]. auto with vote.
Qed.

Lemma same_name_eq a b : same_name a b = true -> a = b.
Proof.
  destruct a, b; simpl; try discriminate; auto.
  intros H. apply String.eqb_eq in H. now subst.
Qed.

(** No listener writes the term. *)
Lemma emit_same_term e n : term (st (emit e n)) = term n.
Proof.
  destruct e; try (now apply stable_emit).
  unfold emit, bind, tell; simpl. now destruct (listening n).
Qed.

(** [change] leaves the node at the term its argument carries. *)
Lemma change_term_value c n t' :
  c_term c = Some t' -> term (st (change (Some c) n)) = t'.
Proof.
  intros Hc. unfold change, changes, for_each.
  assert (E : term (st (change_key c k_term n)) = t').
  { unfold change_key. rewrite Hc.
    destruct (Z.eqb_spec t' (term n)) as [->|_]; cbn [negb]; [reflexivity|].
    unfold bind at 1. cbn [res st modify].
    unfold bind at 1.
    destruct (res (emit _ _)); cbn [st ret]; apply emit_same_term. }
  assert (Hrest : stable (change_key c k_leader ;;
                          change_key c k_state ;; ret tt)).
  { apply stable_bind; [apply stable_change_key_leader|].
    intros _. apply stable_bind; [apply stable_change_key_state|].
    auto with vote. }
  unfold bind at 1. destruct (res (change_key c k_term n)); cbn [st];
    [|exact E].
  rewrite <- E. apply Hrest.
Qed.

(** *** The vote of a term stays taken *)

Section Voted.

Variables (t : Z) (candidate own : string).
Hypothesis (Hcandidate : candidate <> EmptyString).
Hypothesis (Hown : plus_one t = t -> own <> EmptyString).

Abbreviation voted := (voted_in t candidate own).

Lemma past_voted n : past t own n -> voted n.
Proof. intros (A & B). repeat split; auto; lia. Qed.

Lemma past_evolves b n n' : past t own n -> evolves b n n' -> past t own n'.
Proof. intros (A & B) (C & D & _). split; [congruence | lia]. Qed.

Lemma past_same n n' : past t own n -> same_vote n n' -> past t own n'.
Proof. intros (A & B) (C & D & _). split; [congruence | lia]. Qed.

Lemma voted_same n n' : voted n -> same_vote n n' -> voted n'.
Proof.
  intros (A & B & C) (D & E & F). unfold voted_in.
  rewrite D, E, F. auto.
Qed.

Lemma voted_stable {A} (m : M A) n : stable m -> voted n -> voted (st (m n)).
Proof. intros Hm H. eapply voted_same; [exact H | apply Hm]. Qed.

Lemma voted_bind {A B} (m : M A) (f : A -> M B) n :
  voted (st (m n)) -> (forall a, voted (st (f a (st (m n))))) ->
  voted (st (bind m f n)).
Proof.
  intros Hm Hf. unfold bind. destruct (res (m n)) as [a | e]; simpl; auto.
Qed.

Lemma keeps_bind {A B} (m : M A) (f : A -> M B) :
  keeps t candidate own m -> (forall a, keeps t candidate own (f a)) ->
  keeps t candidate own (bind m f).
Proof.
  intros Hm Hf n H. apply voted_bind; [now apply Hm|].
  intros a. apply Hf. now apply Hm.
Qed.

Lemma keeps_stable {A} (m : M A) : stable m -> keeps t candidate own m.
Proof. intros Hm n H. now apply voted_stable. Qed.

(** Writing a term that is not the node's, and not below it. *)
Lemma term_written_past currently n :
  voted n -> term n <= currently -> (currently =? term n) = false ->
  past t own
    (st ((modify (set_term currently) ;;
          emit (term_change currently (term n)) ;; ret tt) n)).
Proof.
  intros (A & B & _) Hle Hne. apply Z.eqb_neq in Hne.
  assert (P : past t own (set_term currently n)) by (split; simpl; [auto | lia]).
  unfold bind at 1. cbn [res st modify].
  eapply past_evolves; [exact P|].
  apply (@evolves_bind false); [apply respects_emit | auto with raft].
Qed.

Lemma change_key_term_voted c n :
  voted n -> (forall t', c_term c = Some t' -> term n <= t') ->
  voted (st (change_key c k_term n)).
Proof.
  intros H Hc. unfold change_key.
  destruct (c_term c) as [t'|]; [|exact H].
  specialize (Hc t' eq_refl).
  destruct (t' =? term n) eqn:E; [exact H|]. cbn [negb].
  apply past_voted. now apply term_written_past.
Qed.

Lemma change_voted c n :
  voted n -> (forall t', c_term c = Some t' -> term n <= t') ->
  voted (st (change (Some c) n)).
Proof.
  intros H Hc. unfold change, changes, for_each.
  apply voted_bind; [now apply change_key_term_voted|]. intros _.
  apply keeps_bind.
  { apply keeps_stable, stable_change_key_leader. }
  intros _. apply keeps_bind.
  { apply keeps_stable, stable_change_key_state. }
  intros _. apply keeps_stable. auto with vote.
  now apply change_key_term_voted.
Qed.

(** A [change] to a higher term leaves the node past term [t]. *)
Lemma change_past c n t' :
  voted n -> c_term c = Some t' -> term n < t' ->
  past t own (st (change (Some c) n)).
Proof.
  intros H Hc Hlt. unfold change, changes, for_each.
  assert (P : past t own (st (change_key c k_term n))).
  { unfold change_key. rewrite Hc.
    assert (E : (t' =? term n) = false) by (apply Z.eqb_neq; lia).
    rewrite E. cbn [negb]. apply term_written_past; auto. lia. }
  assert (Hrest : forall m, past t own m ->
    past t own
      (st ((change_key c k_leader ;; change_key c k_state ;; ret tt) m))).
  { intros m Hm. eapply past_same; [exact Hm|].
    apply stable_bind; [apply stable_change_key_leader|].
    intros _. apply stable_bind; [apply stable_change_key_state|].
    auto with vote. }
  unfold bind at 1. destruct (res (change_key c k_term n)); simpl.
  - now apply Hrest.
  - exact P.
Qed.

Lemma grant_past data n :
  past t own n ->
  past t own
    (st ((modify (set_votes_for (p_name data)) ;;
          emit (vote data true) ;; this_write (w_vote true) ;; ret tt) n)).
Proof.
  intros P. unfold bind at 1. cbn [res st modify].
  eapply past_same; [|apply stable_granted].
  destruct P as (A & B). split; simpl; auto.
Qed.

Lemma keeps_incoming_vote data : keeps t candidate own (incoming_vote data).
Proof.
  intros n H. unfold incoming_vote.
  destruct (js_lt (p_term data) (term n)).
  { apply voted_stable; [apply stable_refuse | exact H]. }
  destruct (js_gt (p_term data) (term n)) eqn:G.
  - apply gt_spec in G as (t' & E & Hlt).
    assert (P : past t own
                  (st (change (Some {| c_term := p_term data;
                                       c_leader := None;
                                       c_state := None |}) n)))
      by (eapply change_past; eauto).
    apply voted_bind; [now apply past_voted|].
    intros _. apply past_voted. now apply grant_past.
  - destruct (truthy (votes_for n)
              && negb (same_name (votes_for n) (p_name data))) eqn:V.
    { apply voted_stable; [apply stable_refuse | exact H]. }
    unfold bind at 1. cbn [res st modify].
    apply voted_stable; [apply stable_granted|].
    destruct H as (A & B & C). unfold voted_in. cbn [name term votes_for set_votes_for].
    split; [exact A|]. split; [exact B|]. intros E.
    specialize (C E).
    assert (T : truthy (votes_for n) = true).
    { destruct C as [-> | (P & ->)]; simpl; apply negb_true_iff;
        apply String.eqb_neq; auto. }
    rewrite T in V. cbn [andb] in V. apply negb_false_iff in V.
    apply same_name_eq in V. rewrite <- V. exact C.
Qed.

Lemma keeps_incoming_voted data : keeps t candidate own (incoming_voted data).
Proof.
  intros n H. unfold incoming_voted.
  destruct (negb (strict_role (Some CANDIDATE) (state n))); [exact H|].
  revert n H. apply keeps_bind.
  { apply keeps_stable. intros m. repeat break_match; auto with vote.
    same_vote. }
  intros _. apply keeps_bind.
  { intros m Hm. destruct (js_gt (p_term data) (term m)) eqn:G; [|exact Hm].
    apply gt_spec in G as (t' & E & Hlt).
    apply change_voted; [exact Hm|]. cbn [c_term]. intros t'' E'.
    rewrite E in E'. injection E' as <-. lia. }
  intros _. apply keeps_bind; [apply keeps_stable, stable_quorum|].
  intros q m Hm. break_match; [|exact Hm].
  apply change_voted; [exact Hm | discriminate].
Qed.

Lemma keeps_dispatch data : keeps t candidate own (dispatch data).
Proof.
  unfold dispatch.
  repeat break_match;
    auto using keeps_incoming_vote, keeps_incoming_voted, keeps_stable,
      stable_heartbeat with vote.
Qed.

Lemma keeps_incoming data : keeps t candidate own (incoming data).
Proof.
  unfold incoming. break_match; [apply keeps_stable; auto with vote|].
  destruct data as [| | | | |p];
    try solve [apply keeps_stable; auto with vote].
  assert (Hrest : keeps t candidate own (recognize_leader p ;; dispatch p)).
  { apply keeps_bind; [apply keeps_stable, stable_recognize_leader|].
    intros _. apply keeps_dispatch. }
  intros n H. destruct (js_gt (p_term p) (term n)) eqn:G.
  - apply gt_spec in G as (t' & E & Hlt).
    apply voted_bind.
    + apply change_voted; [exact H|]. cbn [c_term]. intros t'' E'.
      rewrite E in E'. injection E' as <-. lia.
    + intros _. apply Hrest.
      apply change_voted; [exact H|]. cbn [c_term]. intros t'' E'.
      rewrite E in E'. injection E' as <-. lia.
  - break_match; [exact H | now apply Hrest].
Qed.

Lemma keeps_call_read packet : keeps t candidate own (call_read packet).
Proof.
  intros n H. unfold call_read, read.
  destruct (read_null n); [exact H|].
  destruct (listening n); [|exact H].
  revert n H. apply keeps_bind; [apply keeps_incoming|].
  intros _. apply keeps_stable. auto with vote.
Qed.

Lemma keeps_promote : keeps t candidate own promote.
Proof.
  intros n H. unfold promote.
  assert (H1 : voted (st (change (Some {| c_state := Some CANDIDATE;
                                          c_term := Some (plus_one (term n));
                                          c_leader := Some EmptyString |}) n))).
  { apply change_voted; [exact H|]. cbn [c_term].
    intros t' [= <-]. apply plus_one_ge. }
  apply voted_bind; [exact H1|]. intros _.
  set (n1 := st (change _ n)) in *.
  unfold bind at 1. cbn [res st modify].
  assert (T1 : term n1 = plus_one (term n))
    by (unfold n1; now apply change_term_value).
  assert (H2 : voted (set_votes_for (Some (name n1)) n1)).
  { destruct H1 as (A & B & _). destruct H as (_ & B0 & _).
    unfold voted_in. cbn [name term votes_for set_votes_for]. rewrite A.
    split; [reflexivity|]. split; [exact B|].
    intros E. right. split; [|reflexivity].
    pose proof (plus_one_ge (term n)) as G.
    assert (E0 : term n = t) by lia. rewrite E0 in T1. congruence. }
  revert H2. generalize (set_votes_for (Some (name n1)) n1).
  clear.
  apply keeps_bind; [apply keeps_stable, stable_modify; same_vote|].
  intros _. apply keeps_stable. intros m.
  destruct (timers m); auto with vote.
  apply stable_bind; [apply stable_timeout|].
  intros d. apply stable_timers_setTimeout.
Qed.

Lemma keeps_expire name : keeps t candidate own (expire name).
Proof.
  intros n H. unfold expire.
  destruct (timers n) as [r|]; [|exact H].
  destruct (Tick.find name r) as [x|]; [|exact H].
  revert n H. apply keeps_bind; [apply keeps_stable, stable_modify; same_vote|].
  intros _. destruct (Tick.fn x); simpl; [|apply keeps_promote].
  intros m Hm. unfold on_heartbeat_expired.
  destruct (negb (strict_role (Some LEADER) (state m))).
  - revert m Hm. apply keeps_bind; [now apply keeps_stable, stable_emit|].
    intros _. apply keeps_promote.
  - exact Hm.
Qed.

Lemma keeps_step i : keeps t candidate own (step i).
Proof.
  destruct i; simpl; unfold forget.
  - apply keeps_bind; [apply keeps_call_read|].
    intros _. apply keeps_stable. auto with vote.
  - apply keeps_stable, stable_bind; [apply stable_call_write|].
    auto with vote.
  - apply keeps_expire.
  - apply keeps_promote.
  - apply keeps_stable, stable_heartbeat.
  - apply keeps_stable, stable_bind; [apply stable_end | auto with vote].
Qed.

Lemma after_voted l : forall n, voted n -> voted (after l n).
Proof.
  induction l as [|i l IH]; intros n H; simpl; [exact H|].
  apply IH. now apply keeps_step.
Qed.

End Voted.

(** *** How many vote replies a call hands to [write] *)

Lemma quiet_bind {A B} (m : M A) (f : A -> M B) :
  quiet m -> (forall a, quiet (f a)) -> quiet (bind m f).
Proof.
  intros Hm Hf n. unfold bind. destruct (res (m n)) as [a | e]; simpl.
  - now rewrite replies_app, Hm, Hf.
  - apply Hm.
Qed.

Lemma quiet_ret {A} (a : A) : quiet (ret a).
Proof. intros n. reflexivity. Qed.

Lemma quiet_throw {A} e : quiet (@throw A e).
Proof. intros n. reflexivity. Qed.

Lemma quiet_modify f : quiet (modify f).
Proof. intros n. reflexivity. Qed.

Lemma quiet_tell e : replies [e] = [] -> quiet (tell e).
Proof. intros H n. exact H. Qed.

#[local] Hint Resolve quiet_ret quiet_throw quiet_modify : vote.

Lemma quiet_timeout w : quiet (timeout w).
Proof.
  intros n. unfold timeout, bind, Math_random; simpl. now destruct w.
Qed.

Lemma quiet_timers_setTimeout name f d : quiet (timers_setTimeout name f d).
Proof. intros n. unfold timers_setTimeout. now repeat break_match. Qed.

Lemma quiet_heartbeat d : quiet (heartbeat d).
Proof.
  unfold heartbeat. apply quiet_bind.
  - repeat break_match; auto using quiet_timeout with vote.
  - intros x n. repeat break_match; try reflexivity.
    apply quiet_timers_setTimeout.
Qed.

Lemma quiet_on_term_change : quiet on_term_change.
Proof. unfold on_term_change. apply quiet_bind; auto with vote. Qed.

Lemma quiet_on_state_change : quiet on_state_change.
Proof.
  unfold on_state_change. apply quiet_bind.
  - intros n. now break_match.
  - intros _. apply quiet_heartbeat.
Qed.

Lemma quiet_emit e : replies [e] = [] -> quiet (emit e).
Proof.
  intros He. unfold emit. apply quiet_bind; [now apply quiet_tell|].
  intros _ n. destruct (listening n); [|reflexivity].
  destruct e; try reflexivity; apply quiet_bind;
    auto using quiet_on_term_change, quiet_on_state_change with vote.
Qed.

Lemma quiet_change_key c k : quiet (change_key c k).
Proof.
  intros n. unfold change_key.
  destruct k; break_match; try reflexivity; break_match; try reflexivity;
    (apply quiet_bind; [apply quiet_modify|]; intros _;
     apply quiet_bind; [now apply quiet_emit | auto with vote]).
Qed.

Lemma quiet_change c : quiet (change c).
Proof.
  destruct c as [c|]; [|apply quiet_ret]. unfold change, changes, for_each.
  repeat (apply quiet_bind; [apply quiet_change_key|]; intros _).
  apply quiet_ret.
Qed.

Lemma quiet_quorum : quiet quorum.
Proof. intros n. unfold quorum. now break_match. Qed.

Lemma quiet_recognize_leader data : quiet (recognize_leader data).
Proof.
  intros n. unfold recognize_leader. break_match; [apply quiet_change|].
  reflexivity.
Qed.

Lemma quiet_incoming_voted data : quiet (incoming_voted data).
Proof.
  intros n. unfold incoming_voted. break_match; [reflexivity|].
  apply quiet_bind.
  { intros m. now repeat break_match. }
  intros _. apply quiet_bind.
  { intros m. break_match; [apply quiet_change | reflexivity]. }
  intros _. apply quiet_bind; [apply quiet_quorum|].
  intros q m. break_match; [apply quiet_change | reflexivity].
Qed.

Lemma terse_quiet {A} (m : M A) : quiet m -> terse m.
Proof. intros H n. rewrite H. simpl. lia. Qed.

Lemma terse_after_quiet {A B} (m : M A) (f : A -> M B) :
  quiet m -> (forall a, terse (f a)) -> terse (bind m f).
Proof.
  intros Hm Hf n. unfold bind. destruct (res (m n)) as [a | e]; simpl.
  - rewrite replies_app, Hm. apply Hf.
  - rewrite Hm. simpl. lia.
Qed.

Lemma terse_before_quiet {A B} (m : M A) (f : A -> M B) :
  terse m -> (forall a, quiet (f a)) -> terse (bind m f).
Proof.
  intros Hm Hf n. unfold bind. destruct (res (m n)) as [a | e]; simpl.
  - rewrite replies_app, Hf, app_nil_r. apply Hm.
  - apply Hm.
Qed.

(** The reply of [this.write('vote', {granted})]: handed over, or not at
    all when [write] is null. *)
Lemma this_write_replies granted n :
  replies (evs (this_write (w_vote granted) n)) = [] \/
  replies (evs (this_write (w_vote granted) n)) = [granted].
Proof.
  unfold this_write. destruct (write_null n); [now left | now right].
Qed.

(** Answering a solicitation: the ['vote'] event, then one reply. *)
Lemma answer_replies data granted n :
  let r := (emit (vote data granted) ;;
            this_write (w_vote granted) ;; ret tt) n in
  replies (evs r) = [] \/ replies (evs r) = [granted].
Proof.
  cbv zeta. erewrite bind_run by (apply emit_other_run; exact I).
  unfold this_write, write, bind, tell, ret, throw.
  destruct (write_null n); cbn; auto.
Qed.

Lemma terse_answer data granted :
  terse (emit (vote data granted) ;; this_write (w_vote granted) ;; ret tt).
Proof.
  intros n. destruct (answer_replies data granted n) as [E | E];
    cbv zeta in E; rewrite E; simpl; lia.
Qed.

Lemma terse_incoming_vote data : terse (incoming_vote data).
Proof.
  assert (Hgrant : terse (modify (set_votes_for (p_name data)) ;;
                          emit (vote data true) ;;
                          this_write (w_vote true) ;; ret tt)).
  { apply terse_after_quiet; [apply quiet_modify|].
    intros _. apply terse_answer. }
  intros n. unfold incoming_vote.
  destruct (js_lt (p_term data) (term n)); [apply terse_answer|].
  destruct (js_gt (p_term data) (term n)).
  - apply terse_after_quiet; [apply quiet_change|]. intros _. apply Hgrant.
  - break_match; [apply terse_answer | apply Hgrant].
Qed.

Lemma terse_dispatch data : terse (dispatch data).
Proof.
  unfold dispatch.
  repeat break_match;
    auto using terse_incoming_vote, terse_quiet, quiet_heartbeat,
      quiet_incoming_voted with vote.
Qed.

Lemma terse_incoming data : terse (incoming data).
Proof.
  unfold incoming. break_match; [apply terse_quiet; auto with vote|].
  destruct data as [| | | | |p];
    try solve [apply terse_quiet; auto with vote].
  assert (Hrest : terse (recognize_leader p ;; dispatch p)).
  { apply terse_after_quiet; [apply quiet_recognize_leader|].
    intros _. apply terse_dispatch. }
  intros n. destruct (js_gt (p_term p) (term n)).
  - apply terse_after_quiet; [apply quiet_change|]. intros _. apply Hrest.
  - break_match; [simpl; lia | apply Hrest].
Qed.

Lemma terse_call_read packet : terse (call_read packet).
Proof.
  intros n. unfold call_read, read.
  destruct (read_null n); [simpl; lia|].
  destruct (listening n); [|simpl; lia].
  apply terse_before_quiet; [apply terse_incoming | auto with vote].
Qed.

Lemma count_true_length l : (count_true l <= List.length l)%nat.
Proof. unfold count_true. apply filter_length_le. Qed.

Lemma count_true_none l : ~ In true l -> count_true l = 0%nat.
Proof.
  unfold count_true. induction l as [|[|] l IH]; simpl; intros H; auto.
  exfalso. apply H. now left.
Qed.

(** Once the vote of term [t] is taken, a solicitation of that term from
    another name gets no grant, whatever state the node is in. *)
Lemma solicitation_not_granted t candidate own b n :
  candidate <> EmptyString ->
  (plus_one t = t ->
   own <> EmptyString /\ same_name (Some own) (p_name b) = false) ->
  voted_in t candidate own n ->
  p_type b = "vote" -> p_term b = Some t ->
  same_name (Some candidate) (p_name b) = false ->
  ~ In true (replies (evs (call_read (Object b) n))).
Proof.
  intros Hc Ho H Hty Ht Hcb.
  unfold call_read, read.
  destruct (read_null n); [intros []|].
  destruct (listening n); [|intros []].
  unfold bind at 1.
  assert (Hin : ~ In true (replies (evs (incoming (Object b) n)))).
  { rewrite incoming_object, Ht. cbn [js_gt js_lt].
    destruct H as (A & B & C).
    assert (G : (term n <? t) = false) by (apply Z.ltb_ge; lia).
    rewrite G. destruct (Z.ltb_spec t (term n)) as [_ | Hge]; [intros []|].
    assert (E : term n = t) by lia. specialize (C E).
    pose proof (stable_recognize_leader b n) as (S1 & S2 & S3).
    pose proof (quiet_recognize_leader b n) as Q.
    unfold bind at 1. destruct (res (recognize_leader b n)); cbn [evs];
      [|rewrite Q; intros []].
    rewrite replies_app, Q. cbn [app].
    set (n1 := st (recognize_leader b n)) in *.
    rewrite dispatch_vote by exact Hty. unfold incoming_vote.
    rewrite Ht. cbn [js_gt js_lt]. rewrite S1, E, Z.ltb_irrefl, S3.
    assert (V : truthy (votes_for n)
                && negb (same_name (votes_for n) (p_name b)) = true).
    { destruct C as [-> | (P & ->)]; cbn [truthy].
      - rewrite Hcb. cbn [negb]. rewrite andb_true_r.
        apply negb_true_iff. now apply String.eqb_neq.
      - destruct (Ho P) as (Hn & Hob). rewrite Hob. cbn [negb].
        rewrite andb_true_r. apply negb_true_iff. now apply String.eqb_neq. }
    rewrite V.
    destruct (answer_replies b false n1) as [R | R]; cbv zeta in R;
      rewrite R; cbn; intuition discriminate. }
  destruct (res (incoming (Object b) n)); cbn [evs];
    rewrite ?replies_app, ?app_nil_r; exact Hin.
Qed.

Lemma count_true_app l1 l2 :
  count_true (l1 ++ l2) = (count_true l1 + count_true l2)%nat.
Proof. unfold count_true. now rewrite filter_app, length_app. Qed.

Lemma truthy_name s : truthy (Some s) = true -> s <> EmptyString.
Proof.
  simpl. intros H. apply negb_true_iff in H. now apply String.eqb_neq.
Qed.

Lemma bind_cases {A B} (m : M A) (f : A -> M B) n :
  (exists e, bind m f n = Run (Raise e) (st (m n)) (evs (m n))) \/
  (exists a, bind m f n =
               Run (res (f a (st (m n)))) (st (f a (st (m n))))
                   (evs (m n) ++ evs (f a (st (m n))))).
Proof.
  unfold bind. destruct (res (m n)) as [a | e]; [right | left]; eauto.
Qed.

(** Rule B and the [switch] on a solicitation of the node's own term: a
    grant records the candidate. *)
Lemma granted_same_term a n t candidate :
  p_type a = "vote" -> p_term a = Some t -> p_name a = Some candidate ->
  term n = t ->
  let r := (recognize_leader a ;; dispatch a) n in
  In true (replies (evs r)) -> voted_in t candidate (name n) (st r).
Proof.
  intros Ha Ta Na Tn. cbv zeta.
  pose proof (stable_recognize_leader a n) as (S1 & S2 & S3).
  pose proof (quiet_recognize_leader a n) as Q.
  destruct (bind_cases (recognize_leader a) (fun _ => dispatch a) n)
    as [(e & ->) | (x & ->)]; cbn [st evs]; [rewrite Q; intros []|].
  rewrite replies_app, Q. cbn [app].
  set (n1 := st (recognize_leader a n)) in *.
  rewrite dispatch_vote by exact Ha. unfold incoming_vote.
  rewrite Ta. cbn [js_gt js_lt]. rewrite S1, Tn, Z.ltb_irrefl.
  destruct (truthy (votes_for n1)
            && negb (same_name (votes_for n1) (p_name a))).
  - destruct (answer_replies a false n1) as [R | R]; cbv zeta in R;
      rewrite R; cbn; intuition discriminate.
  - intros _. unfold bind at 1. cbn [res st modify].
    pose proof (stable_granted a (set_votes_for (p_name a) n1))
      as (G1 & G2 & G3).
    cbn [term name votes_for set_votes_for] in G1, G2, G3.
    unfold voted_in. rewrite G1, G2, G3, S1, S2, Na, Tn.
    split; [reflexivity|]. split; [lia|]. intros _. now left.
Qed.

(** A voter that grants a solicitation of term [t] has given the vote of
    that term, whatever state it was in. *)
Lemma granted_voted a n t candidate :
  p_type a = "vote" -> p_term a = Some t -> p_name a = Some candidate ->
  In true (replies (evs (call_read (Object a) n))) ->
  voted_in t candidate (name n) (st (call_read (Object a) n)).
Proof.
  intros Ha Ta Na. unfold call_read, read.
  destruct (read_null n); [intros []|].
  destruct (listening n); [|intros []].
  assert (Hin : In true (replies (evs (incoming (Object a) n))) ->
                voted_in t candidate (name n) (st (incoming (Object a) n))).
  { rewrite incoming_object.
    destruct (js_gt (p_term a) (term n)) eqn:G.
    - pose proof (@change_term_guarded false a (Some FOLLOWER) n G)
        as (_ & Hname & _).
      pose proof (@change_term_value
                    {| c_term := p_term a; c_leader := None;
                       c_state := Some FOLLOWER |} n t Ta) as Hterm.
      pose proof (quiet_change
                    (Some {| c_term := p_term a; c_leader := None;
                             c_state := Some FOLLOWER |}) n) as Q.
      match goal with |- context [bind ?m ?f n] =>
        destruct (bind_cases m f n) as [(e & ->) | (x & ->)]
      end; cbn [st evs]; [rewrite Q; intros []|].
      rewrite replies_app, Q. cbn [app]. rewrite <- Hname.
      now apply granted_same_term.
    - rewrite Ta in *. cbn [js_gt js_lt] in *.
      destruct (Z.ltb_spec t (term n)) as [_ | Hge]; [intros []|].
      apply Z.ltb_ge in G. apply granted_same_term; auto. lia. }
  destruct (bind_cases (incoming (Object a)) (fun _ => ret true) n)
    as [(e & ->) | (x & ->)]; cbn [st evs ret];
    rewrite ?app_nil_r; exact Hin.
Qed.

(** One reply at most: either it grants, or none does. *)
Lemma one_reply (l : list bool) :
  (List.length l <= 1)%nat -> In true l \/ count_true l = 0%nat.
Proof.
  destruct l as [|[|] [|y l]]; simpl; auto; intros H; lia.
Qed.

(** A solicitation whose term is behind the node's gets no reply. *)
Lemma stale_no_reply b n t :
  p_term b = Some t -> t < term n ->
  replies (evs (call_read (Object b) n)) = [].
Proof.
  intros Ht Hlt. unfold call_read, read.
  destruct (read_null n); [reflexivity|].
  destruct (listening n); [|reflexivity].
  unfold bind. rewrite incoming_object, Ht. cbn [js_gt js_lt].
  assert (G : (term n <? t) = false) by (apply Z.ltb_ge; lia).
  assert (L : (t <? term n) = true) by (apply Z.ltb_lt; lia).
  rewrite G, L. reflexivity.
Qed.

Lemma forget_run {A} (m : M A) n :
  st (forget m n) = st (m n) /\ evs (forget m n) = evs (m n).
Proof.
  unfold forget, bind. destruct (res (m n)); simpl; rewrite ?app_nil_r; auto.
Qed.

(** The [case 'voted'] writes no term unless the reply is ahead. *)
Lemma incoming_voted_same_term data n :
  js_gt (p_term data) (term n) = false ->
  term (st (incoming_voted data n)) = term n.
Proof.
  intros G.
  assert (S : same_vote n (st (incoming_voted data n))); [|apply S].
  unfold incoming_voted.
  destruct (negb (strict_role (Some CANDIDATE) (state n))); auto with vote.
  apply same_vote_bind.
  { repeat break_match; auto with vote. same_vote. }
  intros _. set (n1 := st _).
  assert (E : term n1 = term n).
  { unfold n1. repeat break_match; reflexivity. }
  clearbody n1. apply same_vote_bind.
  { rewrite E, G. auto with vote. }
  intros _. apply stable_bind; [apply stable_quorum|].
  intros q m. break_match; auto with vote.
  now apply stable_change_no_term.
Qed.

(** The [switch] writes no term when the packet is not ahead. *)
Lemma dispatch_same_term p n :
  live n ->
  js_gt (p_term p) (term n) = false -> js_lt (p_term p) (term n) = false ->
  term (st (dispatch p n)) = term n.
Proof.
  intros H G L. unfold dispatch.
  destruct (p_type p =? "heartbeat")%string.
  { destruct (strict_role (Some LEADER) (p_state p)); [|reflexivity].
    apply stable_heartbeat. }
  destruct (p_type p =? "vote")%string.
  { rewrite incoming_vote_run by (assumption || apply H).
    now destruct (truthy (votes_for n)
                  && negb (same_name (votes_for n) (p_name p))). }
  destruct (p_type p =? "voted")%string.
  { now apply incoming_voted_same_term. }
  now destruct (p_type p =? "rpc")%string.
Qed.

(** [read] moves the term of a live node only for a packet that is ahead. *)
Lemma read_term_advance packet n :
  live n -> term (st (call_read packet n)) <> term n ->
  exists p t, packet = Object p /\ p_term p = Some t /\ term n < t.
Proof.
  intros H. rewrite call_read_live by exact H. intros Hne.
  assert (Hne' : term (st (incoming packet n)) <> term n).
  { intros E'. apply Hne. unfold bind.
    destruct (res (incoming packet n)); simpl; exact E'. }
  clear Hne.
  destruct packet as [| | | | |p]; try (now contradiction Hne').
  rewrite incoming_object in Hne'.
  destruct (js_gt (p_term p) (term n)) eqn:G.
  { apply gt_spec in G as (t & Et & Hlt). eauto. }
  destruct (js_lt (p_term p) (term n)) eqn:L; [now contradiction Hne'|].
  exfalso. apply Hne'.
  destruct (recognize_leader_live p H) as (R & L1 & _ & _ & Ht & _).
  erewrite bind_res by exact R. cbn [st].
  rewrite <- Ht. apply dispatch_same_term; [exact L1 | |]; now rewrite Ht.
Qed.

(** [promote] on a live node whose term it moves. *)
Lemma promote_advance n :
  live n -> term (st (promote n)) <> term n ->
  In (term_change (term (st (promote n))) (term n)) (evs (promote n)) /\
  votes_for (st (promote n)) = Some (name n) /\
  votes_granted (st (promote n)) = 1.
Proof.
  intros H Hne. destruct H as (Hl & (r & Ht) & Hw & Hr).
  assert (H : live n) by (repeat split; eauto).
  destruct (promote_effect H Ht) as (_ & T & _ & _ & Vf & Vg & _ & _ & Ev & _).
  rewrite T in *. split; [|auto].
  rewrite Ev. unfold promote_events.
  destruct (Z.eqb_spec (plus_one (term n)) (term n)) as [E|_];
    [contradiction|].
  apply in_or_app. left. now left.
Qed.

(** The expiry of a timer on a live node whose term it moves. *)
Lemma expire_advance timer n :
  live n -> term (st (expire timer n)) <> term n ->
  In (term_change (term (st (expire timer n))) (term n))
     (evs (expire timer n)) /\
  votes_for (st (expire timer n)) = Some (name n) /\
  votes_granted (st (expire timer n)) = 1.
Proof.
  intros H. destruct H as (Hl & (r & Ht) & Hw & Hr).
  unfold expire. rewrite Ht.
  destruct (Tick.find timer r) as [x|]; [|now intros []].
  erewrite bind_run by apply modify_run. cbn [res st evs app].
  set (n1 := set_timers (Some (Tick.remove timer r)) n).
  assert (H1 : live n1) by (unfold n1, live; cbn; repeat split; eauto).
  change (term n) with (term n1). change (name n) with (name n1).
  destruct (Tick.fn x); cbn [call]; [|now apply promote_advance].
  unfold on_heartbeat_expired.
  destruct (negb (strict_role (Some LEADER) (state n1))); [|now intros []].
  erewrite bind_run by (apply emit_other_run; exact I).
  cbn [res st evs]. intros Hne.
  destruct (promote_advance H1 Hne) as (A & B & C).
  split; [now right | auto].
Qed.


(** The [case 'vote'] on a live node whose term is behind the packet's: the
    handler's own [change] writes the term, and the grant follows the
    reset. *)
Lemma incoming_vote_ahead p n t :
  live n -> p_term p = Some t -> term n < t ->
  let r := incoming_vote p n in
  res r = Return tt /\ term (st r) = t /\
  In (term_change t (term n)) (evs r) /\
  votes_for (st r) = p_name p /\ votes_granted (st r) = 0 /\
  replies (evs r) = [true].
Proof.
  intros H Et Hlt. cbv zeta. unfold incoming_vote. rewrite Et.
  cbn [js_lt js_gt].
  assert (L : (t <? term n) = false) by (apply Z.ltb_ge; lia).
  assert (G : (term n <? t) = true) by (apply Z.ltb_lt; lia).
  rewrite L, G.
  set (c := {| c_term := Some t; c_leader := None; c_state := None |}).
  pose proof (change_replies c H) as Hrep.
  destruct (change_live c H)
    as (R & L1 & _ & _ & Ht & _ & _ & Hvf & Hvg & _ & He).
  assert (D : term_differs c n = true).
  { unfold term_differs, c; cbn [c_term].
    apply negb_true_iff, Z.eqb_neq. lia. }
  rewrite D in Hvf, Hvg, He.
  cbn [c c_term c_leader c_state or_else leader_differs state_differs app]
    in Ht, He.
  erewrite bind_res by exact R. cbv beta.
  set (n1 := st (change (Some c) n)) in *.
  erewrite bind_run by apply modify_run.
  erewrite bind_run by (apply emit_other_run; exact I).
  erewrite bind_run by (apply this_write_run; apply L1).
  cbn [res st evs ret app term votes_for votes_granted set_votes_for].
  rewrite replies_app, Hrep, He, Ht, Hvg.
  repeat split; auto. now left.
Qed.

(** The [case 'voted'] on a live candidate whose term is behind the
    reply's: the handler's own [change] writes the term, and the vote record
    is the fresh one whether or not [quorum] then raises. *)
Lemma incoming_voted_ahead p n t g :
  live n -> state n = Some CANDIDATE -> p_payload p = Some g ->
  p_term p = Some t -> term n < t ->
  let r := incoming_voted p n in
  term (st r) = t /\ In (term_change t (term n)) (evs r) /\
  votes_for (st r) = None /\ votes_granted (st r) = 0.
Proof.
  intros H Hs Hp Et Hlt. cbv zeta. unfold incoming_voted.
  rewrite Hs, Hp, Et.
  change (negb (strict_role (Some CANDIDATE) (Some CANDIDATE))) with false.
  cbv iota.
  assert (Ne : (t =? term n) = false) by (apply Z.eqb_neq; lia).
  erewrite bind_run with (n1 := n) (e1 := []).
  2:{ cbv beta. cbn [strict_num]. rewrite Ne, andb_false_r. reflexivity. }
  set (c := {| c_term := Some t; c_leader := None; c_state := None |}).
  destruct (change_live c H)
    as (R & L1 & _ & Hno & Ht & _ & _ & Hvf & Hvg & _ & He).
  assert (D : term_differs c n = true).
  { unfold term_differs, c; cbn [c_term].
    apply negb_true_iff, Z.eqb_neq. lia. }
  rewrite D in Hvf, Hvg, He.
  cbn [c c_term c_leader c_state or_else leader_differs state_differs app]
    in Ht, He.
  assert (G : (term n <? t) = true) by (apply Z.ltb_lt; lia).
  erewrite bind_run with (n1 := st (change (Some c) n))
                         (e1 := [term_change t (term n)]).
  2:{ cbv beta. cbn [js_gt]. rewrite G. fold c.
      rewrite (run_eta (change (Some c) n)), R, He. reflexivity. }
  set (n1 := st (change (Some c) n)) in *. cbn [app].
  assert (Hin : forall l, In (term_change t (term n))
                            (term_change t (term n) :: l)) by (now left).
  destruct (nodes n1) as [l|] eqn:N.
  - erewrite bind_run by (apply quorum_run; exact N). cbv beta.
    assert (Hq : ((Z.of_nat (List.length l) + 1) / 2 + 1
                  <=? votes_granted n1) = false).
    { apply Z.leb_gt. rewrite Hvg.
      assert (0 <= (Z.of_nat (List.length l) + 1) / 2)
        by (apply Z.div_pos; lia). lia. }
    rewrite Hq. cbn [res st evs ret app]. auto.
  - erewrite bind_raise with (n1 := n1) (e1 := []).
    2:{ unfold quorum. rewrite N. reflexivity. }
    cbn [res st evs app]. auto.
Qed.

(* ================================================================== *)
(** ** The claims                                                      *)
(* ================================================================== *)

(** C1, as stated, fails: with one peer [quorum] returns 2 where
    [floor(1/2) + 1] is 1, and a candidate holding that one vote stays a
    candidate when a reply is tallied. *)
Lemma quorum_one_peer_counterexample :
  let n := set_nodes (Some ["N2"]) N1 in
  let N := Z.of_nat (List.length ["N2"]) in
  let candidate := st (promote n) in
  let r := call_read (Object (reply "N2" 1 (Some false))) candidate in
  res (quorum n) = Return 2 /\ N / 2 + 1 = 1 /\
  res (quorum n) <> Return (N / 2 + 1) /\
  state candidate = Some CANDIDATE /\
  votes_granted candidate = N / 2 + 1 /\
  res r = Return true /\ state (st r) = Some CANDIDATE.
Proof. vm_compute. repeat split; congruence. Qed.

(** C1, amended: [quorum] returns [ceil(N/2) + 1], that is
    [floor(N/2) + 1] for an even and [floor(N/2) + 2] for an odd number [N]
    of peers; a live candidate that tallies a reply carrying its own term,
    from a sender that does not claim leadership, becomes LEADER with itself
    as leader exactly when its granted count, after the tally, has reached
    that value. *)
Theorem quorum_ceil_and_election n l p g :
  live n -> state n = Some CANDIDATE -> nodes n = Some l ->
  p_type p = "voted" -> strict_role (Some LEADER) (p_state p) = false ->
  p_payload p = Some g -> p_term p = Some (term n) ->
  let N := Z.of_nat (List.length l) in
  let q := N / 2 + N mod 2 + 1 in
  let tally := votes_granted n + (if g then 1 else 0) in
  let r := call_read (Object p) n in
  quorum n = Run (Return q) n [] /\
  res r = Return true /\ votes_granted (st r) = tally /\
  (q <= tally -> state (st r) = Some LEADER /\ leader (st r) = Some (name n)) /\
  (tally < q -> state (st r) = Some CANDIDATE /\ leader (st r) = leader n).
Proof.
  intros H Hs Hn Hty Hps Hp Ht. cbv zeta.
  assert (Eq : Z.of_nat (List.length l) / 2 + Z.of_nat (List.length l) mod 2 + 1
               = (Z.of_nat (List.length l) + 1) / 2 + 1).
  { Z.to_euclidean_division_equations. lia. }
  rewrite Eq. split; [now apply quorum_run|].
  rewrite call_read_live by exact H.
  destruct (incoming_voted_live p H Hs Hn Hp Ht) as (R & _ & Hg & _ & Hq).
  rewrite <- (incoming_tally p H Hs Hn Hty Hps Hp Ht) in R, Hg, Hq.
  erewrite bind_ret by exact R. cbn [res st].
  split; [reflexivity|]. split; [exact Hg|].
  split; intros Hle;
    [apply Z.leb_le in Hle | apply Z.leb_gt in Hle];
    rewrite Hle in Hq; exact Hq.
Qed.

(** C1 at a concrete input: [N1] as a candidate with two peers becomes
    LEADER on the first granted reply, its second vote. *)
Lemma quorum_ceil_and_election_witness :
  let n := st (promote (set_nodes (Some ["N2"; "N3"]) N1)) in
  let p := reply "N2" 1 (Some true) in
  live n /\ state n = Some CANDIDATE /\ nodes n = Some ["N2"; "N3"] /\
  quorum n = Run (Return 2) n [] /\
  state (st (call_read (Object p) n)) = Some LEADER.
Proof.
  cbv zeta.
  assert (L : live (st (promote (set_nodes (Some ["N2"; "N3"]) N1))))
    by (unfold live; vm_compute; repeat split; eauto).
  assert (Hs : state (st (promote (set_nodes (Some ["N2"; "N3"]) N1)))
               = Some CANDIDATE) by (vm_compute; reflexivity).
  assert (Hn : nodes (st (promote (set_nodes (Some ["N2"; "N3"]) N1)))
               = Some ["N2"; "N3"]) by (vm_compute; reflexivity).
  assert (Ht : p_term (reply "N2" 1 (Some true))
               = Some (term (st (promote (set_nodes (Some ["N2"; "N3"]) N1)))))
    by (vm_compute; reflexivity).
  destruct (@quorum_ceil_and_election _ _ (reply "N2" 1 (Some true)) true
              L Hs Hn eq_refl eq_refl eq_refl Ht) as (Q & _ & _ & W & _).
  split; [exact L|]. split; [exact Hs|]. split; [exact Hn|].
  split; [exact Q|].
  apply W. vm_compute. discriminate.
Defined.

(** C2: on the elected leader the heartbeat timer is pending; when it
    expires the callback returns without writing to the transport, without
    emitting an event, and leaves no heartbeat timer pending. *)
Theorem leader_heartbeat_expiry_is_silent :
  state elected = Some LEADER /\ leader elected = Some "N1" /\
  pending "heartbeat" elected = true /\
  let r := expire "heartbeat" elected in
  res r = Return tt /\ evs r = [] /\
  pending "heartbeat" (st r) = false /\ timers (st r) = Some [].
Proof. vm_compute. repeat split. Qed.

(** C3: along every sequence of calls and timer expiries the term never
    goes down, whatever the node and whatever the inputs. *)
Theorem term_monotone (l1 l2 : list input) (n : node) :
  term n <= term (after l1 n) /\
  term (after l1 n) <= term (after (l1 ++ l2) n).
Proof.
  split.
  - apply (after_evolves l1 n).
  - rewrite after_app. apply (after_evolves l2 (after l1 n)).
Qed.




(** C5: a packet whose term is below the node's is dropped: [read] returns,
    no field of the node changes and nothing is emitted or written, whatever
    the kind of the packet. *)
Theorem stale_packet_dropped n p t :
  read_null n = false -> p_term p = Some t -> t < term n ->
  call_read (Object p) n = Run (Return (listening n)) n [].
Proof.
  intros Hr Ht Hlt. unfold call_read, read. rewrite Hr.
  destruct (listening n); [|reflexivity].
  unfold bind. rewrite incoming_object, Ht. cbn [js_gt js_lt].
  assert (G : (term n <? t) = false) by (apply Z.ltb_ge; lia).
  assert (L : (t <? term n) = true) by (apply Z.ltb_lt; lia).
  rewrite G, L. reflexivity.
Qed.

(** C5 at a concrete input: [N1] at term 5 drops a solicitation of
    term 3. *)
Lemma stale_packet_dropped_witness :
  let n := set_term 5 N1 in
  let p := solicit (Some "X") 3 in
  read_null n = false /\ p_term p = Some 3 /\ 3 < term n /\
  call_read (Object p) n = Run (Return true) n [].
Proof.
  cbv zeta. split; [reflexivity|]. split; [reflexivity|].
  split; [reflexivity|].
  apply (@stale_packet_dropped (set_term 5 N1) (solicit (Some "X") 3) 3);
    reflexivity.
Defined.

(** C6, as stated, fails: [end] removes the listeners, and [promote] on the
    stopped node moves the term while the vote record is left as it was at
    the point the term change takes effect.  The node is [N1] elected by
    one reply in a cluster of three, holding two votes at term 1. *)
Lemma term_advance_after_end_counterexample :
  let winner :=
    after [Promote; Read (Object (reply "N2" 1 (Some true)))]
          (set_nodes (Some ["N2"; "N3"]) N1) in
  let stopped := st (end_ winner) in
  let c := {| c_state := Some CANDIDATE;
              c_term := Some (plus_one (term stopped));
              c_leader := Some EmptyString |} in
  let r := change (Some c) stopped in
  res (end_ winner) = Return true /\
  term stopped = 1 /\ votes_for stopped = Some "N1" /\
  votes_granted stopped = 2 /\
  term (st r) = 2 /\ In (term_change 2 1) (evs r) /\
  votes_for (st r) = Some "N1" /\ votes_granted (st r) = 2 /\
  votes_for (st r) <> None /\ votes_granted (st r) <> 0 /\
  term (st (promote stopped)) = 2.
Proof. vm_compute. repeat split; auto; congruence. Qed.

(** C6, amended: whenever the term of a live node advances, in whatever
    transition, ['term change'] is emitted and the vote record is reset to
    [(none, 0)] at the point the term change takes effect.  This is so for
    every [change] that writes a term, and for the handlers of ['vote'] and
    ['voted'] when they find the packet ahead; and every call or timer
    expiry that moves the term has emitted the event and ends with the fresh
    record, or with what the same transition recorded on it after the
    reset: the grant to the candidate whose solicitation carried the new
    term, or the self-vote of [promote].  [write], [heartbeat] and [end]
    never move the term. *)
Theorem term_advance_resets_votes n :
  live n ->
  (forall c t,
     c_term c = Some t -> t <> term n ->
     let r := change (Some c) n in
     res r = Return tt /\ term (st r) = t /\
     votes_for (st r) = None /\ votes_granted (st r) = 0 /\
     In (term_change t (term n)) (evs r)) /\
  (forall p t,
     p_term p = Some t -> term n < t ->
     let r := incoming_vote p n in
     res r = Return tt /\ term (st r) = t /\
     In (term_change t (term n)) (evs r) /\
     votes_for (st r) = p_name p /\ votes_granted (st r) = 0 /\
     replies (evs r) = [true]) /\
  (forall p t g,
     state n = Some CANDIDATE -> p_payload p = Some g ->
     p_term p = Some t -> term n < t ->
     let r := incoming_voted p n in
     term (st r) = t /\ In (term_change t (term n)) (evs r) /\
     votes_for (st r) = None /\ votes_granted (st r) = 0) /\
  (forall i,
     let r := step i n in
     term (st r) <> term n ->
     In (term_change (term (st r)) (term n)) (evs r) /\
     match i with
     | Read packet =>
         votes_granted (st r) = 0 /\
         (votes_for (st r) = None \/
          exists p, packet = Object p /\ p_type p = "vote" /\
                    votes_for (st r) = p_name p /\
                    replies (evs r) = [true])
     | Promote | Expire _ =>
         votes_for (st r) = Some (name n) /\ votes_granted (st r) = 1
     | Write _ | Heartbeat _ | End => False
     end).
Proof.
  intros H. split.
  - intros c t Hc Hne. cbv zeta.
    destruct (change_live c H)
      as (R & _ & _ & _ & Ht & _ & _ & Hvf & Hvg & _ & He).
    assert (D : term_differs c n = true).
    { unfold term_differs. rewrite Hc. now apply negb_true_iff, Z.eqb_neq. }
    rewrite D in Hvf, Hvg, He. rewrite Hc in Ht, He. cbn [or_else] in Ht, He.
    repeat split; auto. rewrite He. left. reflexivity.
  - split; [intros p t Et Hlt; now apply incoming_vote_ahead|].
    split; [intros p t g Hs Hp Et Hlt;
            exact (@incoming_voted_ahead p n t g H Hs Hp Et Hlt)|].
    intros i. cbv zeta. destruct i as [packet|packet|timer| |duration|];
      cbn [step].
    + destruct (forget_run (call_read packet) n) as (-> & ->). intros Hne.
      destruct (read_term_advance packet H Hne) as (p & t & -> & Et & Hlt).
      destruct (higher_term_effect p H Et Hlt)
        as (_ & _ & T & _ & _ & Vg & Vf & Rp & Hin & _).
      rewrite T. split; [exact Hin|]. split; [exact Vg|].
      destruct (String.eqb_spec (p_type p) "vote") as [Hty|_].
      * right. exists p. auto.
      * left. exact Vf.
    + destruct (forget_run (call_write packet) n) as (-> & _). intros Hne.
      exfalso. apply Hne, stable_call_write.
    + now apply expire_advance.
    + now apply promote_advance.
    + intros Hne. exfalso. apply Hne, stable_heartbeat.
    + destruct (forget_run end_ n) as (-> & _). intros Hne.
      exfalso. apply Hne, stable_end.
Qed.

(** C6 at a concrete input: the candidate [N1], holding its own vote at
    term 1, is sent to term 7 by a [change], by a heartbeat and by a vote
    solicitation, and goes to term 2 when its election timer expires. *)
Lemma term_advance_resets_votes_witness :
  let n := st (promote N1) in
  let c := {| c_term := Some 7; c_leader := None; c_state := Some FOLLOWER |} in
  let beat := packet "heartbeat" None (set_term 7 elected) in
  let ask := solicit (Some "N2") 7 in
  live n /\ term n = 1 /\ votes_for n = Some "N1" /\ votes_granted n = 1 /\
  (votes_for (st (change (Some c) n)) = None /\
   votes_granted (st (change (Some c) n)) = 0) /\
  (votes_for (st (step (Read (Object beat)) n)) = None /\
   votes_granted (st (step (Read (Object beat)) n)) = 0) /\
  (votes_for (st (step (Read (Object ask)) n)) = Some "N2" /\
   votes_granted (st (step (Read (Object ask)) n)) = 0) /\
  (term (st (step (Expire "election") n)) = 2 /\
   In (term_change 2 1) (evs (step (Expire "election") n)) /\
   votes_granted (st (step (Expire "election") n)) = 1).
Proof.
  cbv zeta.
  assert (L : live (st (promote N1)))
    by (unfold live; vm_compute; repeat split; eauto).
  destruct (@term_advance_resets_votes (st (promote N1)) L)
    as (W1 & _ & _ & W2).
  assert (Hne : 7 <> term (st (promote N1))) by (vm_compute; discriminate).
  destruct (W1 {| c_term := Some 7; c_leader := None;
                  c_state := Some FOLLOWER |} 7 eq_refl Hne)
    as (_ & _ & A1 & A2 & _).
  assert (Hb : term (st (step (Read (Object
                 (packet "heartbeat" None (set_term 7 elected))))
                 (st (promote N1)))) <> term (st (promote N1)))
    by (vm_compute; discriminate).
  destruct (W2 _ Hb) as (_ & B1 & B2).
  assert (Ha : term (st (step (Read (Object (solicit (Some "N2") 7)))
                 (st (promote N1)))) <> term (st (promote N1)))
    by (vm_compute; discriminate).
  destruct (W2 _ Ha) as (_ & C1 & _).
  assert (He : term (st (step (Expire "election") (st (promote N1))))
               <> term (st (promote N1)))
    by (vm_compute; discriminate).
  destruct (W2 _ He) as (D1 & _ & D2).
  split; [exact L|]. split; [vm_compute; reflexivity|].
  split; [vm_compute; reflexivity|]. split; [vm_compute; reflexivity|].
  split; [split; [exact A1 | exact A2]|].
  split; [split; [vm_compute; reflexivity | exact B1]|].
  split; [split; [vm_compute; reflexivity | exact C1]|].
  split; [vm_compute; reflexivity|]. split; [|exact D2].
  vm_compute. left. reflexivity.
Defined.

(** C7, as stated, fails: once [end] has returned true, [read] and [write]
    are [null] on the node and a call of either raises a TypeError. *)
Lemma read_after_end_counterexample :
  let stopped := st (end_ N1) in
  res (end_ N1) = Return true /\
  res (call_read (Object (solicit (Some "X") 0)) stopped) <> Return false /\
  res (call_read (Object (solicit (Some "X") 0)) stopped)
    = Raise (TypeError "node.read is not a function") /\
  res (call_write (solicit (Some "X") 0) stopped)
    = Raise (TypeError "node.write is not a function").
Proof. vm_compute. repeat split; congruence. Qed.

(** C7, amended: after [end] has returned true, and as long as [read],
    [write] and [end] are the only calls made on the node, every call of
    [end] is a no-op that returns false and raises nothing, and every call
    of [read] or [write] raises a TypeError, the two having been set to
    [null], and leaves the node as it is: after any sequence of such calls
    the node is the one [end] left.  ([promote] is not one of these calls:
    it sets the role again.) *)
Theorem calls_after_end n :
  res (end_ n) = Return true ->
  let stopped := st (end_ n) in
  forall l, forallb read_write_end l = true ->
    let n' := after l stopped in
    n' = stopped /\
    end_ n' = Run (Return false) n' [] /\
    (forall packet,
       call_read packet n' =
         Run (Raise (TypeError "node.read is not a function")) n' []) /\
    (forall packet,
       call_write packet n' =
         Run (Raise (TypeError "node.write is not a function")) n' []).
Proof.
  intros H. cbv zeta.
  destruct (end_true n H) as (s & r & Hs & Ht).
  rewrite (end_run n Hs Ht). cbn [st].
  assert (Hsame : forall l, forallb read_write_end l = true ->
                    after l (stopped_from n) = stopped_from n).
  { induction l as [|i l IH]; [reflexivity|].
    cbn [forallb]. intros Hl. apply andb_true_iff in Hl as (Hi & Hl).
    destruct i; try discriminate; cbn [after]; rewrite <- (IH Hl) at 2;
      reflexivity. }
  intros l Hl. rewrite (Hsame l Hl).
  split; [reflexivity|]. split; [reflexivity|]. split; reflexivity.
Qed.

(** C7 at a concrete input: [N1] after [end], then [read], [write] and
    [end] again. *)
Lemma calls_after_end_witness :
  let stopped := st (end_ N1) in
  let l := [Read Null; Write (solicit None 0); End] in
  res (end_ N1) = Return true /\
  after l stopped = stopped /\
  end_ (after l stopped) = Run (Return false) (after l stopped) [].
Proof.
  cbv zeta.
  destruct (@calls_after_end N1 eq_refl
              [Read Null; Write (solicit None 0); End] eq_refl)
    as (W1 & W2 & _).
  split; [reflexivity|]. split; [exact W1 | exact W2].
Defined.

(** C8, as stated, fails: after [promote] on a fresh node both the heartbeat
    and the election timer are pending. *)
Lemma promote_arms_both_timers_counterexample :
  let n := st (promote N1) in
  res (promote N1) = Return tt /\
  pending "heartbeat" n = true /\ pending "election" n = true.
Proof. vm_compute. repeat split. Qed.

(** C8, amended: a role change on a live node, whatever its role and its
    timers, clears all timers and arms the heartbeat timer alone, so right
    after it the election timer is not pending; [promote] on a live node
    that is not yet a candidate then arms the election timer as well, and
    when it returns both timers are pending. *)
Theorem timers_after_role_change_and_promote n :
  live n ->
  (forall c, state_differs c n = true ->
     let n' := st (change (Some c) n) in
     timers n' = Some heartbeat_only /\
     pending "heartbeat" n' = true /\ pending "election" n' = false) /\
  (strict_role (Some CANDIDATE) (state n) = false ->
   let r := promote n in
   res r = Return tt /\
   pending "heartbeat" (st r) = true /\ pending "election" (st r) = true).
Proof.
  intros H. split.
  - intros c D. cbv zeta.
    destruct (change_live c H) as (_ & _ & _ & _ & _ & _ & _ & _ & _ & Ht & _).
    rewrite D in Ht. unfold pending. rewrite Ht. repeat split.
  - intros Hs. cbv zeta.
    destruct (promote_live H Hs) as (R & _ & _ & _ & _ & _ & _ & d & Ht).
    unfold pending. rewrite Ht. repeat split; auto.
Qed.

(** C8 at a concrete input: the candidate [N1], whose election timer is
    pending, is sent back to FOLLOWER, and the fresh [N1] promotes itself. *)
Lemma timers_after_role_change_and_promote_witness :
  let candidate := st (promote N1) in
  let c := {| c_term := None; c_leader := None; c_state := Some FOLLOWER |} in
  live candidate /\ state candidate = Some CANDIDATE /\
  pending "election" candidate = true /\
  state_differs c candidate = true /\
  pending "heartbeat" (st (change (Some c) candidate)) = true /\
  pending "election" (st (change (Some c) candidate)) = false /\
  live N1 /\
  pending "heartbeat" (st (promote N1)) = true /\
  pending "election" (st (promote N1)) = true.
Proof.
  cbv zeta.
  assert (L : live (st (promote N1)))
    by (unfold live; vm_compute; repeat split; eauto).
  assert (D : state_differs
                {| c_term := None; c_leader := None;
                   c_state := Some FOLLOWER |} (st (promote N1)) = true)
    by (vm_compute; reflexivity).
  destruct (@timers_after_role_change_and_promote (st (promote N1)) L)
    as (W & _).
  destruct (W _ D) as (_ & W1 & W2).
  assert (L1 : live N1) by (unfold live; vm_compute; repeat split; eauto).
  destruct (@timers_after_role_change_and_promote N1 L1) as (_ & V).
  destruct (V eq_refl) as (_ & V1 & V2).
  split; [exact L|]. split; [vm_compute; reflexivity|].
  split; [vm_compute; reflexivity|]. split; [exact D|].
  split; [exact W1|]. split; [exact W2|]. split; [exact L1|].
  split; [exact V1 | exact V2].
Defined.

(** C9: [read(null)] on a fresh node raises, and so does a ['voted'] packet
    without payload on a candidate: [typeof null] is ['object'], and
    [data.payload.granted] is read without a check. *)
Theorem read_raises_on_null_and_missing_payload :
  live N1 /\
  res (call_read Null N1)
    = Raise (TypeError "cannot read property 'term' of null") /\
  let candidate := st (promote N1) in
  live candidate /\
  res (call_read (Object (reply "N2" 1 None)) candidate)
    = Raise (TypeError "data.payload is undefined").
Proof.
  unfold live. vm_compute. repeat split; eauto.
Qed.

(** C10: no call of [read] writes anything to [leader] but the node's own
    name, and along every sequence of calls and timer expiries [leader] is
    the value it had at the start, the empty string or the node's own name,
    which never changes; the sender's name is never copied into it. *)
Theorem leader_never_sender :
  (forall packet n,
     let n' := st (call_read packet n) in
     name n' = name n /\
     (leader n' = leader n \/ leader n' = Some (name n))) /\
  (forall l n,
     let n' := after l n in
     name n' = name n /\
     (leader n' = leader n \/ leader n' = Some (name n) \/
      leader n' = Some EmptyString)).
Proof.
  split.
  - intros packet n.
    destruct (respects_call_read packet n) as (_ & Hn & [E | [E | [E _]]]);
      try discriminate; auto.
  - intros l n.
    destruct (after_evolves l n) as (_ & Hn & [E | [E | [_ E]]]); auto.
Qed.

(* ================================================================== *)
(** ** Further properties of the methods                              *)
(* ================================================================== *)

Lemma floor_scaled r m :
  (0 <= r)%Q -> (r < 1)%Q -> 0 < m ->
  0 <= Qfloor (r * inject_Z m)%Q < m.
Proof.
  intros H0 H1 Hm. split.
  - change 0 with (Qfloor 0). apply Qfloor_resp_le.
    apply Qmult_le_0_compat; [exact H0|].
    change 0%Q with (inject_Z 0). rewrite <- Zle_Qle. lia.
  - apply Z.lt_nge. intros Hge.
    assert (Hle : (inject_Z m <= r * inject_Z m)%Q).
    { eapply Qle_trans; [|apply Qfloor_le]. rewrite <- Zle_Qle. exact Hge. }
    assert (Hlt : (r * inject_Z m < 1 * inject_Z m)%Q).
    { apply Qmult_lt_compat_r; [|exact H1].
      change 0%Q with (inject_Z 0). rewrite <- Zlt_Qlt. exact Hm. }
    rewrite Qmult_1_l in Hlt.
    exact (Qlt_not_le _ _ Hlt Hle).
Qed.

Lemma hex_is_hex v : 0 <= v < 16 -> is_hex (hex v) = true.
Proof.
  intros H.
  assert (E : v = 0 \/ v = 1 \/ v = 2 \/ v = 3 \/ v = 4 \/ v = 5 \/ v = 6 \/
              v = 7 \/ v = 8 \/ v = 9 \/ v = 10 \/ v = 11 \/ v = 12 \/
              v = 13 \/ v = 14 \/ v = 15) by lia.
  repeat (destruct E as [-> | E]; [reflexivity|]). subst. reflexivity.
Qed.

Lemma variant_nibble x : is_variant (hex (Z.lor (Z.land x 3) 8)) = true.
Proof.
  change 3 with (Z.ones 2). rewrite Z.land_ones by lia.
  assert (H : 0 <= x mod 2 ^ 2 < 4) by (apply Z.mod_pos_bound; lia).
  assert (E : x mod 2 ^ 2 = 0 \/ x mod 2 ^ 2 = 1 \/ x mod 2 ^ 2 = 2
              \/ x mod 2 ^ 2 = 3) by lia.
  destruct E as [-> | [-> | [-> | ->]]]; reflexivity.
Qed.

Lemma random_digit random k :
  unit_interval random ->
  is_hex (hex (Z.lor (Qfloor (random k * 16)%Q) 0)) = true.
Proof.
  intros H. rewrite Z.lor_0_r. apply hex_is_hex.
  destruct (H k) as (H0 & H1).
  apply (floor_scaled H0 H1 (m := 16)). lia.
Qed.

(** X1: [UUID()] consumes 31 random numbers and returns 36 characters in the
    8-4-4-4-12 form: hyphens at the four group boundaries, [4] as the first
    digit of the third group, one of [8 9 a b] as the first digit of the
    fourth, and lower-case hexadecimal digits everywhere else. *)
Theorem UUID_shape random k :
  unit_interval random ->
  let s := fst (UUID random k) in
  snd (UUID random k) = (k + 31)%nat /\
  String.length s = 36%nat /\
  (forall i c, String.get i s = Some c ->
     if existsb (Nat.eqb i) [8; 13; 18; 23]%nat then c = "-"%char
     else if Nat.eqb i 14 then c = "4"%char
     else if Nat.eqb i 19 then is_variant c = true
     else is_hex c = true).
Proof.
  intros H. cbv zeta. unfold UUID.
  cbn -[Qfloor Qmult Z.lor Z.land hex is_hex is_variant Nat.add].
  split; [lia|]. split; [reflexivity|].
  intros i c.
  do 36 (destruct i as [|i];
         [cbn -[Qfloor Qmult Z.lor Z.land hex is_hex is_variant];
          intros [= <-];
          first [ reflexivity | apply variant_nibble | now apply random_digit ]
         |]).
  cbn. discriminate.
Qed.

Lemma UUID_shape_witness :
  unit_interval halves /\
  fst (UUID halves 0) = "88888888-8888-4888-8888-888888888888" /\
  String.length (fst (UUID halves 0)) = 36%nat.
Proof.
  assert (H : unit_interval halves).
  { intros k. split; vm_compute; congruence. }
  destruct (@UUID_shape halves 0%nat H) as (_ & W & _).
  split; [exact H|]. split; [reflexivity | exact W].
Defined.

Lemma UUID_not_empty random k : fst (UUID random k) <> EmptyString.
Proof.
  unfold UUID. cbn -[Qfloor Qmult Z.lor Z.land hex]. discriminate.
Qed.



(** X4: [heartbeat(duration)] on a node that has its timers returns without
    an event and touches the registry only at the name ['heartbeat']: that
    timer is pending afterwards, with the given duration, or with [NaN] when
    none (or 0) is given, since [timeout('heartbeat')] is [NaN]; every other
    timer, and the term, role, leader and vote record, stay as they are. *)
Theorem heartbeat_arms_or_adjusts duration n r :
  timers n = Some r ->
  let run := heartbeat duration n in
  res run = Return tt /\ evs run = [] /\
  (exists r',
     timers (st run) = Some r' /\
     (exists x, Tick.find "heartbeat" r' = Some x /\
                Tick.ms x = carried duration) /\
     (forall other, other <> "heartbeat" ->
        Tick.find other r' = Tick.find other r)) /\
  term (st run) = term n /\ state (st run) = state n /\
  leader (st run) = leader n /\ votes_for (st run) = votes_for n /\
  votes_granted (st run) = votes_granted n /\
  listening (st run) = listening n.
Proof. intros Ht. exact (heartbeat_effect duration n Ht). Qed.

Lemma heartbeat_arms_or_adjusts_witness :
  let n := st (promote N1) in
  timers n =
    Some [("heartbeat", Tick.Timer heartbeat_expired NaN);
          ("election", Tick.Timer promote_fn (Num 225))] /\
  timers (st (heartbeat (Some 60) n)) =
    Some [("heartbeat", Tick.Timer heartbeat_expired (Num 60));
          ("election", Tick.Timer promote_fn (Num 225))].
Proof.
  cbv zeta.
  assert (Ht : timers (st (promote N1)) =
    Some [("heartbeat", Tick.Timer heartbeat_expired NaN);
          ("election", Tick.Timer promote_fn (Num 225))])
    by (vm_compute; reflexivity).
  destruct (@heartbeat_arms_or_adjusts (Some 60) _ _ Ht)
    as (_ & _ & (r' & _ & _ & _) & _).
  split; [exact Ht | vm_compute; reflexivity].
Defined.

(** X5: a value that is no object ([undefined], a boolean, a number, a
    string) is dropped by [read]: the node is unchanged, nothing is emitted
    and nothing raised. *)
Theorem non_object_dropped packet n :
  read_null n = false -> typeof packet <> "object" ->
  call_read packet n = Run (Return (listening n)) n [].
Proof.
  intros Hr Hty. unfold call_read, read. rewrite Hr.
  destruct (listening n); [|reflexivity].
  destruct packet; try reflexivity; now contradiction Hty.
Qed.

Lemma non_object_dropped_witness :
  read_null N1 = false /\ typeof (Text "vote") <> "object" /\
  call_read (Text "vote") N1 = Run (Return true) N1 [].
Proof.
  assert (Hty : typeof (Text "vote") <> "object") by discriminate.
  split; [reflexivity|]. split; [exact Hty|].
  exact (@non_object_dropped (Text "vote") N1 eq_refl Hty).
Defined.

(** X6: at a term that is neither behind nor ahead of the node's, a packet
    from a sender that does not claim leadership is ignored unless it is a
    vote solicitation or, on a candidate, a vote reply: a heartbeat from a
    non-leader, an ['rpc'], an unknown kind, and a ['voted'] reply reaching
    a node that is no candidate (with or without payload) leave the node
    unchanged and emit nothing. *)
Theorem ignored_packets p n :
  listening n = true -> read_null n = false ->
  js_gt (p_term p) (term n) = false -> js_lt (p_term p) (term n) = false ->
  strict_role (Some LEADER) (p_state p) = false ->
  (p_type p =? "vote")%string = false ->
  ((p_type p =? "voted")%string
   && strict_role (Some CANDIDATE) (state n)) = false ->
  call_read (Object p) n = Run (Return true) n [].
Proof.
  intros Hl Hr G L Hs Hv Hc. unfold call_read, read. rewrite Hr, Hl.
  unfold bind. rewrite incoming_object, G, L.
  erewrite bind_run by (apply recognize_leader_skip; exact Hs).
  unfold dispatch. rewrite Hs, Hv.
  destruct (p_type p =? "heartbeat")%string; [reflexivity|].
  destruct (p_type p =? "voted")%string.
  - unfold incoming_voted. cbn [andb] in Hc. rewrite Hc. reflexivity.
  - destruct (p_type p =? "rpc")%string; reflexivity.
Qed.

Lemma ignored_packets_witness :
  let p := reply "N2" 0 None in
  listening N1 = true /\ state N1 = Some FOLLOWER /\ p_payload p = None /\
  call_read (Object p) N1 = Run (Return true) N1 [].
Proof.
  cbv zeta. split; [reflexivity|]. split; [reflexivity|].
  split; [reflexivity|].
  apply (@ignored_packets (reply "N2" 0 None) N1); reflexivity.
Defined.

(** X7: a packet of a higher term, of whatever kind and from whatever
    sender, takes a live node to FOLLOWER at that term: ['term change'] is
    emitted, the vote record is reset, and only a vote solicitation is then
    answered, with a grant that records the candidate.  The leader field is
    left as it is; a node that was no follower has its timers cleared and
    the heartbeat timer armed, so an election timer is cancelled. *)
Theorem higher_term_demotes p n t :
  live n -> p_term p = Some t -> term n < t ->
  let run := call_read (Object p) n in
  let is_vote := (p_type p =? "vote")%string in
  res run = Return true /\ live (st run) /\
  term (st run) = t /\ state (st run) = Some FOLLOWER /\
  leader (st run) = leader n /\ votes_granted (st run) = 0 /\
  votes_for (st run) = (if is_vote then p_name p else None) /\
  replies (evs run) = (if is_vote then [true] else []) /\
  In (term_change t (term n)) (evs run) /\
  duration_of "election" (st run) =
    (if strict_role (Some FOLLOWER) (state n)
     then duration_of "election" n else None).
Proof. intros H Et Hlt. exact (higher_term_effect p H Et Hlt). Qed.

Lemma higher_term_demotes_witness :
  let n := st (promote N1) in
  let p := solicit (Some "N2") 7 in
  live n /\ state n = Some CANDIDATE /\ term n < 7 /\
  state (st (call_read (Object p) n)) = Some FOLLOWER /\
  term (st (call_read (Object p) n)) = 7 /\
  votes_for (st (call_read (Object p) n)) = Some "N2".
Proof.
  cbv zeta.
  assert (L : live (st (promote N1)))
    by (unfold live; vm_compute; repeat split; eauto).
  assert (Hlt : term (st (promote N1)) < 7) by (vm_compute; reflexivity).
  destruct (@higher_term_demotes (solicit (Some "N2") 7) _ 7 L eq_refl Hlt)
    as (_ & _ & W1 & W2 & _ & _ & W3 & _).
  split; [exact L|]. split; [vm_compute; reflexivity|].
  split; [exact Hlt|]. split; [exact W2|]. split; [exact W1 | exact W3].
Defined.

(** X8: a packet that claims leadership at a term that is neither behind nor
    ahead takes a live node that is no follower, a candidate or another
    leader, back to FOLLOWER at its own term: ['state change'] is emitted
    first, all timers are cleared and the heartbeat timer armed (with the
    duration a heartbeat carries), and the term, the leader field and the
    granted count stay as they are. *)
Theorem leader_recognized p n :
  live n ->
  js_gt (p_term p) (term n) = false -> js_lt (p_term p) (term n) = false ->
  strict_role (Some LEADER) (p_state p) = true ->
  strict_role (Some FOLLOWER) (state n) = false ->
  let run := call_read (Object p) n in
  res run = Return true /\ live (st run) /\
  state (st run) = Some FOLLOWER /\ term (st run) = term n /\
  leader (st run) = leader n /\ votes_granted (st run) = votes_granted n /\
  (exists rest, evs run = state_change (Some FOLLOWER) (state n) :: rest) /\
  duration_of "election" (st run) = None /\
  duration_of "heartbeat" (st run) =
    Some (if (p_type p =? "heartbeat")%string then carried (p_data p)
          else NaN).
Proof.
  intros H G L Hp Hs. cbv zeta.
  pose (c := {| c_term := None; c_leader := None; c_state := Some FOLLOWER |}).
  destruct (change_live c H)
    as (R & L1 & _ & _ & Ht1 & Hl1 & Hs1 & _ & Hvg1 & Hti & He).
  assert (D : state_differs c n = true)
    by (unfold state_differs, c; cbn [c_state]; now rewrite Hs).
  rewrite D in Hti, He.
  cbn [c term_differs leader_differs c_term c_leader c_state or_else or_keep
       app] in Ht1, Hl1, Hs1, Hvg1, He.
  set (n1 := st (change (Some c) n)) in *.
  assert (G1 : js_gt (p_term p) (term n1) = false) by now rewrite Ht1.
  assert (L1' : js_lt (p_term p) (term n1) = false) by now rewrite Ht1.
  assert (C1 : strict_role (Some CANDIDATE) (state n1) = false)
    by (rewrite Hs1; reflexivity).
  destruct (dispatch_settled p L1 C1 G1 L1')
    as (R2 & L2 & T2 & S2 & Le2 & _ & Vg2 & _ & _ & _ & Do2 & Dh2).
  assert (E : incoming (Object p) n =
              Run (Return tt) (st (dispatch p n1))
                  (evs (change (Some c) n) ++ evs (dispatch p n1))).
  { rewrite incoming_object, G, L.
    assert (E1 : recognize_leader p n = change (Some c) n).
    { unfold recognize_leader. rewrite Hp, Hs. reflexivity. }
    erewrite bind_res by (rewrite E1; exact R).
    rewrite E1. fold n1. rewrite R2. reflexivity. }
  rewrite (@incoming_run_eq p n _ E H eq_refl). cbn [res st evs].
  rewrite T2, S2, Le2, Vg2, Dh2, (Do2 "election") by discriminate.
  rewrite He, Hp, andb_true_r.
  unfold duration_of. rewrite Hti. cbn.
  repeat split; eauto; try apply L2.
  destruct (p_type p =? "heartbeat")%string; reflexivity.
Qed.

Lemma leader_recognized_witness :
  let n := st (promote N2) in
  let p := packet "heartbeat" (Some 60) elected in
  live n /\ state n = Some CANDIDATE /\ p_term p = Some (term n) /\
  state (st (call_read (Object p) n)) = Some FOLLOWER /\
  duration_of "election" (st (call_read (Object p) n)) = None /\
  duration_of "heartbeat" (st (call_read (Object p) n)) = Some (Num 60).
Proof.
  cbv zeta.
  assert (L : live (st (promote N2)))
    by (unfold live; vm_compute; repeat split; eauto).
  destruct (@leader_recognized (packet "heartbeat" (Some 60) elected)
              (st (promote N2)) L)
    as (_ & _ & W1 & _ & _ & _ & _ & W2 & W3);
    try (vm_compute; reflexivity).
  split; [exact L|]. split; [vm_compute; reflexivity|].
  split; [vm_compute; reflexivity|].
  split; [exact W1|]. split; [exact W2 | exact W3].
Defined.

(** X9: a heartbeat from a leader at the follower's own term only resets the
    watchdog: [read] returns true without any event, the heartbeat timer is
    pending with the carried duration, and the term, role, vote record,
    every other timer and the leader field, which does not take the
    sender's name, are untouched. *)
Theorem leader_heartbeat_resets_watchdog p n :
  live n -> state n = Some FOLLOWER ->
  js_gt (p_term p) (term n) = false -> js_lt (p_term p) (term n) = false ->
  p_type p = "heartbeat" -> strict_role (Some LEADER) (p_state p) = true ->
  let run := call_read (Object p) n in
  res run = Return true /\ evs run = [] /\ live (st run) /\
  duration_of "heartbeat" (st run) = Some (carried (p_data p)) /\
  (forall other, other <> "heartbeat" ->
     duration_of other (st run) = duration_of other n) /\
  term (st run) = term n /\ state (st run) = Some FOLLOWER /\
  leader (st run) = leader n /\ votes_for (st run) = votes_for n /\
  votes_granted (st run) = votes_granted n.
Proof.
  intros H Hs G L Hty Hp. cbv zeta.
  assert (C : strict_role (Some CANDIDATE) (state n) = false)
    by (rewrite Hs; reflexivity).
  destruct (dispatch_settled p H C G L)
    as (R2 & L2 & T2 & S2 & Le2 & _ & Vg2 & Vf2 & Rp2 & Hev & Do2 & Dh2).
  rewrite Hty, Hp in *. cbn [String.eqb Ascii.eqb Bool.eqb andb] in *.
  assert (E : incoming (Object p) n =
              Run (Return tt) (st (dispatch p n)) (evs (dispatch p n))).
  { rewrite incoming_object, G, L.
    erewrite bind_run by (apply recognize_leader_follower; exact Hs).
    rewrite R2. reflexivity. }
  rewrite (@incoming_run_eq p n _ E H eq_refl). cbn [res st evs].
  assert (Enil : evs (dispatch p n) = []).
  { unfold dispatch. rewrite Hty, Hp.
    cbn [String.eqb Ascii.eqb Bool.eqb].
    destruct H as (_ & (r & Ht) & _).
    rewrite (heartbeat_run (p_data p) n Ht). reflexivity. }
  rewrite T2, S2, Le2, Vg2, Vf2, Dh2, Enil, Hs.
  repeat split; auto; apply L2.
Qed.

Lemma leader_heartbeat_resets_watchdog_witness :
  let n := set_term 1 N2 in
  let p := packet "heartbeat" (Some 60) elected in
  live n /\ state n = Some FOLLOWER /\ p_name p = Some "N1" /\
  leader (st (call_read (Object p) n)) = None /\
  duration_of "heartbeat" (st (call_read (Object p) n)) = Some (Num 60).
Proof.
  cbv zeta.
  assert (L : live (set_term 1 N2))
    by (unfold live; vm_compute; repeat split; eauto).
  destruct (@leader_heartbeat_resets_watchdog
              (packet "heartbeat" (Some 60) elected) (set_term 1 N2) L)
    as (_ & _ & _ & W1 & _ & _ & _ & W2 & _);
    try (vm_compute; reflexivity).
  split; [exact L|]. split; [reflexivity|]. split; [vm_compute; reflexivity|].
  split; [exact W2 | exact W1].
Defined.

(** X10: [promote] on a live node that is not yet a candidate returns with
    the node a CANDIDATE at the term [this.term + 1] evaluates to, the next
    term as long as the term is below [2 ^ 53], voted for itself with one
    vote granted and the empty string as leader; it has emitted the term
    (when the sum differs from the term), the leader (when the leader was not
    already empty) and the state change, in this order, and nothing else: no
    vote solicitation is handed to [write]. *)
Theorem promote_candidate n :
  live n -> strict_role (Some CANDIDATE) (state n) = false ->
  let run := promote n in
  res run = Return tt /\ live (st run) /\
  state (st run) = Some CANDIDATE /\
  term (st run) = plus_one (term n) /\
  (- 2 ^ 53 <= term n < 2 ^ 53 -> term (st run) = term n + 1) /\
  votes_for (st run) = Some (name n) /\ votes_granted (st run) = 1 /\
  leader (st run) = Some EmptyString /\
  evs run =
    (if plus_one (term n) =? term n then []
     else [term_change (plus_one (term n)) (term n)]) ++
    (if same_name (Some EmptyString) (leader n) then []
     else [leader_change (Some EmptyString) (leader n)]) ++
    [state_change (Some CANDIDATE) (state n)] /\
  replies (evs run) = [] /\
  (forall w, ~ In (write_call w) (evs run)).
Proof.
  intros H Hs. cbv zeta. destruct H as (Hl & (r & Ht) & Hw & Hr).
  assert (H : live n) by (repeat split; eauto).
  destruct (@promote_spec n r H Ht)
    as (R & L & T & S & Le & Vf & Vg & _ & _ & _ & Ev).
  { rewrite Hs. reflexivity. }
  unfold promote_events in Ev. rewrite Hs in Ev. rewrite Ev.
  repeat split; auto; try apply L.
  - intros Hsafe. rewrite T. now apply plus_one_safe.
  - destruct (plus_one (term n) =? term n),
             (same_name (Some EmptyString) (leader n)); reflexivity.
  - intros w. destruct (plus_one (term n) =? term n),
                       (same_name (Some EmptyString) (leader n));
      cbn; intuition discriminate.
Qed.

Lemma promote_candidate_witness :
  live N1 /\ strict_role (Some CANDIDATE) (state N1) = false /\
  term (st (promote N1)) = 1 /\
  evs (promote N1) =
    [term_change 1 0; leader_change (Some EmptyString) None;
     state_change (Some CANDIDATE) (Some FOLLOWER)].
Proof.
  assert (L : live N1) by (unfold live; vm_compute; repeat split; eauto).
  destruct (@promote_candidate N1 L eq_refl)
    as (_ & _ & _ & _ & W1 & _ & _ & _ & W2 & _).
  split; [exact L|]. split; [reflexivity|].
  split; [apply W1; vm_compute; split; congruence | exact W2].
Defined.

(** X11: when the heartbeat timer expires on a live node that is neither
    leader nor candidate, ['heartbeat timeout'] is emitted and the node
    promotes itself: it is a CANDIDATE at the term [this.term + 1] evaluates
    to, the next term below [2 ^ 53], with its own vote, and both the
    heartbeat and the election timer are pending. *)
Theorem heartbeat_expiry_promotes n r x :
  live n -> timers n = Some r ->
  Tick.find "heartbeat" r = Some x -> Tick.fn x = heartbeat_expired ->
  strict_role (Some LEADER) (state n) = false ->
  strict_role (Some CANDIDATE) (state n) = false ->
  let run := expire "heartbeat" n in
  res run = Return tt /\ live (st run) /\
  evs run = heartbeat_timeout :: promote_events n /\
  state (st run) = Some CANDIDATE /\
  term (st run) = plus_one (term n) /\
  (- 2 ^ 53 <= term n < 2 ^ 53 -> term (st run) = term n + 1) /\
  votes_for (st run) = Some (name n) /\ votes_granted (st run) = 1 /\
  pending "heartbeat" (st run) = true /\ pending "election" (st run) = true.
Proof.
  intros H Ht F Hfn Hl Hc. cbv zeta. unfold expire. rewrite Ht, F.
  erewrite bind_run by apply modify_run. rewrite Hfn. cbn [call].
  set (n1 := set_timers (Some (Tick.remove "heartbeat" r)) n).
  assert (H1 : live n1).
  { destruct H as (A & _ & B & C). unfold n1, live. cbn.
    repeat split; eauto. }
  unfold on_heartbeat_expired.
  change (state n1) with (state n). rewrite Hl. cbn [negb].
  erewrite bind_run by (apply emit_other_run; exact I).
  destruct (@promote_spec n1 _ H1 eq_refl)
    as (R & L & T & S & _ & Vf & Vg & _ & _ & (d & Hti) & Ev).
  { change (state n1) with (state n). rewrite Hc. reflexivity. }
  change (state n1) with (state n) in Hti. rewrite Hc in Hti.
  cbn [res st evs app]. rewrite Ev. unfold pending. rewrite Hti.
  repeat split; auto; try apply L.
  intros Hsafe. rewrite T. now apply plus_one_safe.
Qed.

Lemma heartbeat_expiry_promotes_witness :
  let n := st (heartbeat None N1) in
  live n /\ pending "heartbeat" n = true /\ state n = Some FOLLOWER /\
  state (st (expire "heartbeat" n)) = Some CANDIDATE /\
  term (st (expire "heartbeat" n)) = 1.
Proof.
  cbv zeta.
  assert (L : live (st (heartbeat None N1)))
    by (unfold live; vm_compute; repeat split; eauto).
  destruct (@heartbeat_expiry_promotes (st (heartbeat None N1))
              heartbeat_only (Tick.Timer heartbeat_expired NaN) L)
    as (_ & _ & _ & W1 & _ & W2 & _); try (vm_compute; reflexivity).
  split; [exact L|]. split; [vm_compute; reflexivity|].
  split; [vm_compute; reflexivity|]. split; [exact W1|].
  apply W2. vm_compute. split; congruence.
Defined.

Lemma find_none_notin name (r : Tick.t callback) :
  ~ In name (map fst r) -> Tick.find name r = None.
Proof.
  induction r as [|[k y] r IH]; simpl; [reflexivity|].
  intros Hn. destruct (String.eqb_spec k name) as [->|_].
  - exfalso. apply Hn. now left.
  - apply IH. intros Hin. apply Hn. now right.
Qed.

Lemma find_remove_same name (r : Tick.t callback) :
  one_per_name r -> Tick.find name (Tick.remove name r) = None.
Proof.
  unfold one_per_name. induction r as [|[k y] r IH]; simpl; [reflexivity|].
  intros Hnd. inversion Hnd as [|? ? Hnotin Hnd']; subst.
  destruct (String.eqb_spec k name) as [->|Hne].
  - now apply find_none_notin.
  - simpl. destruct (String.eqb_spec k name); [contradiction|]. now apply IH.
Qed.

Lemma find_remove_other name other (r : Tick.t callback) :
  other <> name -> Tick.find other (Tick.remove name r) = Tick.find other r.
Proof.
  intros Hne. induction r as [|[k y] r IH]; simpl; [reflexivity|].
  destruct (String.eqb_spec k name) as [->|_].
  - destruct (String.eqb_spec name other); [congruence | reflexivity].
  - simpl. destruct (k =? other)%string; [reflexivity | exact IH].
Qed.

(** X12: when the election timer expires on a live candidate whose registry
    holds one timer per name, [promote] runs again: the node stays
    CANDIDATE, moves to the term [this.term + 1] evaluates to, the next term
    below [2 ^ 53], holds a fresh self-vote with one vote granted, and a new
    election timer is pending; no ['state change'] is emitted, so the other
    timers are left as they are. *)
Theorem election_expiry_starts_new_term n r x :
  live n -> state n = Some CANDIDATE ->
  timers n = Some r -> one_per_name r ->
  Tick.find "election" r = Some x -> Tick.fn x = promote_fn ->
  let run := expire "election" n in
  res run = Return tt /\ live (st run) /\
  state (st run) = Some CANDIDATE /\
  term (st run) = plus_one (term n) /\
  (- 2 ^ 53 <= term n < 2 ^ 53 -> term (st run) = term n + 1) /\
  votes_for (st run) = Some (name n) /\ votes_granted (st run) = 1 /\
  pending "election" (st run) = true /\
  (forall other, other <> "election" ->
     duration_of other (st run) = duration_of other n) /\
  evs run =
    (if plus_one (term n) =? term n then []
     else [term_change (plus_one (term n)) (term n)]) ++
    (if same_name (Some EmptyString) (leader n) then []
     else [leader_change (Some EmptyString) (leader n)]).
Proof.
  intros H Hs Ht Hu F Hfn. cbv zeta. unfold expire. rewrite Ht, F.
  erewrite bind_run by apply modify_run. rewrite Hfn. cbn [call].
  set (n1 := set_timers (Some (Tick.remove "election" r)) n).
  assert (H1 : live n1).
  { destruct H as (A & _ & B & C). unfold n1, live. cbn.
    repeat split; eauto. }
  assert (Hact : Tick.active "election" (Tick.remove "election" r) = false).
  { unfold Tick.active. now rewrite find_remove_same. }
  destruct (@promote_spec n1 _ H1 eq_refl)
    as (R & L & T & S & _ & Vf & Vg & _ & _ & (d & Hti) & Ev).
  { change (state n1) with (state n). rewrite Hs. exact Hact. }
  change (state n1) with (state n) in Hti. rewrite Hs in Hti.
  cbn [strict_role role_eqb role_code Z.eqb Pos.eqb] in Hti.
  unfold promote_events in Ev.
  change (state n1) with (state n) in Ev. rewrite Hs in Ev.
  cbn [strict_role role_eqb role_code Z.eqb Pos.eqb] in Ev.
  rewrite app_nil_r in Ev.
  cbn [res st evs app]. rewrite Ev. unfold pending, duration_of.
  rewrite Hti, Ht. unfold Tick.active.
  repeat split; auto; try apply L.
  - intros Hsafe. rewrite T. now apply plus_one_safe.
  - rewrite find_app_new; [reflexivity | now apply find_remove_same].
  - intros other Hne.
    rewrite find_app_other, find_remove_other by exact Hne. reflexivity.
Qed.

Lemma election_expiry_starts_new_term_witness :
  let n := st (promote N1) in
  live n /\ state n = Some CANDIDATE /\ term n = 1 /\
  term (st (expire "election" n)) = 2 /\
  votes_granted (st (expire "election" n)) = 1 /\
  pending "election" (st (expire "election" n)) = true.
Proof.
  cbv zeta.
  assert (L : live (st (promote N1)))
    by (unfold live; vm_compute; repeat split; eauto).
  assert (S : state (st (promote N1)) = Some CANDIDATE)
    by (vm_compute; reflexivity).
  assert (T : timers (st (promote N1)) =
              Some [("heartbeat", Tick.Timer heartbeat_expired NaN);
                    ("election", Tick.Timer promote_fn (Num 225))])
    by (vm_compute; reflexivity).
  assert (U : one_per_name
                [("heartbeat", Tick.Timer heartbeat_expired NaN);
                 ("election", Tick.Timer promote_fn (Num 225))]).
  { unfold one_per_name. cbn. repeat constructor; cbn; intuition discriminate. }
  assert (T1 : term (st (promote N1)) = 1) by (vm_compute; reflexivity).
  destruct (@election_expiry_starts_new_term (st (promote N1)) _
              (Tick.Timer promote_fn (Num 225)) L S T U
              eq_refl eq_refl) as (_ & _ & _ & _ & W1 & _ & W2 & W3 & _).
  rewrite T1 in W1.
  split; [exact L|]. split; [exact S|]. split; [exact T1|].
  split; [apply W1; vm_compute; split; congruence|].
  split; [exact W2 | exact W3].
Defined.

Lemma change_nothing c n :
  term_differs c n = false -> leader_differs c n = false ->
  state_differs c n = false ->
  change (Some c) n = Run (Return tt) n [].
Proof.
  intros D1 D2 D3. unfold change, changes, for_each.
  assert (E1 : change_key c k_term n = Run (Return tt) n []).
  { unfold change_key. unfold term_differs in D1.
    destruct (c_term c); [rewrite D1|]; reflexivity. }
  assert (E2 : change_key c k_leader n = Run (Return tt) n []).
  { unfold change_key. unfold leader_differs in D2.
    destruct (c_leader c); [rewrite D2|]; reflexivity. }
  assert (E3 : change_key c k_state n = Run (Return tt) n []).
  { unfold change_key. unfold state_differs in D3.
    destruct (c_state c); [rewrite D3|]; reflexivity. }
  erewrite bind_run by exact E1. erewrite bind_run by exact E2.
  erewrite bind_run by exact E3. reflexivity.
Qed.

Lemma same_name_refl a : same_name a a = true.
Proof. destruct a; simpl; [apply String.eqb_refl | reflexivity]. Qed.

(** X13: [change] is idempotent on a live node: applied a second time with
    the same argument it finds no key whose value differs, so it writes
    nothing, emits no event and runs no listener; timers and vote record
    are not touched again. *)
Theorem change_idempotent c n :
  live n ->
  let once := st (change (Some c) n) in
  change (Some c) once = Run (Return tt) once [].
Proof.
  intros H. cbv zeta.
  destruct (change_live c H) as (_ & _ & _ & _ & Ht & Hl & Hs & _).
  apply change_nothing.
  - unfold term_differs. rewrite Ht.
    destruct (c_term c); [|reflexivity]. cbn [or_else].
    now rewrite Z.eqb_refl.
  - unfold leader_differs. rewrite Hl.
    destruct (c_leader c); [|reflexivity]. cbn [or_keep].
    now rewrite same_name_refl.
  - unfold state_differs. rewrite Hs.
    destruct (c_state c) as [s|]; [|reflexivity]. cbn [or_keep strict_role].
    assert (E : role_eqb s s = true) by now apply role_eqb_eq.
    now rewrite E.
Qed.

Lemma change_idempotent_witness :
  let c := {| c_term := Some 3; c_leader := Some "N2";
              c_state := Some LEADER |} in
  live N1 /\
  evs (change (Some c) N1) =
    [term_change 3 0; leader_change (Some "N2") None;
     state_change (Some LEADER) (Some FOLLOWER)] /\
  evs (change (Some c) (st (change (Some c) N1))) = [].
Proof.
  cbv zeta.
  assert (L : live N1) by (unfold live; vm_compute; repeat split; eauto).
  pose proof (@change_idempotent
                {| c_term := Some 3; c_leader := Some "N2";
                   c_state := Some LEADER |} N1 L) as W.
  cbv zeta in W.
  split; [exact L|]. split; [vm_compute; reflexivity|].
  rewrite W. reflexivity.
Defined.

(** X14: a candidate that asks again is granted again: once a live voter
    has granted a solicitation, the same solicitation read a second time is
    answered with [{granted: true}] and the vote record stays with that
    candidate. *)
Theorem same_candidate_granted_again voter a :
  live voter -> p_type a = "vote" ->
  let first := call_read (Object a) voter in
  let second := call_read (Object a) (st first) in
  replies (evs first) = [true] ->
  replies (evs second) = [true] /\
  votes_for (st second) = votes_for (st first) /\
  votes_for (st second) = p_name a.
Proof.
  intros H Ha. cbv zeta.
  rewrite (call_read_live (Object a) H).
  destruct (incoming_solicitation a H Ha) as (Ra & La & Ca).
  rewrite (bind_ret _ true _ Ra). cbn [st evs].
  set (n1 := st (incoming (Object a) voter)) in *.
  rewrite (call_read_live (Object a) La).
  destruct (incoming_solicitation a La Ha) as (Rb & Lb & Cb).
  rewrite (bind_ret _ true _ Rb). cbn [st evs].
  intros Ea.
  destruct (js_lt (p_term a) (term voter)).
  { destruct Ca as (_ & Ev). rewrite Ev in Ea. discriminate. }
  destruct Ca as (Ga & Lta & Ca).
  case_if Ca; destruct Ca as (Ea' & Hv);
    [rewrite Ea' in Ea; discriminate|].
  rewrite Lta in Cb. destruct Cb as (_ & _ & Cb).
  rewrite Ga, Hv, same_name_refl in Cb.
  cbn [negb andb] in Cb. rewrite andb_false_r in Cb.
  destruct Cb as (E1 & E2). rewrite E1, E2. auto.
Qed.

Lemma same_candidate_granted_again_witness :
  let a := solicit (Some "A") 4 in
  let first := call_read (Object a) (set_term 4 N1) in
  live (set_term 4 N1) /\ replies (evs first) = [true] /\
  replies (evs (call_read (Object a) (st first))) = [true].
Proof.
  cbv zeta.
  assert (L : live (set_term 4 N1))
    by (unfold live; vm_compute; repeat split; eauto).
  assert (E : replies (evs (call_read (Object (solicit (Some "A") 4))
                              (set_term 4 N1))) = [true])
    by (vm_compute; reflexivity).
  destruct (@same_candidate_granted_again (set_term 4 N1)
              (solicit (Some "A") 4) L eq_refl E) as (W & _).
  split; [exact L|]. split; [exact E | exact W].
Defined.

(** X15: a candidate keeps its vote: after [promote], a live node whose
    name is not empty refuses a solicitation of its new term that comes
    from any other name, and its vote record stays with itself. *)
Theorem candidate_refuses_others n p :
  live n -> name n <> EmptyString ->
  p_type p = "vote" -> p_term p = Some (plus_one (term n)) ->
  same_name (Some (name n)) (p_name p) = false ->
  let run := call_read (Object p) (st (promote n)) in
  res run = Return true /\ replies (evs run) = [false] /\
  votes_for (st run) = Some (name n).
Proof.
  intros H Hn Hty Ht Hne. cbv zeta.
  destruct H as (Hl & (r & Htn) & Hw & Hr).
  assert (H : live n) by (repeat split; eauto).
  destruct (promote_effect H Htn) as (L & T & _ & _ & Vf & _).
  set (c := st (promote n)) in *.
  rewrite (call_read_live (Object p) L).
  destruct (incoming_solicitation p L Hty) as (R & _ & C).
  rewrite (bind_ret _ true _ R). cbn [res st evs].
  rewrite Ht, T in C. cbn [js_lt js_gt] in C.
  rewrite Z.ltb_irrefl, Vf, Hne in C. cbn [truthy negb andb] in C.
  assert (E : (name n =? EmptyString)%string = false)
    by now apply String.eqb_neq.
  rewrite E in C. cbn [negb] in C.
  destruct C as (_ & _ & C1 & C2). auto.
Qed.

Lemma candidate_refuses_others_witness :
  let p := solicit (Some "N2") 1 in
  live N1 /\ name N1 <> EmptyString /\
  replies (evs (call_read (Object p) (st (promote N1)))) = [false].
Proof.
  cbv zeta.
  assert (L : live N1) by (unfold live; vm_compute; repeat split; eauto).
  assert (Hn : name N1 <> EmptyString) by (vm_compute; discriminate).
  assert (Ht : p_term (solicit (Some "N2") 1) = Some (plus_one (term N1)))
    by (vm_compute; reflexivity).
  destruct (@candidate_refuses_others N1 (solicit (Some "N2") 1) L
              Hn eq_refl Ht eq_refl) as (_ & W & _).
  split; [exact L|]. split; [exact Hn | exact W].
Defined.

Lemma emit_deaf e n :
  listening n = false -> emit e n = Run (Return false) n [e].
Proof.
  intros H. unfold emit, bind, tell; simpl. rewrite H. reflexivity.
Qed.

(** X16: [end] does not stop [promote]: called on a node [end] has
    stopped, it still moves the term to what [this.term + 1] evaluates to,
    the next term below [2 ^ 53], sets the role back to CANDIDATE and
    records a self-vote, emits the change events, and only then raises,
    [this.timers] being null; after it [end] raises too, the role being set
    again, and [heartbeat] raises on a stopped node. *)
Theorem promote_after_end n :
  res (end_ n) = Return true ->
  let stopped := st (end_ n) in
  let run := promote stopped in
  res run = Raise (TypeError "this.timers is null") /\
  state stopped = None /\ state (st run) = Some CANDIDATE /\
  term (st run) = plus_one (term n) /\
  (- 2 ^ 53 <= term n < 2 ^ 53 -> term (st run) = term n + 1) /\
  votes_for (st run) = Some (name n) /\ votes_granted (st run) = 1 /\
  evs run =
    (if plus_one (term n) =? term n then []
     else [term_change (plus_one (term n)) (term n)]) ++
    (if same_name (Some EmptyString) (leader n) then []
     else [leader_change (Some EmptyString) (leader n)]) ++
    [state_change (Some CANDIDATE) None] /\
  res (end_ (st run)) = Raise (TypeError "this.timers is null") /\
  (forall duration,
     res (heartbeat duration stopped)
       = Raise (TypeError "this.timers is null")).
Proof.
  intros H. cbv zeta.
  destruct (end_true n H) as (s & r & Hs & Ht).
  rewrite (end_run n Hs Ht). cbn [st].
  assert (Hh : forall duration,
            res (heartbeat duration (stopped_from n))
              = Raise (TypeError "this.timers is null")).
  { intros duration. unfold heartbeat.
    destruct duration as [[|z|z]|];
      (erewrite bind_run
         by first [ reflexivity
                  | unfold timeout; erewrite bind_run by reflexivity;
                    reflexivity ]);
      reflexivity. }
  pose proof (@plus_one_safe (term n)) as Hsafe.
  unfold promote, change, changes, for_each.
  assert (E1 : change_key
                 {| c_term := Some (plus_one (term (stopped_from n)));
                    c_leader := Some EmptyString;
                    c_state := Some CANDIDATE |} k_term (stopped_from n)
               = Run (Return tt) (set_term (plus_one (term n)) (stopped_from n))
                   (if plus_one (term n) =? term n then []
                    else [term_change (plus_one (term n)) (term n)])).
  { unfold change_key. cbn [c_term]. change (term (stopped_from n)) with (term n).
    destruct (Z.eqb_spec (plus_one (term n)) (term n)) as [E|E]; cbn [negb].
    - rewrite E. unfold ret. f_equal.
    - erewrite bind_run by apply modify_run.
      erewrite bind_run by (apply emit_deaf; reflexivity). reflexivity. }
  destruct (same_name (Some EmptyString) (leader n)) eqn:El.
  - erewrite bind_run.
    2:{ erewrite bind_run by exact E1.
        erewrite bind_run.
        2:{ unfold change_key. cbn [c_leader].
            change (leader (set_term _ _)) with (leader n). rewrite El.
            reflexivity. }
        erewrite bind_run.
        2:{ unfold change_key. cbn [c_state].
            erewrite bind_run by apply modify_run.
            erewrite bind_run by (apply emit_deaf; reflexivity).
            reflexivity. }
        reflexivity. }
    cbn. rewrite !app_nil_r. repeat split; auto.
  - erewrite bind_run.
    2:{ erewrite bind_run by exact E1.
        erewrite bind_run.
        2:{ unfold change_key. cbn [c_leader].
            change (leader (set_term _ _)) with (leader n). rewrite El.
            cbn [negb].
            erewrite bind_run by apply modify_run.
            erewrite bind_run by (apply emit_other_run; exact I).
            reflexivity. }
        erewrite bind_run.
        2:{ unfold change_key. cbn [c_state].
            erewrite bind_run by apply modify_run.
            erewrite bind_run by (apply emit_deaf; reflexivity).
            reflexivity. }
        reflexivity. }
    cbn. rewrite !app_nil_r. repeat split; auto.
Qed.

Lemma promote_after_end_witness :
  res (end_ N1) = Return true /\
  state (st (end_ N1)) = None /\
  state (st (promote (st (end_ N1)))) = Some CANDIDATE /\
  term (st (promote (st (end_ N1)))) = 1.
Proof.
  destruct (@promote_after_end N1 eq_refl) as (_ & W0 & W1 & _ & W2 & _).
  split; [reflexivity|]. split; [exact W0|]. split; [exact W1|].
  apply W2. vm_compute. split; congruence.
Defined.

(** The tally of [incoming_voted] up to the call of [quorum], on a live
    candidate and for a reply of its own term. *)
Lemma tally_run p n g :
  state n = Some CANDIDATE -> p_payload p = Some g ->
  p_term p = Some (term n) ->
  let n1 := if g then set_votes_granted (votes_granted n + 1) n else n in
  incoming_voted p n =
    (q <- quorum ;
     fun n0 =>
       if q <=? votes_granted n0 then
         change (Some {| c_term := None; c_leader := Some (name n0);
                         c_state := Some LEADER |}) n0
       else ret tt n0) n1.
Proof.
  intros Hs Hp Ht. cbv zeta. unfold incoming_voted.
  rewrite Hs, Hp, Ht.
  change (negb (strict_role (Some CANDIDATE) (Some CANDIDATE))) with false.
  cbv iota.
  set (n1 := if g then set_votes_granted (votes_granted n + 1) n else n).
  assert (Ft : term n1 = term n) by (unfold n1; destruct g; reflexivity).
  erewrite bind_run with (n1 := n1) (e1 := []).
  2:{ cbv beta. cbn [strict_num]. rewrite Z.eqb_refl, andb_true_r.
      unfold n1. destruct g; reflexivity. }
  erewrite bind_run with (n1 := n1) (e1 := []).
  2:{ cbv beta. cbn [js_gt]. rewrite Ft, Z.ltb_irrefl. reflexivity. }
  cbn [app]. destruct (bind quorum _ n1); reflexivity.
Qed.

(** X17: the reply that completes the quorum makes a live candidate LEADER
    with its own name as leader: ['leader change'] (unless the leader was
    already its name) and then ['state change'] are emitted, nothing is
    written to the transport, and the state change clears the timers, so
    the election timer is cancelled and the heartbeat timer alone is
    pending. *)
Theorem election_won n l p g :
  live n -> state n = Some CANDIDATE -> nodes n = Some l ->
  p_type p = "voted" -> strict_role (Some LEADER) (p_state p) = false ->
  p_payload p = Some g -> p_term p = Some (term n) ->
  (Z.of_nat (List.length l) + 1) / 2 + 1
    <= votes_granted n + (if g then 1 else 0) ->
  let run := call_read (Object p) n in
  res run = Return true /\ live (st run) /\
  state (st run) = Some LEADER /\ leader (st run) = Some (name n) /\
  term (st run) = term n /\
  evs run =
    (if same_name (Some (name n)) (leader n) then []
     else [leader_change (Some (name n)) (leader n)]) ++
    [state_change (Some LEADER) (Some CANDIDATE)] /\
  timers (st run) = Some heartbeat_only /\
  pending "election" (st run) = false /\ pending "heartbeat" (st run) = true.
Proof.
  intros H Hs Hn Hty Hps Hp Ht Hq. cbv zeta.
  set (n1 := if g then set_votes_granted (votes_granted n + 1) n else n).
  assert (H1 : live n1) by (unfold n1; destruct g; exact H).
  assert (Hg : votes_granted n1 = votes_granted n + (if g then 1 else 0)).
  { unfold n1. destruct g; simpl; lia. }
  assert (F : term n1 = term n /\ name n1 = name n /\ nodes n1 = nodes n /\
              state n1 = state n /\ leader n1 = leader n).
  { unfold n1. destruct g; simpl; auto. }
  destruct F as (Ft & Fn & Fno & Fs & Fl).
  pose (c := {| c_term := None; c_leader := Some (name n1);
                c_state := Some LEADER |}).
  destruct (change_live c H1)
    as (R & L1 & _ & _ & Ht' & Hle & Hst & _ & _ & Hti & He).
  assert (D3 : state_differs c n1 = true).
  { unfold state_differs, c. cbn [c_state]. rewrite Fs, Hs. reflexivity. }
  assert (D2 : leader_differs c n1
               = negb (same_name (Some (name n)) (leader n))).
  { unfold leader_differs, c. cbn [c_leader]. now rewrite Fn, Fl. }
  rewrite D3 in Hti. rewrite D2, D3 in He.
  cbn [c term_differs c_term c_leader c_state or_else or_keep app] in *.
  assert (E : incoming (Object p) n =
              Run (Return tt) (st (change (Some c) n1))
                  (evs (change (Some c) n1))).
  { rewrite (incoming_tally p H Hs Hn Hty Hps Hp Ht).
    rewrite (tally_run p n Hs Hp Ht). fold n1.
    erewrite bind_run by (apply quorum_run; rewrite Fno; exact Hn).
    cbv beta. rewrite Hg. apply Z.leb_le in Hq. rewrite Hq.
    fold c. rewrite <- R. cbn [app]. symmetry. apply run_eta. }
  rewrite (@incoming_run_eq p n _ E H eq_refl). cbn [res st evs].
  unfold pending. rewrite Hti, He, Hle, Hst, Ht', Fn, Ft, Fs, Fl, Hs.
  repeat split; auto; try apply L1.
  destruct (same_name (Some (name n)) (leader n)); reflexivity.
Qed.

Lemma election_won_witness :
  let n := st (promote (set_nodes (Some ["N2"; "N3"]) N1)) in
  let p := reply "N2" 1 (Some true) in
  live n /\ state n = Some CANDIDATE /\ pending "election" n = true /\
  state (st (call_read (Object p) n)) = Some LEADER /\
  pending "election" (st (call_read (Object p) n)) = false /\
  evs (call_read (Object p) n) =
    [leader_change (Some "N1") (Some EmptyString);
     state_change (Some LEADER) (Some CANDIDATE)].
Proof.
  cbv zeta.
  assert (L : live (st (promote (set_nodes (Some ["N2"; "N3"]) N1))))
    by (unfold live; vm_compute; repeat split; eauto).
  assert (Hs : state (st (promote (set_nodes (Some ["N2"; "N3"]) N1)))
               = Some CANDIDATE) by (vm_compute; reflexivity).
  assert (Hn : nodes (st (promote (set_nodes (Some ["N2"; "N3"]) N1)))
               = Some ["N2"; "N3"]) by (vm_compute; reflexivity).
  assert (Ht : p_term (reply "N2" 1 (Some true))
               = Some (term (st (promote (set_nodes (Some ["N2"; "N3"]) N1)))))
    by (vm_compute; reflexivity).
  assert (Hq : (Z.of_nat (List.length ["N2"; "N3"]) + 1) / 2 + 1
               <= votes_granted
                    (st (promote (set_nodes (Some ["N2"; "N3"]) N1)))
                  + (if true then 1 else 0))
    by (vm_compute; discriminate).
  destruct (@election_won _ _ (reply "N2" 1 (Some true)) true
              L Hs Hn eq_refl eq_refl eq_refl Ht Hq)
    as (_ & _ & W1 & _ & _ & _ & _ & W3 & _).
  split; [exact L|]. split; [exact Hs|]. split; [vm_compute; reflexivity|].
  split; [exact W1|]. split; [exact W3|]. vm_compute. reflexivity.
Defined.

(** X18: [quorum] reads [this.nodes], which the constructor never assigns:
    while no peer set has been assigned, a reply of its own term tallied by
    a live candidate raises a TypeError out of [read]; the granted count has
    already been incremented for a granting reply, and the node stays a
    CANDIDATE without emitting an event. *)
Theorem tally_without_peer_set n p g :
  live n -> state n = Some CANDIDATE -> nodes n = None ->
  p_type p = "voted" -> strict_role (Some LEADER) (p_state p) = false ->
  p_payload p = Some g -> p_term p = Some (term n) ->
  let run := call_read (Object p) n in
  res run = Raise (TypeError "this.nodes is undefined") /\
  evs run = [] /\ state (st run) = Some CANDIDATE /\
  votes_granted (st run) = votes_granted n + (if g then 1 else 0) /\
  term (st run) = term n.
Proof.
  intros H Hs Hn Hty Hps Hp Ht. cbv zeta.
  rewrite call_read_live by exact H.
  assert (E : incoming (Object p) n = incoming_voted p n).
  { rewrite incoming_object, Ht. cbn [js_gt js_lt]. rewrite Z.ltb_irrefl.
    erewrite bind_run by (apply recognize_leader_skip; exact Hps).
    rewrite dispatch_voted by exact Hty. cbn [app].
    symmetry. apply run_eta. }
  set (n1 := if g then set_votes_granted (votes_granted n + 1) n else n).
  assert (Q : quorum n1 = Run (Raise (TypeError "this.nodes is undefined"))
                            n1 []).
  { unfold quorum. replace (nodes n1) with (nodes n)
      by (unfold n1; destruct g; reflexivity).
    rewrite Hn. reflexivity. }
  erewrite bind_raise.
  2:{ rewrite E, (tally_run p n Hs Hp Ht). fold n1.
      erewrite bind_raise by exact Q. reflexivity. }
  cbn [res st evs]. unfold n1. destruct g; cbn; repeat split; auto; lia.
Qed.

Lemma tally_without_peer_set_witness :
  let n := st (promote N1) in
  let p := reply "N2" 1 (Some true) in
  live n /\ nodes n = None /\
  res (call_read (Object p) n) = Raise (TypeError "this.nodes is undefined") /\
  votes_granted (st (call_read (Object p) n)) = 2.
Proof.
  cbv zeta.
  assert (L : live (st (promote N1)))
    by (unfold live; vm_compute; repeat split; eauto).
  assert (Hs : state (st (promote N1)) = Some CANDIDATE)
    by (vm_compute; reflexivity).
  assert (Hn : nodes (st (promote N1)) = None) by (vm_compute; reflexivity).
  assert (Ht : p_term (reply "N2" 1 (Some true))
               = Some (term (st (promote N1)))) by (vm_compute; reflexivity).
  destruct (@tally_without_peer_set _ (reply "N2" 1 (Some true)) true
              L Hs Hn eq_refl eq_refl eq_refl Ht) as (W1 & _ & _ & W2 & _).
  split; [exact L|]. split; [exact Hn|]. split; [exact W1|].
  rewrite W2. vm_compute. reflexivity.
Defined.

(** X19: the value of [quorum] is the least strict majority of the cluster
    made of the [N] peers and the node itself: [N + 1 < 2 q <= N + 3].
    Two disjoint sets of voters of that size do not fit in the cluster. *)
Theorem quorum_is_majority n l :
  nodes n = Some l ->
  let N := Z.of_nat (List.length l) in
  exists q, quorum n = Run (Return q) n [] /\
            N + 1 < 2 * q /\ 2 * q <= N + 3.
Proof.
  intros H. cbv zeta.
  exists ((Z.of_nat (List.length l) + 1) / 2 + 1).
  split; [apply quorum_run; exact H|].
  Z.to_euclidean_division_equations. lia.
Qed.

Lemma quorum_is_majority_witness :
  nodes (set_nodes (Some ["N2"; "N3"; "N4"]) N1) = Some ["N2"; "N3"; "N4"] /\
  res (quorum (set_nodes (Some ["N2"; "N3"; "N4"]) N1)) = Return 3.
Proof.
  destruct (@quorum_is_majority (set_nodes (Some ["N2"; "N3"; "N4"]) N1)
              ["N2"; "N3"; "N4"] eq_refl) as (q & W & _).
  split; [reflexivity|]. vm_compute. reflexivity.
Defined.

(** X20: at term [2 ^ 53] the sum [this.term + 1] is the term itself, so
    [promote] leaves the term where it is: no ['term change'] is emitted and
    the listener does not run, the node becomes a CANDIDATE of the same term
    and records its own vote.  The node is [N1] after one packet of that
    term. *)
Theorem promote_at_two_to_53 :
  let n := st (call_read (Object (reply "N2" (2 ^ 53) None)) N1) in
  let run := promote n in
  live n /\ state n = Some FOLLOWER /\ term n = 2 ^ 53 /\
  res run = Return tt /\ term (st run) = 2 ^ 53 /\
  state (st run) = Some CANDIDATE /\
  votes_for (st run) = Some "N1" /\ votes_granted (st run) = 1 /\
  evs run = [leader_change (Some EmptyString) None;
             state_change (Some CANDIDATE) (Some FOLLOWER)].
Proof. unfold live. vm_compute. repeat split; eauto. Qed.
